(* ===== verification/_CoqProject ===== *)
-Q . S2P
Prelude.v
Types.v
Lerp.v
RenderLoop.v
Gemini.v
App.v
Shader.v
ShaderStage.v
JsNumber.v
JsFrame.v
JsApp.v
View.v
