(* ===== verification/Prelude.v ===== *)
(** * NeuroWave: a verification development of the mood-driven wave renderer

    The program (src/) is a React page in three parts that share one piece
    of state, the current wave configuration:

    - the Gemini service ([src/services/geminiService.ts], [analyzeThought])
      sends the user's text to a hosted model, reads back a JSON reply and
      maps it to a [ThoughtResponse]; every failure (rejected call, empty
      text, malformed JSON, property access on [null]/[undefined]) is caught
      and replaced by a fixed fallback reply and the shared object
      [INITIAL_WAVE_CONFIG] ([src/types.ts]);
    - the application shell ([src/App.tsx], [handleThoughtSubmit]) and the
      input form ([src/components/Interface.tsx], [handleSubmit]) hold
      [waveConfig], [isLoading], [latestResponse] and [inputText]; a submit
      is refused while a request is outstanding or when the trimmed input is
      empty, and the completion writes the new configuration wholesale;
    - the render loop ([src/components/WaveScene.tsx], [WaveMesh] and its
      [useFrame] callback) keeps a private [currentConfig] and, once per
      frame, moves it toward the App's [waveConfig] by
      [THREE.MathUtils.lerp] with factor [2.0 * delta], copies [metalness]
      directly, sets [uTime] from the clock and writes the shader uniforms;
    - the shaders (the GLSL strings of the same file) displace the plane
      by a product of sines plus a 3D gradient noise [cnoise] scaled by
      [uElevation], and colour it by a blend of the base colour driven by
      the elevation plus a grid.

    ** Files and what they model

    - [Prelude] (this file): an exception monad for JavaScript's
      throw/catch ([exc], notation [x <- c ;; k] in [nw_scope]), natural
      powers on [Q] ([qpow]) with the Bernoulli bounds used for convergence
      and divergence rates, the [nw] hint database and the tactics
      [qsolve], [qabs_facts] and [qabs_elim].
    - [Types]: [src/types.ts]: [Frequency], the configuration record
      [WaveConfigT] (parametric in how it holds its [frequency] object: by
      value, or by a heap reference), [INITIAL_WAVE_CONFIG],
      [ThoughtResponse], [ChatMessage]; the setoid [freq_equiv].
    - [Lerp]: [THREE.MathUtils.lerp] and [Color.lerp] as three.js writes
      them, [new THREE.Color(style)] as the interface [ColorStyle], and the
      one-step gap lemmas with their geometric convergence and divergence.
    - [RenderLoop]: the [WaveMesh] component: the JavaScript heap of
      [frequency] objects as a [gmap], the mesh state (mounted material,
      uniforms, [currentConfig]), the per-frame step [frame] and its
      iteration [run_frames].  The shallow copy [{ ...config }] shares the
      [frequency] object with the first configuration; this is modelled,
      not abstracted.
    - [Gemini]: JavaScript values ([jsval]) with property access that
      throws on [null]/[undefined], the prompt, [analyzeThought] and its
      fallback, the schema's flat JSON encoding.
    - [App]: the page as a state machine (typing, submit, completion of the
      outstanding request, animation frame), its reachable states and the
      invariants of the submit protocol.
    - [Shader]: the GLSL built-ins on [Q] ([Module GLSL]) and [cnoise]
      phase by phase ([Module Noise]: [hashes], [grad4], [corner_grads],
      [corner_values], [interp], [cell]), parametric in the corner offsets
      so that the code's ([repo_offsets]) and the original
      [classicnoise3D]'s ([stegu_offsets]) can be compared; [Module Seam]
      bounds a cell near a face.
    - [ShaderStage]: the vertex and fragment [main]s over the [Uniforms]
      of [RenderLoop], with GLSL's [sin] as the interface [Sine].
    - [JsNumber]: the JavaScript side of the values the program holds:
      numbers with [NaN] ([num]), [ToNumber] on parsed values (strings
      through the interface [StringToNumber]), the arithmetic of
      [THREE.MathUtils.lerp] on them ([lerp_js]) and
      [new THREE.Color(value)] ([color_of_jsv], with [setHex]'s 32-bit
      shifts and masks on [Z]).
    - [JsFrame]: the [useFrame] callback on JavaScript values
      ([JsMesh.frame_js]), related to [WaveMesh.frame] by a simulation.
    - [JsApp]: the page on JavaScript values ([JsShell.step_js]): every
      reply is accepted and its fields are kept as parsed, [undefined]
      for a missing one; it simulates the typed page of [App].
    - [View]: the JSX [Interface] renders ([InterfaceView.render]): the
      status pill, the response box (React's rendering of the reply,
      which throws on an object), the input and the button.

    ** Theorems

    - Render loop: one frame refines the design's LiveConfig step; the
      factor [2 * delta] is never clamped; after [n] frames the gap is
      [(1 - 2 delta)^n] times the first one, so it tends to 0 for
      [0 < delta < 1], jumps past the target for [delta > 1/2] and grows
      without bound for [delta > 1]; metalness is copied, [uTime] is the
      clock, a frame writes only the live [frequency] object; the
      120-frame scenario of the design is not within 1%.
    - Aliasing: in every reachable state of the page the live frequency
      object is the one of [INITIAL_WAVE_CONFIG]; after a fallback the
      "default" configuration carries a stale frequency, which then stays
      frozen.
    - Gemini: [analyzeThought] never rejects, returns the fallback exactly
      when the body throws, round-trips a well-formed reply, and lets a
      missing field through as [undefined].
    - App: at most one request is outstanding and [isLoading] says whether
      one is; a submit is refused exactly when loading or the trimmed
      input is empty; completion replaces the configuration wholesale.
    - Shader: the original noise is continuous across cell faces, the
      code's is not ([cnoise_discontinuous_x]), and the tear shows in the
      surface the vertex shader draws; the noise is 0 at lattice points;
      the fragment colour of a channel [c >= 0] is within [[c/2, 3c/2 +
      0.3]]; the phase [uTime * uSpeed] jumps by an amount growing with
      the session time while the speed is smoothed.
    - Values as JavaScript holds them: on numeric fields the frame and the
      page on JavaScript values do what the typed models do (two
      simulations); numeric targets keep the state numeric; a target
      field that is not a number makes the live field [NaN] and no later
      frame or reply repairs it, so a reply without [speed] breaks the
      animation for the rest of the session; every outstanding request
      ends whatever the reply; a reply whose [reply] is an object makes
      the interface throw while rendering.
    - Interface: the button is enabled exactly when [handleSubmit]
      accepts, the status reads PROCESSING exactly when a request is
      outstanding, typed replies always render.

    ** Numbers, fuel and bounds

    JavaScript and GLSL numbers are modelled as exact rationals [Q]; the
    theorems are about the real-number behaviour of the code (IEEE and
    float32 rounding and infinities are not modelled; [NaN], which a
    missing field of a reply produces, is, in [JsNumber]).  Equalities of
    numbers are [Qeq] ([==]), and the operations are [Proper] for it.
    Nothing needs fuel: every loop of the program is a frame or an event,
    and sequences of them are lists ([run_frames], [run_events]).  The
    concrete bounds are the code's: [delta] ranges are where [2 * delta]
    crosses 1 and 2; the seam theorem uses the fixed point
    [(1, 0.3, 0.7)], a bound [28] on the cell's slope near the face
    (checked by evaluation) and distances below [1/1000].

    ** What is not modelled

    React's scheduling (each event is one atomic transition, its state
    updates visible to the next event), the GPU pipeline beyond the two
    shader [main]s (matrices, rasterisation, [colorspace_fragment]), the
    three.js camera/lights/stars (cosmetic configuration), the Gemini
    transport and JSON.parse (interfaces the service is generic over), CSS
    classes, icons and transitions.  The language and library semantics
    the program relies on ([ToNumber], [setHex], React's rendering of
    children) are modelled as executable definitions in [JsNumber] and
    [View] but are not code of the repository.

    ** Plan of the development (in order of importance)

    1. render loop: smoothing, convergence, overshoot, divergence,
       aliasing (done);
    2. Gemini service: never rejects, fallback, round trip, missing
       fields (done);
    3. App/Interface: submit protocol and its invariants (done);
    4. shader: [cnoise] and its seam, both [main]s (done);
    5. values as JavaScript holds them: [NaN] from untyped replies, the
       page on JavaScript values and its simulation of the typed page,
       the rendered interface (done);
    left: the periodicity 289 of the hashes, continuity of the original
    noise in [y] and [z], [StringToNumber] on numeric strings, the colour
    of a numeric [color] field through [setHex].
*)

From Stdlib Require Import ZArith Lia QArith Qabs Qminmax Lqa List Bool.

Declare Scope nw_scope.
Delimit Scope nw_scope with nw.

(** ** JavaScript exceptions as values *)

(** A computation that returns a value or throws.  [E] is the type of the
    thrown values. *)
Inductive exc (E A : Type) : Type :=
| Return (a : A)
| Throw (e : E).
Arguments Return {E A} a.
Arguments Throw {E A} e.

Definition exc_bind {E A B : Type} (c : exc E A) (k : A -> exc E B) : exc E B :=
  match c with
  | Return a => k a
  | Throw e => Throw e
  end.

(** [try { c } catch (e) { h(e) }]. *)
Definition exc_catch {E A : Type} (c : exc E A) (h : E -> A) : A :=
  match c with
  | Return a => a
  | Throw e => h e
  end.

Notation "x <- c ;; k" := (exc_bind c (fun x => k))
  (at level 60, c at next level, right associativity) : nw_scope.

Lemma exc_bind_Return {E A B} (a : A) (k : A -> exc E B) :
  exc_bind (Return a) k = k a.
Proof. reflexivity. Qed.

Lemma exc_bind_Throw {E A B} (e : E) (k : A -> exc E B) :
  exc_bind (Throw e) k = Throw e.
Proof. reflexivity. Qed.

(** A bind that returns came from a first step that returned. *)
Lemma exc_bind_Return_inv {E A B} (c : exc E A) (k : A -> exc E B) (v : B) :
  exc_bind c k = Return v -> exists a, c = Return a /\ k a = Return v.
Proof. destruct c as [a|e]; cbn; [eauto | discriminate]. Qed.

(** Peel every bind of a hypothesis [H : x <- c ;; ... = Return v]. *)
Ltac exc_inv H :=
  repeat (apply exc_bind_Return_inv in H; let a := fresh "a" in let Ha := fresh "Ha" in
          destruct H as (a & Ha & H)).

(** ** Lists *)

Lemma forallb_rev {A} (f : A -> bool) (l : list A) : forallb f (rev l) = forallb f l.
Proof.
  induction l as [|a l IH]; [reflexivity|].
  cbn [rev forallb]. rewrite forallb_app, IH. cbn. rewrite andb_true_r, andb_comm. reflexivity.
Qed.

(** ** Rational helpers *)

Local Open Scope Q_scope.

(** A natural number as a rational. *)
Definition qnat (n : nat) : Q := inject_Z (Z.of_nat n).

Lemma qnat_S n : qnat (S n) == qnat n + 1.
Proof. unfold qnat. rewrite Nat2Z.inj_succ. unfold Z.succ. rewrite inject_Z_plus. reflexivity. Qed.

Lemma qnat_nonneg n : 0 <= qnat n.
Proof. unfold qnat. change 0 with (inject_Z 0). rewrite <- Zle_Qle. lia. Qed.

(** [q ^ n] for a natural exponent. *)
Fixpoint qpow (q : Q) (n : nat) : Q :=
  match n with
  | O => 1
  | S n' => q * qpow q n'
  end.

#[export] Instance qpow_Proper : Proper (Qeq ==> eq ==> Qeq) qpow.
Proof.
  intros q q' Hq n ? <-. induction n as [|n IH]; cbn [qpow]; [reflexivity|].
  apply Qmult_comp; assumption.
Qed.

Ltac qsolve := first [lra | nra].

(** Record [0 <= Qabs a] for every [Qabs a] of the goal. *)
Ltac qabs_facts :=
  repeat match goal with
  | |- context [Qabs ?a] =>
      lazymatch goal with
      | _ : 0 <= Qabs a |- _ => fail
      | _ => pose proof (Qabs_nonneg a)
      end
  end.

(** Case split on the sign of every [Qabs a] of the goal and the
    hypotheses, replacing [Qabs a] by [a] or [- a]: what remains is
    linear for [lra] when the [a] are. *)
Ltac qabs_split a :=
  let H := fresh "Hs" in
  destruct (Qlt_le_dec a 0) as [H|H];
  [rewrite (Qabs_neg a) in * by lra | rewrite (Qabs_pos a) in * by lra].

Ltac qabs_elim :=
  repeat match goal with
  | |- context [Qabs ?a] => qabs_split a
  | _ : context [Qabs ?a] |- _ => qabs_split a
  end.

Lemma qpow_nonneg q n : 0 <= q -> 0 <= qpow q n.
Proof.
  intros Hq. induction n as [|n IH]; cbn [qpow]; [lra|].
  apply Qmult_le_0_compat; assumption.
Qed.

Lemma qpow_abs q n : Qabs (qpow q n) == qpow (Qabs q) n.
Proof.
  induction n as [|n IH]; cbn [qpow]; [reflexivity|].
  rewrite Qabs_Qmult, IH. reflexivity.
Qed.

Lemma qpow_le_one q n : 0 <= q -> q <= 1 -> qpow q n <= 1.
Proof.
  intros H0 H1. induction n as [|n IH]; cbn [qpow]; [lra|].
  pose proof (qpow_nonneg q n H0). nra.
Qed.

(** Decay: [(1 - d)^n (1 + n d) <= 1] for [0 <= d <= 1]. *)
Lemma qpow_decay d n :
  0 <= d -> d <= 1 -> qpow (1 - d) n * (1 + qnat n * d) <= 1.
Proof.
  intros H0 H1. induction n as [|n IH]; cbn [qpow].
  - change (qnat 0) with 0. lra.
  - rewrite qnat_S.
    pose proof (qpow_nonneg (1 - d) n ltac:(lra)) as Hp.
    pose proof (qnat_nonneg n) as Hn.
    (* the two sides differ by p d^2 (n + 1) *)
    set (p := qpow (1 - d) n) in *. set (m := qnat n) in *.
    assert (H2 : 0 <= p * d * d) by (repeat apply Qmult_le_0_compat; lra).
    assert (H3 : 0 <= p * d * d * m) by (apply Qmult_le_0_compat; lra).
    lra.
Qed.

(** Growth: [(1 + d)^n >= 1 + n d] for [d >= 0] (Bernoulli). *)
Lemma qpow_growth d n : 0 <= d -> 1 + qnat n * d <= qpow (1 + d) n.
Proof.
  intros H0. induction n as [|n IH]; cbn [qpow].
  - change (qnat 0) with 0. lra.
  - rewrite qnat_S. pose proof (qnat_nonneg n). nra.
Qed.

(** Every rational is exceeded by some natural multiple of a positive step. *)
Lemma qnat_archimedean a e : 0 < e -> exists N : nat, a < qnat N * e.
Proof.
  intros He. destruct (Qarchimedean (a / e)) as [p Hp].
  exists (Pos.to_nat p). unfold qnat. rewrite positive_nat_Z.
  apply (Qmult_lt_r _ _ e) in Hp; [|exact He].
  unfold Qdiv in Hp. rewrite <- Qmult_assoc, (Qmult_comm (/ e)), Qmult_inv_r in Hp by lra.
  rewrite Qmult_1_r in Hp. exact Hp.
Qed.

Create HintDb nw.
#[export] Hint Resolve qpow_nonneg qpow_le_one qnat_nonneg : nw.
