(* ===== verification/Types.v ===== *)
(** * Types: the data of [src/types.ts]

    [WaveConfig] is the mood configuration every component exchanges.  The
    record is parametric in the type of its number slots, its colour slot and
    its [frequency] slot, because the program holds the same shape three ways:
    typed with rationals ([WaveConfig]), with the untyped JSON values the
    Gemini service reads ([Gemini]), and with [frequency] as a reference to a
    heap object ([RenderLoop], [App]).  [freq_equiv] compares two
    frequency objects as rationals; it is an equivalence. *)

From Stdlib Require Import QArith String.
From S2P Require Import Prelude.

Local Open Scope Q_scope.

(** [frequency: { x: number; y: number }] *)
Record FrequencyT (N : Type) : Type := mkFrequency {
  x : N;
  y : N
}.
Arguments mkFrequency {N} x y.
Arguments x {N} _.
Arguments y {N} _.

(** [interface WaveConfig], lines 1-8. *)
Record WaveConfigT (N S F : Type) : Type := mkWaveConfig {
  speed : N;
  elevation : N;
  frequency : F;
  color : S;
  roughness : N;
  metalness : N
}.
Arguments mkWaveConfig {N S F} speed elevation frequency color roughness metalness.
Arguments speed {N S F} _.
Arguments elevation {N S F} _.
Arguments frequency {N S F} _.
Arguments color {N S F} _.
Arguments roughness {N S F} _.
Arguments metalness {N S F} _.

Definition Frequency : Type := FrequencyT Q.
Definition WaveConfig : Type := WaveConfigT Q string Frequency.

(** Replace the [frequency] slot, keeping every other field: the shape of a
    spread copy [{ ...c, frequency: f }] and of dereferencing a heap
    reference. *)
Definition with_frequency {N S F G : Type} (c : WaveConfigT N S F) (f : G)
  : WaveConfigT N S G :=
  mkWaveConfig (speed c) (elevation c) f (color c) (roughness c) (metalness c).

(** [interface ThoughtResponse], lines 10-13. *)
Record ThoughtResponseT (S V : Type) : Type := mkThoughtResponse {
  reply : S;
  visualization : V
}.
Arguments mkThoughtResponse {S V} reply visualization.
Arguments reply {S V} _.
Arguments visualization {S V} _.

Definition ThoughtResponse : Type := ThoughtResponseT string WaveConfig.

(** [interface ChatMessage], lines 15-18. *)
Inductive Role : Type := RoleUser | RoleAi.

Record ChatMessage : Type := mkChatMessage {
  role : Role;
  content : string
}.

(** [INITIAL_WAVE_CONFIG], lines 21-28. *)
Definition INITIAL_WAVE_CONFIG : WaveConfig :=
  mkWaveConfig (1 # 2) (6 # 10) (mkFrequency 2 (3 # 2)) "#4f46e5"%string
    (2 # 10) (8 # 10).

(** ** Equivalence of frequency objects *)

(** Two frequency objects hold the same numbers. *)
Definition freq_equiv (f g : Frequency) : Prop := x f == x g /\ y f == y g.

#[export] Instance freq_equiv_Equivalence : Equivalence freq_equiv.
Proof.
  unfold freq_equiv. split.
  - intros f; split; reflexivity.
  - intros f g [? ?]; split; symmetry; assumption.
  - intros f g h [? ?] [? ?]; split; etransitivity; eassumption.
Qed.
