(* ===== verification/Lerp.v ===== *)
(** * Lerp: the interpolation primitives the render loop calls

    [src/components/WaveScene.tsx] smooths its state with two three.js
    primitives, modelled here as three.js writes them:
    - [THREE.MathUtils.lerp(x, y, t)] is [(1 - t) * x + t * y]
      ([MathUtils.lerp]);
    - [Color.lerp(color, alpha)] updates each channel in place as
      [this.r += (color.r - this.r) * alpha] ([ThreeColor.color_lerp]);
    - [new THREE.Color(style)] is an interface, [ThreeColor.ColorStyle], with
      the instance [hex_style] for the [#rgb] and [#rrggbb] styles the
      program uses (three.js's [Color.setStyle] without colour management;
      other styles leave the default white, which for named and [rgb()]
      styles is not what three.js does: those are outside this model).
    The two forms agree ([lerp_alt]).  One step scales the gap to the
    target by [1 - t] ([lerp_gap]): the gap never grows for
    [0 <= t <= 2], the value stays between the endpoints for
    [0 <= t <= 1] and jumps past the target for [t > 1]; a gap scaled by
    [|1 - t|] at every step tends to 0 for [0 < t < 2] and grows without
    bound for [t > 2] ([geometric_converges], [geometric_diverges]).
    These are library lemmas; the claims about the program are stated on
    the frame step in [RenderLoop]. *)

From Stdlib Require Import ZArith Lia QArith Qabs Qminmax Lqa Ascii String List.
From S2P Require Import Prelude.

Local Open Scope Q_scope.

Module MathUtils.

(** [lerp( x, y, t ) { return ( 1 - t ) * x + t * y; }] *)
Definition lerp (x y t : Q) : Q := (1 - t) * x + t * y.

#[export] Instance lerp_Proper : Proper (Qeq ==> Qeq ==> Qeq ==> Qeq) lerp.
Proof. intros a a' Ha b b' Hb t t' Ht. unfold lerp. rewrite Ha, Hb, Ht. reflexivity. Qed.

Lemma lerp_alt x y t : lerp x y t == x + (y - x) * t.
Proof. unfold lerp. ring. Qed.

(** The gap to the target is scaled by [1 - t]. *)
Lemma lerp_gap x y t : lerp x y t - y == (1 - t) * (x - y).
Proof. unfold lerp. ring. Qed.

Lemma lerp_same x t : lerp x x t == x.
Proof. unfold lerp. ring. Qed.

(** A step changes nothing exactly when the value is already the target
    or the factor is zero. *)
Lemma lerp_fixed_iff x y t : lerp x y t == x <-> x == y \/ t == 0.
Proof.
  rewrite lerp_alt. split.
  - intros H. assert (Hm : (y - x) * t == 0) by lra.
    apply Qmult_integral in Hm as [Hm | Hm]; [left; lra | right; exact Hm].
  - intros [H | H]; rewrite H; ring.
Qed.

Lemma lerp_between x y t :
  0 <= t -> t <= 1 -> Qmin x y <= lerp x y t /\ lerp x y t <= Qmax x y.
Proof.
  intros H0 H1. rewrite lerp_alt.
  apply Q.min_case_strong; apply Q.max_case_strong; intros; split; nra.
Qed.

(** Past [t = 1] the step jumps over the target. *)
Lemma lerp_overshoot x y t : 1 < t -> x < y -> y < lerp x y t.
Proof. intros Ht Hxy. rewrite lerp_alt. nra. Qed.

Lemma lerp_gap_abs x y t : Qabs (lerp x y t - y) == Qabs (1 - t) * Qabs (x - y).
Proof. rewrite lerp_gap. apply Qabs_Qmult. Qed.

Lemma abs_one_minus_le_one t : 0 <= t -> t <= 2 -> Qabs (1 - t) <= 1.
Proof. intros. apply Qabs_case; intros; lra. Qed.

Lemma lerp_gap_nonincreasing x y t :
  0 <= t -> t <= 2 -> Qabs (lerp x y t - y) <= Qabs (x - y).
Proof.
  intros H0 H2. rewrite lerp_gap_abs.
  pose proof (abs_one_minus_le_one t H0 H2). pose proof (Qabs_nonneg (x - y)). nra.
Qed.

(** Geometric gaps: with [0 < t < 2], [qpow (|1 - t|) n * e] becomes
    smaller than any [eps > 0]; with [t > 2] it exceeds any bound. *)
Lemma geometric_converges t e :
  0 < t -> t < 2 -> 0 <= e ->
  forall eps, 0 < eps -> exists N : nat, forall n, (N <= n)%nat ->
    qpow (Qabs (1 - t)) n * e < eps.
Proof.
  intros H0 H2 He eps Heps.
  set (d := 1 - Qabs (1 - t)).
  assert (Hd : 0 < d) by (unfold d; apply Qabs_case; intros; lra).
  destruct (qnat_archimedean e (d * eps)) as [N HN]; [nra|].
  exists N. intros n Hn.
  pose proof (abs_one_minus_le_one t ltac:(lra) ltac:(lra)) as Hq.
  pose proof (Qabs_nonneg (1 - t)) as Hq0.
  assert (Hd1 : d <= 1) by (unfold d; lra).
  pose proof (qpow_decay d n ltac:(lra) Hd1) as Hdec.
  setoid_replace (1 - d) with (Qabs (1 - t)) in Hdec by (unfold d; ring).
  pose proof (qpow_nonneg (Qabs (1 - t)) n Hq0) as Hp.
  set (p := qpow (Qabs (1 - t)) n) in *.
  assert (HNn : qnat N <= qnat n) by (unfold qnat; rewrite <- Zle_Qle; lia).
  pose proof (qnat_nonneg n).
  assert (Hr : p * e * (1 + qnat n * d) <= e).
  { setoid_replace (p * e * (1 + qnat n * d)) with (p * (1 + qnat n * d) * e) by ring.
    setoid_replace e with (1 * e) at 2 by ring.
    apply Qmult_le_compat_r; assumption. }
  destruct (Qlt_le_dec (p * e) eps) as [Hlt | Hge]; [exact Hlt | exfalso].
  assert (Hc1 : eps * (1 + qnat n * d) <= p * e * (1 + qnat n * d))
    by (apply Qmult_le_compat_r; [exact Hge | nra]).
  assert (Hc2 : qnat N * (d * eps) <= qnat n * (d * eps))
    by (apply Qmult_le_compat_r; [exact HNn | nra]).
  lra.
Qed.

Lemma geometric_diverges t e :
  2 < t -> 0 < e -> forall B, exists n : nat, B < qpow (Qabs (1 - t)) n * e.
Proof.
  intros Ht He B.
  destruct (qnat_archimedean B ((t - 2) * e)) as [n Hn]; [nra|].
  exists n.
  setoid_replace (Qabs (1 - t)) with (1 + (t - 2)) by (apply Qabs_case; intros; lra).
  pose proof (qpow_growth (t - 2) n ltac:(lra)). pose proof (qnat_nonneg n). nra.
Qed.

End MathUtils.

Module ThreeColor.

(** [THREE.Color]: three channels.  [new THREE.Color()] is white. *)
Record Color : Type := mkColor { r : Q; g : Q; b : Q }.

Definition white : Color := mkColor 1 1 1.

(** [lerp( color, alpha ) { this.r += ( color.r - this.r ) * alpha; ... }] *)
Definition color_lerp (c target : Color) (alpha : Q) : Color :=
  mkColor (r c + (r target - r c) * alpha)
          (g c + (g target - g c) * alpha)
          (b c + (b target - b c) * alpha).

Definition color_equiv (c d : Color) : Prop := r c == r d /\ g c == g d /\ b c == b d.

#[export] Instance color_equiv_Equivalence : Equivalence color_equiv.
Proof.
  unfold color_equiv. split; red; intros;
    repeat match goal with H : _ /\ _ |- _ => destruct H end;
    repeat split; first [reflexivity | symmetry; assumption | etransitivity; eassumption].
Qed.

(** Each channel of [Color.lerp] is [MathUtils.lerp] of that channel. *)
Lemma color_lerp_channels c d a :
  r (color_lerp c d a) == MathUtils.lerp (r c) (r d) a /\
  g (color_lerp c d a) == MathUtils.lerp (g c) (g d) a /\
  b (color_lerp c d a) == MathUtils.lerp (b c) (b d) a.
Proof. cbn. rewrite !MathUtils.lerp_alt. repeat split; reflexivity. Qed.

#[export] Instance color_lerp_Proper :
  Proper (color_equiv ==> color_equiv ==> Qeq ==> color_equiv) color_lerp.
Proof.
  intros c c' (Hr & Hg & Hb) d d' (Hr' & Hg' & Hb') a a' Ha. unfold color_equiv; cbn.
  rewrite Hr, Hg, Hb, Hr', Hg', Hb', Ha. repeat split; reflexivity.
Qed.

(** [new THREE.Color(style)]. *)
Class ColorStyle : Type := color_of_style : string -> Color.

Definition hex_digit (c : ascii) : option Z :=
  let n := Z.of_nat (nat_of_ascii c) in
  if (48 <=? n)%Z && (n <=? 57)%Z then Some (n - 48)%Z
  else if (65 <=? n)%Z && (n <=? 70)%Z then Some (n - 55)%Z
  else if (97 <=? n)%Z && (n <=? 102)%Z then Some (n - 87)%Z
  else None.

Fixpoint hex_digits (s : string) : option (list Z) :=
  match s with
  | EmptyString => Some nil
  | String c rest =>
      match hex_digit c, hex_digits rest with
      | Some d, Some ds => Some (d :: ds)
      | _, _ => None
      end
  end.

(** The [/^\#([A-Fa-f\d]+)$/] branch of [Color.setStyle]: three digits
    scale by 15, six digits are [setHex] (each byte over 255); any other
    length is refused. *)
Definition parse_hex_style (s : string) : option Color :=
  match s with
  | String "#"%char rest =>
      match hex_digits rest with
      | Some (a :: b :: c :: nil) =>
          Some (mkColor (inject_Z a / 15) (inject_Z b / 15) (inject_Z c / 15))
      | Some (a1 :: a2 :: b1 :: b2 :: c1 :: c2 :: nil) =>
          Some (mkColor (inject_Z (16 * a1 + a2) / 255) (inject_Z (16 * b1 + b2) / 255)
                        (inject_Z (16 * c1 + c2) / 255))
      | _ => None
      end
  | _ => None
  end.

#[export] Instance hex_style : ColorStyle :=
  fun s => match parse_hex_style s with Some c => c | None => white end.

End ThreeColor.

#[export] Hint Resolve MathUtils.abs_one_minus_le_one : nw.
