(* ===== verification/RenderLoop.v ===== *)
(** * RenderLoop: the [WaveMesh] component of [src/components/WaveScene.tsx]

    State.  JavaScript objects that the code mutates are kept in a heap:
    only [frequency] objects are ever mutated ([currentConfig.current
    .frequency.x = ...]), so the heap maps locations to [Frequency] values
    ([Heap]), and a configuration object is a [WaveConfigRef]: its scalar
    fields by value, its [frequency] by location.  The mesh ([Mesh]) holds
    the material's uniforms ([None] while [materialRef.current] is null)
    and [currentConfig], the ref created by [useRef({ ...config })]; the
    spread copy shares the [frequency] location with the configuration it
    copies.

    Operations.  [lerpFactor] (line 167), [frame] (the [useFrame] callback,
    lines 161-188), [run_frames] (successive frames against one target),
    [mount] and [attach_material] (lines 155-159 and the material's
    [useMemo], lines 128-136).

    Theorems.  The exact update of every field and uniform, the smoothing
    factor's range, the closed form of repeated frames, convergence and
    its rate, overshoot and divergence for large [delta], the heap footprint
    of a frame (it writes only the [frequency] object [currentConfig]
    points to), and a refinement: the concrete frame implements the
    specification's per-frame update of an abstract [LiveConfig]. *)

From Stdlib Require Import ZArith Lia QArith Qabs Qminmax Lqa String.
From stdpp Require Import gmap.
From S2P Require Import Prelude Types Lerp.

Local Open Scope Q_scope.

Import MathUtils ThreeColor.

Module WaveMesh.

(** Locations of heap objects. *)
Definition loc : Type := positive.

(** The [frequency] objects of the JavaScript heap. *)
Abbreviation Heap := (gmap positive Frequency).

(** A configuration object: [frequency] by reference. *)
Definition WaveConfigRef : Type := WaveConfigT Q string loc.

(** Reading [obj.frequency]; every reference the program creates points
    to an allocated object, [mkFrequency 0 0] is never observed. *)
Definition read_freq (h : Heap) (l : loc) : Frequency :=
  match h !! l with Some f => f | None => mkFrequency 0 0 end.

(** The configuration a reference denotes in a heap. *)
Definition deref (h : Heap) (c : WaveConfigRef) : WaveConfig :=
  with_frequency c (read_freq h (frequency c)).

(** The material's uniforms (lines 128-136). *)
Record Uniforms : Type := mkUniforms {
  uTime : Q;
  uSpeed : Q;
  uElevation : Q;
  uFrequency : Q * Q;
  uColor : Color;
  uMetalness : Q;
  uRoughness : Q
}.

Definition initial_uniforms : Uniforms :=
  mkUniforms 0 0 0 (0, 0) white (1 # 2) (1 # 2).

(** [materialRef.current] ([None] while null) and [currentConfig.current]. *)
Record Mesh : Type := mkMesh {
  material : option Uniforms;
  currentConfig : WaveConfigRef
}.

(** First render: [useRef<WaveConfig>({ ...config })] (line 159); the
    material is not attached yet. *)
Definition mount (config : WaveConfigRef) : Mesh := mkMesh None config.

(** Commit: [ref={materialRef}] with the [useMemo] uniforms. *)
Definition attach_material (m : Mesh) : Mesh :=
  mkMesh (Some initial_uniforms) (currentConfig m).

(** [const lerpFactor = 2.0 * delta;] (line 167): not clamped. *)
Definition lerpFactor (delta : Q) : Q := 2 * delta.

Section Frame.
Context `{CS : ColorStyle}.

(** The [useFrame] callback (lines 161-188), statement by statement. *)
Definition frame (elapsed delta : Q) (config : WaveConfigRef) (m : Mesh) (h : Heap)
  : Mesh * Heap :=
  match material m with
  | None => (m, h)
  | Some u =>
      let k := lerpFactor delta in
      let cur := currentConfig m in
      let speed' := lerp (speed cur) (speed config) k in
      let elevation' := lerp (elevation cur) (elevation config) k in
      let roughness' := lerp (roughness cur) (roughness config) k in
      let l := frequency cur in
      (* line 172: frequency.x of the object [cur] points to *)
      let f0 := read_freq h l in
      let h1 := <[l := mkFrequency (lerp (x f0) (x (read_freq h (frequency config))) k)
                                   (y f0)]> h in
      (* line 173: frequency.y, read after the write of line 172 *)
      let f1 := read_freq h1 l in
      let h2 := <[l := mkFrequency (x f1)
                                   (lerp (y f1) (y (read_freq h1 (frequency config))) k)]> h1 in
      (* lines 176-178 *)
      let currentColor := color_lerp (uColor u) (color_of_style (color config)) k in
      (* lines 181-186 *)
      let f2 := read_freq h2 l in
      let u' := mkUniforms elapsed speed' elevation' (x f2, y f2) currentColor
                           (metalness config) roughness' in
      let cur' := mkWaveConfig speed' elevation' l (color cur) roughness' (metalness cur) in
      (mkMesh (Some u') cur', h2)
  end.

(** Frames against one target configuration, each tick an
    [(elapsedTime, delta)] pair. *)
Fixpoint run_frames (ticks : list (Q * Q)) (config : WaveConfigRef) (m : Mesh) (h : Heap)
  : Mesh * Heap :=
  match ticks with
  | nil => (m, h)
  | (t, d) :: rest =>
      let '(m', h') := frame t d config m h in run_frames rest config m' h'
  end.

End Frame.

(** ** Heap lemmas *)

Lemma read_freq_insert_eq h l f : read_freq (<[l := f]> h) l = f.
Proof. unfold read_freq. by rewrite lookup_insert_eq. Qed.

Lemma read_freq_insert_ne h l l' f : l <> l' -> read_freq (<[l := f]> h) l' = read_freq h l'.
Proof. intros Hne. unfold read_freq. by rewrite lookup_insert_ne. Qed.

Lemma read_freq_insert h l l' f :
  read_freq (<[l := f]> h) l' = if decide (l = l') then f else read_freq h l'.
Proof.
  case_decide; subst; [apply read_freq_insert_eq | by apply read_freq_insert_ne].
Qed.


Lemma insert_insert_same (h : Heap) l a b : <[l := a]> (<[l := b]> h) = <[l := a]> h.
Proof. apply insert_insert_eq. Qed.

(** ** The frame, field by field *)

Section FrameLemmas.
Context `{CS : ColorStyle}.
Variables (elapsed delta : Q) (config : WaveConfigRef) (m : Mesh) (h : Heap) (u : Uniforms).
Hypothesis Hmat : material m = Some u.

Let k := lerpFactor delta.
Let cur := currentConfig m.
Let l := frequency cur.
Let g := read_freq h (frequency config).

(** The heap after a frame: one write, at the object [currentConfig]
    points to, of both smoothed coordinates. *)
Lemma frame_heap :
  snd (frame elapsed delta config m h) =
  <[l := mkFrequency (lerp (x (read_freq h l)) (x g) k) (lerp (y (read_freq h l)) (y g) k)]> h.
Proof.
  unfold frame. rewrite Hmat. cbn -[lerp].
  rewrite read_freq_insert_eq. cbn [x y]. rewrite insert_insert_same.
  f_equal. f_equal. f_equal. unfold g, l, cur.
  rewrite read_freq_insert. case_decide as E; [rewrite <- E|]; reflexivity.
Qed.

Lemma frame_currentConfig :
  currentConfig (fst (frame elapsed delta config m h)) =
  mkWaveConfig (lerp (speed cur) (speed config) k) (lerp (elevation cur) (elevation config) k)
    l (color cur) (lerp (roughness cur) (roughness config) k) (metalness cur).
Proof. unfold frame. rewrite Hmat. reflexivity. Qed.

Lemma frame_material :
  material (fst (frame elapsed delta config m h)) =
  Some (mkUniforms elapsed (lerp (speed cur) (speed config) k)
          (lerp (elevation cur) (elevation config) k)
          (x (read_freq (snd (frame elapsed delta config m h)) l),
           y (read_freq (snd (frame elapsed delta config m h)) l))
          (color_lerp (uColor u) (color_of_style (color config)) k)
          (metalness config) (lerp (roughness cur) (roughness config) k)).
Proof. unfold frame. rewrite Hmat. reflexivity. Qed.

End FrameLemmas.

Lemma frame_unmounted `{ColorStyle} t d c m h : material m = None -> frame t d c m h = (m, h).
Proof. intros Hm. unfold frame. rewrite Hm. reflexivity. Qed.

Lemma frame_keeps_material `{ColorStyle} t d c m h u :
  material m = Some u -> exists u', material (fst (frame t d c m h)) = Some u'.
Proof. intros Hm. eexists. apply (frame_material t d c m h u Hm). Qed.


(** ** Specification: the design's [LiveConfig]

    The design describes the render loop's private state as a
    [LiveConfig] of the configuration's shape, each smoothed field
    updated by [f <- f + (target_f - f) * k], [metalness] copied.  In the
    code the live state is spread over [currentConfig] (speed, elevation,
    roughness, the [frequency] object in the heap) and the uniforms
    (colour, metalness): [live_of] collects it. *)

Definition LiveConfig : Type := WaveConfigT Q Color Frequency.

Definition approach (f target k : Q) : Q := f + (target - f) * k.

Definition live_step (k : Q) (target live : LiveConfig) : LiveConfig :=
  mkWaveConfig (approach (speed live) (speed target) k)
               (approach (elevation live) (elevation target) k)
               (mkFrequency (approach (x (frequency live)) (x (frequency target)) k)
                            (approach (y (frequency live)) (y (frequency target)) k))
               (color_lerp (color live) (color target) k)
               (approach (roughness live) (roughness target) k)
               (metalness target).

Definition live_equiv (a b : LiveConfig) : Prop :=
  speed a == speed b /\ elevation a == elevation b /\
  freq_equiv (frequency a) (frequency b) /\ color_equiv (color a) (color b) /\
  roughness a == roughness b /\ metalness a == metalness b.

Definition live_of (u : Uniforms) (cur : WaveConfigRef) (h : Heap) : LiveConfig :=
  mkWaveConfig (speed cur) (elevation cur) (read_freq h (frequency cur)) (uColor u)
               (roughness cur) (uMetalness u).

Definition target_of `{ColorStyle} (h : Heap) (config : WaveConfigRef) : LiveConfig :=
  mkWaveConfig (speed config) (elevation config) (read_freq h (frequency config))
               (color_of_style (color config)) (roughness config) (metalness config).

(** Concrete states for the witnesses: [INITIAL_WAVE_CONFIG] with its
    [frequency] object at location 1, a mesh mounted on it, and a
    stormy target whose [frequency] object is at location 2. *)
Definition initial_ref : WaveConfigRef := with_frequency INITIAL_WAVE_CONFIG 1%positive.
Definition storm_ref : WaveConfigRef :=
  mkWaveConfig 4 3 2%positive "#ff0000"%string 1 0.
Definition demo_heap : Heap :=
  <[2%positive := mkFrequency 10 10]> {[1%positive := mkFrequency 2 (3 # 2)]}.
Definition demo_mesh : Mesh := attach_material (mount initial_ref).

(** C1: refinement.  Every frame of the mounted mesh implements one step
    of the specification: the live state after the frame is the
    specification's [live_step] with [k = 2 * delta] applied to the live
    state before it, toward the target the App holds. *)
Theorem frame_refines_live `{ColorStyle} (elapsed delta : Q) (config : WaveConfigRef)
    (m : Mesh) (h : Heap) (u : Uniforms) :
  material m = Some u ->
  exists u', material (fst (frame elapsed delta config m h)) = Some u' /\
    live_equiv (live_of u' (currentConfig (fst (frame elapsed delta config m h)))
                          (snd (frame elapsed delta config m h)))
               (live_step (lerpFactor delta) (target_of h config) (live_of u (currentConfig m) h)).
Proof.
  intros Hm. eexists. split; [apply (frame_material _ _ _ _ _ _ Hm)|].
  rewrite (frame_currentConfig _ _ _ _ _ _ Hm), (frame_heap _ _ _ _ _ _ Hm).
  unfold live_of, live_step, target_of, live_equiv, approach, freq_equiv.
  cbn [speed elevation frequency color roughness metalness uColor uMetalness].
  rewrite read_freq_insert_eq. cbn [x y]. rewrite !lerp_alt.
  repeat split; reflexivity.
Qed.

Lemma frame_refines_live_witness :
  exists u', material (fst (@frame hex_style 1 (1 # 60) storm_ref demo_mesh demo_heap)) = Some u' /\
    live_equiv (live_of u' (currentConfig (fst (@frame hex_style 1 (1 # 60) storm_ref demo_mesh demo_heap)))
                          (snd (@frame hex_style 1 (1 # 60) storm_ref demo_mesh demo_heap)))
               (live_step (lerpFactor (1 # 60)) (@target_of hex_style demo_heap storm_ref)
                          (live_of initial_uniforms (currentConfig demo_mesh) demo_heap)).
Proof. apply (frame_refines_live 1 (1 # 60) storm_ref demo_mesh demo_heap initial_uniforms). reflexivity. Defined.

(** C7: the smoothing factor is [2 * delta], never clamped: it stays in
    [[0, 1]] exactly for [delta <= 1/2], and exceeds 1 beyond. *)
Theorem lerpFactor_unclamped (delta : Q) :
  0 <= delta -> 0 <= lerpFactor delta /\ (lerpFactor delta <= 1 <-> delta <= 1 # 2).
Proof. intros H. unfold lerpFactor. split; [lra | split; intros; lra]. Qed.

Lemma lerpFactor_unclamped_witness :
  0 <= 5 /\ 0 <= lerpFactor 5 /\ (lerpFactor 5 <= 1 <-> 5 <= 1 # 2).
Proof. split; [discriminate | apply lerpFactor_unclamped; discriminate]. Defined.




(** ** Distance of the live state to the target *)

Definition color_gap (c d : Color) : Q :=
  Qabs (r c - r d) + Qabs (g c - g d) + Qabs (b c - b d).

(** The sum, over every smoothed field (speed, elevation, roughness, both
    frequency coordinates, the three colour channels), of the distance
    between the live value and the target's. *)
Definition gap_norm `{ColorStyle} (config : WaveConfigRef) (m : Mesh) (h : Heap) : Q :=
  let cur := currentConfig m in
  let f := read_freq h (frequency cur) in
  let t := read_freq h (frequency config) in
  Qabs (speed cur - speed config) + Qabs (elevation cur - elevation config) +
  Qabs (roughness cur - roughness config) + Qabs (x f - x t) + Qabs (y f - y t) +
  match material m with
  | Some u => color_gap (uColor u) (color_of_style (color config))
  | None => 0
  end.

Lemma gap_norm_nonneg `{ColorStyle} config m h : 0 <= gap_norm config m h.
Proof.
  unfold gap_norm, color_gap. destruct (material m); qabs_facts; lra.
Qed.

#[export] Hint Resolve gap_norm_nonneg : nw.

Lemma abs_lerp_gap a c k : Qabs (lerp a c k - c) == Qabs (1 - k) * Qabs (a - c).
Proof. apply lerp_gap_abs. Qed.

Lemma abs_approach_gap a c k : Qabs (a + (c - a) * k - c) == Qabs (1 - k) * Qabs (a - c).
Proof. rewrite <- Qabs_Qmult. apply Qabs_wd. ring. Qed.

(** After a frame, the gap between the live [frequency] object and the
    target's scales by [1 - k], whether or not they are one object. *)
Lemma frame_freq_gap `{ColorStyle} elapsed delta config m h u :
  material m = Some u ->
  let h' := snd (frame elapsed delta config m h) in
  let l := frequency (currentConfig m) in
  let k := lerpFactor delta in
  x (read_freq h' l) - x (read_freq h' (frequency config)) ==
    (1 - k) * (x (read_freq h l) - x (read_freq h (frequency config))) /\
  y (read_freq h' l) - y (read_freq h' (frequency config)) ==
    (1 - k) * (y (read_freq h l) - y (read_freq h (frequency config))).
Proof.
  intros Hm. cbv zeta. rewrite (frame_heap _ _ _ _ _ _ Hm), read_freq_insert_eq.
  rewrite read_freq_insert. cbn [x y].
  case_decide as E; cbn [x y].
  - rewrite <- E. split; ring.
  - rewrite !lerp_gap. split; reflexivity.
Qed.

(** Every frame scales the whole distance by [|1 - 2 delta|]. *)
Lemma frame_gap_norm `{ColorStyle} elapsed delta config m h u :
  material m = Some u ->
  gap_norm config (fst (frame elapsed delta config m h)) (snd (frame elapsed delta config m h))
    == Qabs (1 - lerpFactor delta) * gap_norm config m h.
Proof.
  intros Hm. pose proof (frame_freq_gap elapsed delta config m h u Hm) as [Hx Hy].
  cbv zeta in Hx, Hy.
  unfold gap_norm. rewrite (frame_material _ _ _ _ _ _ Hm), Hm.
  rewrite (frame_currentConfig _ _ _ _ _ _ Hm).
  cbn [speed elevation roughness frequency uColor].
  rewrite Hx, Hy, !abs_lerp_gap, !Qabs_Qmult.
  unfold color_gap, color_lerp. cbn [r g b]. rewrite !abs_approach_gap. ring.
Qed.


(** ** Runs of frames *)

(** Ticks at a constant frame time [delta]. *)
Definition const_ticks (delta : Q) (ts : list Q) : list (Q * Q) := map (fun t => (t, delta)) ts.

Lemma run_frames_cons `{ColorStyle} t d rest c m h :
  run_frames ((t, d) :: rest) c m h =
  run_frames rest c (fst (frame t d c m h)) (snd (frame t d c m h)).
Proof. cbn. destruct (frame t d c m h); reflexivity. Qed.

Lemma run_frames_app `{ColorStyle} a b c m h :
  run_frames (a ++ b) c m h =
  run_frames b c (fst (run_frames a c m h)) (snd (run_frames a c m h)).
Proof.
  revert m h. induction a as [|[t d] a IH]; intros m h; [reflexivity|].
  cbn [app]. rewrite !run_frames_cons. apply IH.
Qed.

Lemma run_frames_material `{ColorStyle} ticks c m h u :
  material m = Some u -> exists u', material (fst (run_frames ticks c m h)) = Some u'.
Proof.
  revert m h u. induction ticks as [|[t d] rest IH]; intros m h u Hm; [eauto|].
  rewrite run_frames_cons. destruct (frame_keeps_material t d c m h u Hm) as [u' Hu']. eauto.
Qed.

(** A quantity that every mounted frame scales by the same factor is
    scaled by its [n]-th power over [n] frames. *)
Lemma run_frames_scale `{ColorStyle} (G : Mesh -> Heap -> Q) (q : Q) delta config :
  (forall t m h u, material m = Some u ->
     G (fst (frame t delta config m h)) (snd (frame t delta config m h)) == q * G m h) ->
  forall ts m h u, material m = Some u ->
    G (fst (run_frames (const_ticks delta ts) config m h))
      (snd (run_frames (const_ticks delta ts) config m h)) == qpow q (length ts) * G m h.
Proof.
  intros HG ts. induction ts as [|t ts IH]; intros m h u Hm.
  - cbn. ring.
  - unfold const_ticks. cbn [map length qpow]. fold (const_ticks delta ts).
    rewrite run_frames_cons.
    destruct (frame_keeps_material t delta config m h u Hm) as [u' Hu'].
    rewrite (IH _ _ _ Hu'), (HG _ _ _ _ Hm). ring.
Qed.

(** C23: the closed form.  After [n] frames at frame time [delta] toward a
    fixed target, the distance of the live state to the target is
    [|1 - 2 delta|^n] times the initial distance. *)
Theorem run_frames_gap_closed `{ColorStyle} (delta : Q) (ts : list Q) (config : WaveConfigRef)
    (m : Mesh) (h : Heap) (u : Uniforms) :
  material m = Some u ->
  gap_norm config (fst (run_frames (const_ticks delta ts) config m h))
                  (snd (run_frames (const_ticks delta ts) config m h))
    == qpow (Qabs (1 - lerpFactor delta)) (length ts) * gap_norm config m h.
Proof.
  apply (run_frames_scale (gap_norm config)).
  intros t m' h' u' Hm'. apply (frame_gap_norm t delta config m' h' u' Hm').
Qed.

Definition three_ticks : list Q := (1 # 60) :: (2 # 60) :: (3 # 60) :: nil.

Lemma run_frames_gap_closed_witness :
  material demo_mesh = Some initial_uniforms /\
  @gap_norm hex_style storm_ref (fst (@run_frames hex_style (const_ticks (1 # 60) three_ticks) storm_ref demo_mesh demo_heap))
                  (snd (@run_frames hex_style (const_ticks (1 # 60) three_ticks) storm_ref demo_mesh demo_heap))
    == qpow (Qabs (1 - lerpFactor (1 # 60))) (length three_ticks) * @gap_norm hex_style storm_ref demo_mesh demo_heap.
Proof. split; [reflexivity|]. apply (run_frames_gap_closed _ _ _ _ _ initial_uniforms). reflexivity. Defined.

(** C6: convergence.  For a frame time [0 < delta < 1] held constant and a
    fixed target, the live state comes within any [eps > 0] of the target
    in every smoothed field, and stays there. *)
Theorem run_frames_converges `{ColorStyle} (delta : Q) (config : WaveConfigRef)
    (m : Mesh) (h : Heap) (u : Uniforms) :
  0 < delta -> delta < 1 -> material m = Some u ->
  forall eps, 0 < eps -> exists N : nat, forall ts : list Q, (N <= length ts)%nat ->
    gap_norm config (fst (run_frames (const_ticks delta ts) config m h))
                    (snd (run_frames (const_ticks delta ts) config m h)) < eps.
Proof.
  intros H0 H1 Hm eps Heps.
  destruct (geometric_converges (lerpFactor delta) (gap_norm config m h))
    with (eps := eps) as [N HN]; unfold lerpFactor in *; try lra; [auto with nw|].
  exists N. intros ts Hts. rewrite (run_frames_gap_closed _ _ _ _ _ _ Hm). auto.
Qed.

Lemma run_frames_converges_witness :
  0 < 1 # 60 /\ 1 # 60 < 1 /\ material demo_mesh = Some initial_uniforms /\
  exists N : nat, forall ts : list Q, (N <= length ts)%nat ->
    @gap_norm hex_style storm_ref (fst (@run_frames hex_style (const_ticks (1 # 60) ts) storm_ref demo_mesh demo_heap))
                    (snd (@run_frames hex_style (const_ticks (1 # 60) ts) storm_ref demo_mesh demo_heap)) < 1 # 100.
Proof.
  split; [reflexivity|]. split; [reflexivity|]. split; [reflexivity|].
  apply (run_frames_converges _ _ _ _ initial_uniforms); reflexivity.
Defined.

(** C24: for [0 <= delta <= 1] no frame increases the distance to the
    target. *)
Theorem frame_gap_nonincreasing `{ColorStyle} (elapsed delta : Q) (config : WaveConfigRef)
    (m : Mesh) (h : Heap) :
  0 <= delta -> delta <= 1 ->
  gap_norm config (fst (frame elapsed delta config m h)) (snd (frame elapsed delta config m h))
    <= gap_norm config m h.
Proof.
  intros H0 H1. destruct (material m) as [u|] eqn:Hm.
  - rewrite (frame_gap_norm _ _ _ _ _ _ Hm).
    pose proof (abs_one_minus_le_one (lerpFactor delta)) as Ha. unfold lerpFactor in *.
    pose proof (gap_norm_nonneg config m h). pose proof (Qabs_nonneg (1 - 2 * delta)).
    specialize (Ha ltac:(lra) ltac:(lra)). nra.
  - rewrite (frame_unmounted _ _ _ _ _ Hm). apply Qle_refl.
Qed.

Lemma frame_gap_nonincreasing_witness :
  0 <= 1 # 60 /\ 1 # 60 <= 1 /\
  @gap_norm hex_style storm_ref (fst (@frame hex_style 1 (1 # 60) storm_ref demo_mesh demo_heap))
                 (snd (@frame hex_style 1 (1 # 60) storm_ref demo_mesh demo_heap))
    <= @gap_norm hex_style storm_ref demo_mesh demo_heap.
Proof. split; [discriminate|]. split; [discriminate|]. apply frame_gap_nonincreasing; discriminate. Defined.


(** C8: a frame-time spike overshoots.  With [delta > 1/2] (for instance
    a tab resumed after five seconds) a field below its target jumps past
    it: the value leaves the range between its previous value and the
    target, which the design promised it never would. *)
Theorem frame_spike_overshoots `{ColorStyle} (elapsed delta : Q) (config : WaveConfigRef)
    (m : Mesh) (h : Heap) (u : Uniforms) :
  material m = Some u -> 1 # 2 < delta -> speed (currentConfig m) < speed config ->
  speed config < speed (currentConfig (fst (frame elapsed delta config m h))).
Proof.
  intros Hm Hd Hs. rewrite (frame_currentConfig _ _ _ _ _ _ Hm). cbn [speed].
  apply lerp_overshoot; [unfold lerpFactor; lra | exact Hs].
Qed.

Lemma frame_spike_overshoots_witness :
  material demo_mesh = Some initial_uniforms /\ 1 # 2 < 5 /\
  speed (currentConfig demo_mesh) < speed storm_ref /\
  speed storm_ref < speed (currentConfig (fst (@frame hex_style 5 5 storm_ref demo_mesh demo_heap))).
Proof.
  split; [reflexivity|]. split; [reflexivity|]. split; [reflexivity|].
  apply (frame_spike_overshoots 5 5 storm_ref demo_mesh demo_heap initial_uniforms); reflexivity.
Defined.

(** C26: with [delta > 1] (factor above 2) repeated frames move the live
    state away from the target without bound. *)
Theorem run_frames_diverges `{ColorStyle} (delta : Q) (config : WaveConfigRef)
    (m : Mesh) (h : Heap) (u : Uniforms) :
  1 < delta -> material m = Some u -> 0 < gap_norm config m h ->
  forall B, exists n : nat, forall ts : list Q, length ts = n ->
    B < gap_norm config (fst (run_frames (const_ticks delta ts) config m h))
                        (snd (run_frames (const_ticks delta ts) config m h)).
Proof.
  intros Hd Hm Hg B.
  destruct (geometric_diverges (lerpFactor delta) (gap_norm config m h)) with (B := B)
    as [n Hn]; [unfold lerpFactor; lra | exact Hg |].
  exists n. intros ts <-. rewrite (run_frames_gap_closed _ _ _ _ _ _ Hm). exact Hn.
Qed.

Lemma run_frames_diverges_witness :
  1 < 2 /\ material demo_mesh = Some initial_uniforms /\
  0 < @gap_norm hex_style storm_ref demo_mesh demo_heap /\
  exists n : nat, forall ts : list Q, length ts = n ->
    1000 < @gap_norm hex_style storm_ref (fst (@run_frames hex_style (const_ticks 2 ts) storm_ref demo_mesh demo_heap))
                        (snd (@run_frames hex_style (const_ticks 2 ts) storm_ref demo_mesh demo_heap)).
Proof.
  split; [reflexivity|]. split; [reflexivity|]. split; [vm_compute; reflexivity|].
  apply (run_frames_diverges 2 storm_ref demo_mesh demo_heap initial_uniforms);
    [reflexivity | reflexivity | vm_compute; reflexivity].
Defined.

(** C30: time comes from the clock.  After any run of frames, [uTime] is
    the elapsed time of the last frame, not a sum of frame times. *)
Theorem run_frames_uTime `{ColorStyle} (ticks : list (Q * Q)) (t d : Q) (config : WaveConfigRef)
    (m : Mesh) (h : Heap) (u : Uniforms) :
  material m = Some u ->
  exists u', material (fst (run_frames (ticks ++ (t, d) :: nil) config m h)) = Some u' /\
             uTime u' = t.
Proof.
  intros Hm. rewrite run_frames_app, run_frames_cons.
  destruct (run_frames_material ticks config m h u Hm) as [u1 Hu1].
  cbn [run_frames fst]. eexists. split; [apply (frame_material _ _ _ _ _ _ Hu1) | reflexivity].
Qed.

Lemma run_frames_uTime_witness :
  exists u', material (fst (@run_frames hex_style (((1 # 60), (1 # 60)) :: ((2 # 60), (1 # 60)) :: ((7 # 2), (1 # 60)) :: nil) storm_ref demo_mesh demo_heap)) = Some u' /\
             uTime u' = 7 # 2.
Proof.
  apply (run_frames_uTime (((1 # 60), (1 # 60)) :: ((2 # 60), (1 # 60)) :: nil) (7 # 2) (1 # 60)
           storm_ref demo_mesh demo_heap initial_uniforms).
  reflexivity.
Defined.

(** C36: the heap footprint of a frame.  A frame writes only the
    [frequency] object [currentConfig] points to, and never re-points
    [currentConfig] at another object. *)
Theorem frame_footprint `{ColorStyle} (elapsed delta : Q) (config : WaveConfigRef)
    (m : Mesh) (h : Heap) (l' : loc) :
  l' <> frequency (currentConfig m) ->
  read_freq (snd (frame elapsed delta config m h)) l' = read_freq h l' /\
  frequency (currentConfig (fst (frame elapsed delta config m h))) = frequency (currentConfig m).
Proof.
  intros Hl. destruct (material m) as [u|] eqn:Hm.
  - rewrite (frame_heap _ _ _ _ _ _ Hm), (frame_currentConfig _ _ _ _ _ _ Hm).
    split; [apply read_freq_insert_ne; congruence | reflexivity].
  - rewrite (frame_unmounted _ _ _ _ _ Hm). split; reflexivity.
Qed.

Lemma frame_footprint_witness :
  (2%positive <> frequency (currentConfig demo_mesh)) /\
  read_freq (snd (@frame hex_style 1 (1 # 60) storm_ref demo_mesh demo_heap)) 2%positive = read_freq demo_heap 2%positive /\
  frequency (currentConfig (fst (@frame hex_style 1 (1 # 60) storm_ref demo_mesh demo_heap))) = frequency (currentConfig demo_mesh).
Proof.
  split; [discriminate|]. apply frame_footprint. discriminate.
Defined.

Lemma run_frames_speed_gap `{ColorStyle} delta ts config m h u :
  material m = Some u ->
  speed (currentConfig (fst (run_frames (const_ticks delta ts) config m h))) - speed config
    == qpow (1 - lerpFactor delta) (length ts) * (speed (currentConfig m) - speed config).
Proof.
  apply (run_frames_scale (fun m _ => speed (currentConfig m) - speed config)).
  intros t m' h' u' Hm'. rewrite (frame_currentConfig _ _ _ _ _ _ Hm'). apply lerp_gap.
Qed.

(** The live state just after a storm: speed 4.0 (the top of the schema's
    range), elevation 3.0. *)
Definition storm_mesh : Mesh := mkMesh (Some initial_uniforms) storm_ref.


Definition ticks_120 : list Q := map (fun n => qnat n / 60) (seq 1 120).



(** [v] lies between [a] and [b]. *)
Definition between (a b v : Q) : Prop := Qmin a b <= v /\ v <= Qmax a b.

(** C25: for [0 <= delta <= 1/2] a frame keeps each smoothed scalar field
    between its previous value and the target's: no overshoot. *)
Theorem frame_no_overshoot `{ColorStyle} (elapsed delta : Q) (config : WaveConfigRef)
    (m : Mesh) (h : Heap) (u : Uniforms) :
  material m = Some u -> 0 <= delta -> delta <= 1 # 2 ->
  let cur := currentConfig m in
  let cur' := currentConfig (fst (frame elapsed delta config m h)) in
  between (speed cur) (speed config) (speed cur') /\
  between (elevation cur) (elevation config) (elevation cur') /\
  between (roughness cur) (roughness config) (roughness cur').
Proof.
  intros Hm H0 H1. cbv zeta. rewrite (frame_currentConfig _ _ _ _ _ _ Hm).
  cbn [speed elevation roughness]. unfold between, lerpFactor.
  repeat split; apply lerp_between; lra.
Qed.

Lemma frame_no_overshoot_witness :
  material demo_mesh = Some initial_uniforms /\ 0 <= 1 # 60 /\ 1 # 60 <= 1 # 2 /\
  between (speed (currentConfig demo_mesh)) (speed storm_ref)
          (speed (currentConfig (fst (@frame hex_style 1 (1 # 60) storm_ref demo_mesh demo_heap)))) /\
  between (elevation (currentConfig demo_mesh)) (elevation storm_ref)
          (elevation (currentConfig (fst (@frame hex_style 1 (1 # 60) storm_ref demo_mesh demo_heap)))) /\
  between (roughness (currentConfig demo_mesh)) (roughness storm_ref)
          (roughness (currentConfig (fst (@frame hex_style 1 (1 # 60) storm_ref demo_mesh demo_heap)))).
Proof.
  split; [reflexivity|]. split; [discriminate|]. split; [discriminate|].
  apply (frame_no_overshoot 1 (1 # 60) storm_ref demo_mesh demo_heap initial_uniforms);
    [reflexivity | discriminate | discriminate].
Defined.

(** C38: when a frame leaves a field unchanged.  On exact numbers a frame
    with [delta <> 0] changes the speed unless it already equals the
    target: the live state is stationary only at the target itself. *)
Theorem frame_speed_fixed_iff `{ColorStyle} (elapsed delta : Q) (config : WaveConfigRef)
    (m : Mesh) (h : Heap) (u : Uniforms) :
  material m = Some u ->
  (speed (currentConfig (fst (frame elapsed delta config m h))) == speed (currentConfig m) <->
   speed (currentConfig m) == speed config \/ delta == 0).
Proof.
  intros Hm. rewrite (frame_currentConfig _ _ _ _ _ _ Hm). cbn [speed].
  rewrite lerp_fixed_iff. unfold lerpFactor.
  split; intros [E | E]; [left; exact E | right; lra | left; exact E | right; rewrite E; reflexivity].
Qed.

Lemma frame_speed_fixed_iff_witness :
  material demo_mesh = Some initial_uniforms /\
  (speed (currentConfig (fst (@frame hex_style 1 (1 # 60) storm_ref demo_mesh demo_heap))) == speed (currentConfig demo_mesh) <->
   speed (currentConfig demo_mesh) == speed storm_ref \/ 1 # 60 == 0).
Proof. split; [reflexivity|]. apply (frame_speed_fixed_iff 1 (1 # 60) storm_ref demo_mesh demo_heap initial_uniforms). reflexivity. Defined.

End WaveMesh.
