(* ===== verification/Gemini.v ===== *)
(** * Gemini: [analyzeThought] of [src/services/geminiService.ts]

    Data.  The reply of the model is untyped JSON: [jsval] has the values
    [JSON.parse] can produce plus [undefined].  Property access
    [obj.key] ([get]) throws a [TypeError] on [null] and [undefined],
    reads the last binding of the key in an object (as [JSON.parse] keeps
    the last of duplicate keys), and gives [undefined] elsewhere (the
    service reads no property that exists on a prototype).

    Interfaces.  The hosted model ([GenAI]: given the prompt, the call
    rejects or resolves to an optional text) and [JSON.parse]
    ([JsonParser]: [None] is a [SyntaxError]) are type classes; every
    theorem holds for every instance.

    Operations.  [prompt] (lines 33-40), [analyze_body] (the [try] block,
    lines 31-72: the call, the [!text] guard, the parse, the property
    reads in source order), [fallback_response] (lines 77-80) and
    [analyzeThought] (lines 30-82: an [async] function whose [catch]
    returns the fallback).  The fallback's [visualization] is the shared
    object [INITIAL_WAVE_CONFIG] ([InitialConfigObject]), while a parsed
    reply gets a fresh object ([NewVisualization]): the [App] needs the
    difference.

    Theorems.  [analyzeThought] never rejects; it falls back exactly when
    the body throws; the schema's flat JSON encoding of a typed response
    comes back unchanged; a reply that lacks a field is not refused (the
    field is [undefined]). *)

From Stdlib Require Import QArith String Ascii List Bool.
From S2P Require Import Prelude Types.

Local Open Scope Q_scope.
Local Open Scope nw_scope.
Import ListNotations.

Local Set Warnings "-register-all".

Module GeminiService.

(** JavaScript values as [JSON.parse] returns them, and [undefined]. *)
Inductive jsval : Type :=
| JUndefined
| JNull
| JBool (v : bool)
| JNum (v : Q)
| JStr (v : string)
| JArr (items : list jsval)
| JObj (fields : list (string * jsval)).

(** What the service can see thrown. *)
Inductive thrown : Type :=
| TypeError
| SyntaxError
| ErrorMessage (msg : string)
| Rejection (reason : jsval).

(** The last binding of [k], as [JSON.parse] keeps the last duplicate. *)
Definition obj_get (fields : list (string * jsval)) (k : string) : option jsval :=
  fold_left (fun acc kv => if String.eqb (fst kv) k then Some (snd kv) else acc) fields None.

(** [v.k] *)
Definition get (v : jsval) (k : string) : exc thrown jsval :=
  match v with
  | JUndefined | JNull => Throw TypeError
  | JObj fields => Return (match obj_get fields k with Some w => w | None => JUndefined end)
  | _ => Return JUndefined
  end.

(** The promise an [async] function returns, once settled. *)
Inductive settled (A : Type) : Type :=
| Fulfilled (a : A)
| Rejected (e : thrown).
Arguments Fulfilled {A} a.
Arguments Rejected {A} e.

(** An [async] function body that throws rejects its promise. *)
Definition run_async {A : Type} (body : exc thrown A) : settled A :=
  match body with
  | Return a => Fulfilled a
  | Throw e => Rejected e
  end.

(** [try { body } catch (e) { handler }]: the handler may throw too. *)
Definition try_catch {A : Type} (body : exc thrown A) (handler : thrown -> exc thrown A)
  : exc thrown A :=
  match body with
  | Return a => Return a
  | Throw e => handler e
  end.

(** [ai.models.generateContent(...)] then [result.text]. *)
Inductive GenerateResult : Type :=
| GenRejected (reason : jsval)
| GenResolved (text : option string).

Class GenAI : Type := generate : string -> GenerateResult.
Class JsonParser : Type := json_parse : string -> option jsval.

(** The untyped configuration the [try] block builds. *)
Definition JsWaveConfig : Type := WaveConfigT jsval jsval (FrequencyT jsval).

(** [visualization] of the returned response: a fresh object, or the
    shared [INITIAL_WAVE_CONFIG]. *)
Inductive Visualization : Type :=
| NewVisualization (v : JsWaveConfig)
| InitialConfigObject.

Definition AnalyzeResponse : Type := ThoughtResponseT jsval Visualization.

Definition dquote : string := String (ascii_of_nat 34) EmptyString.
Definition newline : string := String (ascii_of_nat 10) EmptyString.

(** The template literal of lines 33-40, line breaks and indentation
    included. *)
Definition prompt (input : string) : string :=
  "Analyze the following user input: " ++ dquote ++ input ++ dquote ++ ". " ++ newline ++
  "    Generate a short, profound, or poetic textual response." ++ newline ++
  "    Then, translate the sentiment and emotional tone of the text into visual 3D wave parameters." ++ newline ++
  "    For example: " ++ newline ++
  "    - Anger/Action: Red/Orange, high speed, high elevation, jagged frequency." ++ newline ++
  "    - Peace/Sadness: Blue/Teal, slow speed, low rolling elevation, smooth frequency." ++ newline ++
  "    - Joy: Yellow/Pink, medium speed, bouncy." ++ newline ++
  "    ".

(** [parsed.visualization.k] *)
Definition get_vis (parsed : jsval) (k : string) : exc thrown jsval :=
  vis <- get parsed "visualization" ;; get vis k.

(** [JSON.parse(text)] *)
Definition parse `{JsonParser} (text : string) : exc thrown jsval :=
  match json_parse text with
  | Some v => Return v
  | None => Throw SyntaxError
  end.

(** The [try] block of lines 31-72. *)
Definition analyze_body `{GenAI} `{JsonParser} (input : string) : exc thrown AnalyzeResponse :=
  match generate (prompt input) with
  | GenRejected reason => Throw (Rejection reason)
  | GenResolved None => Throw (ErrorMessage "No response from Gemini")
  | GenResolved (Some EmptyString) => Throw (ErrorMessage "No response from Gemini")
  | GenResolved (Some text) =>
      parsed <- parse text ;;
      rep <- get parsed "reply" ;;
      sp <- get_vis parsed "speed" ;;
      el <- get_vis parsed "elevation" ;;
      fx <- get_vis parsed "frequencyX" ;;
      fy <- get_vis parsed "frequencyY" ;;
      co <- get_vis parsed "color" ;;
      ro <- get_vis parsed "roughness" ;;
      me <- get_vis parsed "metalness" ;;
      Return (mkThoughtResponse rep
                (NewVisualization (mkWaveConfig sp el (mkFrequency fx fy) co ro me)))
  end.

Definition fallback_reply : string :=
  "My connection to the ether is unstable. I cannot visualize this thought right now.".

(** Lines 77-80. *)
Definition fallback_response : AnalyzeResponse :=
  mkThoughtResponse (JStr fallback_reply) InitialConfigObject.

(** Lines 30-82.  The [catch] logs and returns the fallback. *)
Definition analyzeThought `{GenAI} `{JsonParser} (input : string) : settled AnalyzeResponse :=
  run_async (try_catch (analyze_body input) (fun _ => Return fallback_response)).


(** ** Typed view and the schema's encoding *)

Definition num_of (v : jsval) : option Q := match v with JNum q => Some q | _ => None end.
Definition str_of (v : jsval) : option string := match v with JStr s => Some s | _ => None end.

(** The configuration when every field has the type [types.ts] declares. *)
Definition typed_config (c : JsWaveConfig) : option WaveConfig :=
  match num_of (speed c), num_of (elevation c), num_of (x (frequency c)),
        num_of (y (frequency c)), str_of (color c), num_of (roughness c), num_of (metalness c) with
  | Some sp, Some el, Some fx, Some fy, Some co, Some ro, Some me =>
      Some (mkWaveConfig sp el (mkFrequency fx fy) co ro me)
  | _, _, _, _, _, _, _ => None
  end.

Definition decode_response (r : AnalyzeResponse) : option ThoughtResponse :=
  match reply r, visualization r with
  | JStr rep, NewVisualization c =>
      match typed_config c with Some v => Some (mkThoughtResponse rep v) | None => None end
  | _, _ => None
  end.

(** [visualizationSchema] (lines 7-19): [frequency] flattened into
    [frequencyX] and [frequencyY]. *)
Definition encode_visualization (c : WaveConfig) : jsval :=
  JObj [("speed", JNum (speed c)); ("elevation", JNum (elevation c));
        ("frequencyX", JNum (x (frequency c))); ("frequencyY", JNum (y (frequency c)));
        ("color", JStr (color c)); ("roughness", JNum (roughness c));
        ("metalness", JNum (metalness c))]%string.

(** [responseSchema] (lines 21-28). *)
Definition encode_response (tr : ThoughtResponse) : jsval :=
  JObj [("reply", JStr (reply tr)); ("visualization", encode_visualization (visualization tr))]%string.

(** C13: [analyzeThought] never rejects: whatever the model call, the
    text, the parse and the reply's shape, the promise fulfils, so a
    caller's [catch] is never reached. *)
Theorem analyzeThought_never_rejects `{GenAI} `{JsonParser} (input : string) :
  exists r, analyzeThought input = Fulfilled r.
Proof.
  unfold analyzeThought. destruct (analyze_body input); eexists; reflexivity.
Qed.

(** The body only ever returns a fresh visualization. *)
Lemma analyze_body_fresh `{GenAI} `{JsonParser} input r :
  analyze_body input = Return r -> exists c, visualization r = NewVisualization c.
Proof.
  unfold analyze_body. destruct (generate (prompt input)) as [|[[|ch t]|]]; intros Hb;
    try discriminate.
  exc_inv Hb. injection Hb as <-. eexists; reflexivity.
Qed.

(** C14: the fallback is returned exactly when the body throws: a
    rejected call, an empty text, a [SyntaxError] or a [TypeError]. *)
Theorem analyzeThought_fallback_iff_throws `{GenAI} `{JsonParser} (input : string) :
  analyzeThought input = Fulfilled fallback_response <-> exists e, analyze_body input = Throw e.
Proof.
  unfold analyzeThought. split.
  - destruct (analyze_body input) as [a|e] eqn:Hb; [|eauto].
    intros Hf. cbn in Hf. injection Hf as Ha. subst a.
    destruct (analyze_body_fresh input _ Hb) as [c Hc]. discriminate Hc.
  - intros [e He]. rewrite He. reflexivity.
Qed.

(** A typed response sent back in the schema's flat shape. *)
Definition calm_response : ThoughtResponse :=
  mkThoughtResponse "Still water remembers the sky."%string
    (mkWaveConfig (3 # 10) (1 # 2) (mkFrequency 1 (3 # 2)) "#14b8a6"%string (1 # 2) (1 # 10)).

Definition calm_text : string := "{calm}"%string.

#[local] Instance calm_gen : GenAI := fun _ => GenResolved (Some calm_text).
#[local] Instance calm_parser : JsonParser :=
  fun s => if String.eqb s calm_text then Some (encode_response calm_response) else None.

(** C31: round trip.  When the model's text parses to the schema's
    encoding of a typed response, [analyzeThought] returns that response:
    the flat [frequencyX]/[frequencyY] come back as [frequency.x]/[.y] and
    every other field unchanged. *)
Theorem analyzeThought_roundtrip `{GenAI} `{JsonParser} (input text : string)
    (tr : ThoughtResponse) :
  generate (prompt input) = GenResolved (Some text) -> text <> EmptyString ->
  json_parse text = Some (encode_response tr) ->
  exists r, analyzeThought input = Fulfilled r /\ decode_response r = Some tr.
Proof.
  intros Hg Ht Hp. unfold analyzeThought, analyze_body. rewrite Hg.
  destruct text as [|c t]; [congruence|]. unfold parse. rewrite Hp.
  destruct tr as [rep [sp el [fx fy] co ro me]]. eexists. split; reflexivity.
Qed.

Lemma analyzeThought_roundtrip_witness :
  generate (prompt "calm") = GenResolved (Some calm_text) /\ calm_text <> EmptyString /\
  json_parse calm_text = Some (encode_response calm_response) /\
  exists r, analyzeThought "calm" = Fulfilled r /\ decode_response r = Some calm_response.
Proof.
  split; [reflexivity|]. split; [discriminate|]. split; [reflexivity|].
  apply (analyzeThought_roundtrip "calm" calm_text calm_response); [reflexivity | discriminate | reflexivity].
Defined.

(** C37: no validation.  A reply whose [visualization] object lacks
    [speed] is not refused: the promise fulfils with a fresh
    configuration whose [speed] is [undefined]. *)
Theorem analyzeThought_missing_field_undefined `{GenAI} `{JsonParser} (input text : string)
    (rep : jsval) (vfields : list (string * jsval)) :
  generate (prompt input) = GenResolved (Some text) -> text <> EmptyString ->
  json_parse text = Some (JObj [("reply", rep); ("visualization", JObj vfields)]%string) ->
  obj_get vfields "speed" = None ->
  exists c, analyzeThought input = Fulfilled (mkThoughtResponse rep (NewVisualization c)) /\
            speed c = JUndefined.
Proof.
  intros Hg Ht Hp Hs. unfold analyzeThought, analyze_body. rewrite Hg.
  destruct text as [|ch t]; [congruence|]. unfold parse. rewrite Hp.
  cbn [exc_bind parse get_vis get obj_get fold_left fst snd String.eqb Ascii.eqb Bool.eqb
       try_catch run_async].
  rewrite Hs. eexists. split; reflexivity.
Qed.

Definition speedless_text : string := "{speedless}"%string.
Definition speedless_fields : list (string * jsval) :=
  [("elevation", JNum 1); ("frequencyX", JNum 2); ("frequencyY", JNum 2);
   ("color", JStr "#ff00ff"); ("roughness", JNum 0); ("metalness", JNum 1)]%string.

#[local] Instance speedless_gen : GenAI := fun _ => GenResolved (Some speedless_text).
#[local] Instance speedless_parser : JsonParser :=
  fun _ => Some (JObj [("reply", JStr "..."); ("visualization", JObj speedless_fields)]%string).

Lemma analyzeThought_missing_field_undefined_witness :
  generate (prompt "?") = GenResolved (Some speedless_text) /\ speedless_text <> EmptyString /\
  json_parse speedless_text = Some (JObj [("reply", JStr "..."); ("visualization", JObj speedless_fields)]%string) /\
  obj_get speedless_fields "speed" = None /\
  exists c, analyzeThought "?" = Fulfilled (mkThoughtResponse (JStr "...") (NewVisualization c)) /\
            speed c = JUndefined.
Proof.
  split; [reflexivity|]. split; [discriminate|]. split; [reflexivity|]. split; [reflexivity|].
  apply (analyzeThought_missing_field_undefined "?" speedless_text (JStr "...") speedless_fields);
    [reflexivity | discriminate | reflexivity | reflexivity].
Defined.

End GeminiService.
