(* ===== verification/App.v ===== *)
(** * App: the page of [src/App.tsx] and [src/components/Interface.tsx]

    State ([AppState]).  The App's [useState]s ([waveConfig], [isLoading],
    [latestResponse]), the form's ([inputText], [expanded]), the inputs
    whose [analyzeThought] is outstanding ([pending]), the [WaveMesh]
    ([mesh]) and the heap of [frequency] objects with its allocator
    ([heap], [next_loc]).  [INITIAL_WAVE_CONFIG.frequency] is the object at
    [initial_loc]; the mesh is mounted on [INITIAL_WAVE_CONFIG], so its
    [currentConfig] shares that object.

    Events ([Event]) and the step function ([step]).  Typing (the input
    is disabled while loading), a form submit ([handleSubmit] with its
    guard, then [handleThoughtSubmit] up to its [await]), the completion of
    the outstanding request (the rest of [handleThoughtSubmit]: the new
    configuration replaces the old one wholesale, the reply is shown,
    [isLoading] is reset, then [handleSubmit] clears the input; the
    [useEffect] sets [expanded]), and an animation frame ([WaveMesh.frame]
    against the current [waveConfig]).  [reachable] is the set of states
    reachable from [init]; the invariants are proved by rule induction.

    Responses whose fields are not of the declared types (a JSON reply
    missing a field) leave the rational model: [step] returns [None] on
    them ([Gemini.analyzeThought_missing_field_undefined] shows they get
    through). *)

From Stdlib Require Import ZArith Lia QArith Qabs Lqa String Ascii List Bool.
From stdpp Require Import gmap.
From S2P Require Import Prelude Types Lerp RenderLoop Gemini.

Local Open Scope Q_scope.
Import ListNotations.
Import MathUtils ThreeColor WaveMesh GeminiService.

Module AppShell.

(** ** [String.prototype.trim] on the characters a [string] holds *)

(** WhiteSpace and LineTerminator code units below 256. *)
Definition is_js_space (c : ascii) : bool :=
  match nat_of_ascii c with
  | 9 | 10 | 11 | 12 | 13 | 32 | 160 => true
  | _ => false
  end%nat.

Fixpoint ltrim (s : string) : string :=
  match s with
  | EmptyString => EmptyString
  | String c rest => if is_js_space c then ltrim rest else s
  end.

Definition js_trim (s : string) : string :=
  string_of_list_ascii (rev (list_ascii_of_string
    (ltrim (string_of_list_ascii (rev (list_ascii_of_string (ltrim s))))))).

(** ** State and events *)

Record AppState : Type := mkApp {
  waveConfig : WaveConfigRef;
  isLoading : bool;
  latestResponse : option string;
  inputText : string;
  expanded : bool;
  pending : list string;
  mesh : Mesh;
  heap : Heap;
  next_loc : positive
}.

(** [INITIAL_WAVE_CONFIG.frequency] *)
Definition initial_loc : positive := 1%positive.

(** Mount: the App's state starts at [INITIAL_WAVE_CONFIG], the mesh
    copies it with [{ ...config }] and attaches its material. *)
Definition init : AppState :=
  mkApp initial_ref false None EmptyString false nil
    (attach_material (mount initial_ref))
    {[initial_loc := frequency INITIAL_WAVE_CONFIG]} 2%positive.

Inductive Event : Type :=
| TypeText (text : string)
| Submit
| Complete (result : GenerateResult)
| Frame (elapsed delta : Q).

Definition static_reply : string := "I encountered static in the connection.".

(** [setWaveConfig(response.visualization)]: the object the response
    carries, a fresh [frequency] object for a parsed reply, the shared
    one for the fallback. *)
Definition store_visualization (v : Visualization) (h : Heap) (next : positive)
  : option (WaveConfigRef * Heap * positive) :=
  match v with
  | InitialConfigObject => Some (initial_ref, h, next)
  | NewVisualization c =>
      match typed_config c with
      | Some w => Some (with_frequency w next, <[next := frequency w]> h, Pos.succ next)
      | None => None
      end
  end.

(** The [useEffect] on [latestResponse]: the response box is rendered,
    and [expanded] set, when the reply is a non-empty string. *)
Definition effect_expanded (resp : option string) (expanded : bool) : bool :=
  match resp with
  | Some (String _ _) => true
  | _ => expanded
  end.

(** Lines 18-27 of App.tsx after the [await], then line 20 of
    Interface.tsx. *)
Definition complete `{JsonParser} (result : GenerateResult) (input : string)
    (rest : list string) (s : AppState) : option AppState :=
  let finish wc h next resp :=
    mkApp wc false resp EmptyString (effect_expanded resp (expanded s)) rest (mesh s) h next in
  match @analyzeThought (fun _ => result) _ input with
  | Fulfilled r =>
      match store_visualization (visualization r) (heap s) (next_loc s), reply r with
      | Some (wc, h, next), JStr rep => Some (finish wc h next (Some rep))
      | _, _ => None
      end
  | Rejected _ => Some (finish (waveConfig s) (heap s) (next_loc s) (Some static_reply))
  end.

(** [handleSubmit] (Interface.tsx lines 16-21) and [handleThoughtSubmit]
    up to its [await] (App.tsx lines 12-18). *)
Definition submit (s : AppState) : AppState :=
  if String.eqb (js_trim (inputText s)) EmptyString || isLoading s then s
  else mkApp (waveConfig s) true None (inputText s) (expanded s)
             (pending s ++ [inputText s]) (mesh s) (heap s) (next_loc s).

Definition step `{JsonParser} `{ColorStyle} (e : Event) (s : AppState) : option AppState :=
  match e with
  | TypeText t =>
      if isLoading s then None
      else Some (mkApp (waveConfig s) (isLoading s) (latestResponse s) t (expanded s)
                       (pending s) (mesh s) (heap s) (next_loc s))
  | Submit => Some (submit s)
  | Complete result =>
      match pending s with
      | nil => None
      | input :: rest => complete result input rest s
      end
  | Frame t d =>
      let mh := frame t d (waveConfig s) (mesh s) (heap s) in
      Some (mkApp (waveConfig s) (isLoading s) (latestResponse s) (inputText s) (expanded s)
                  (pending s) (fst mh) (snd mh) (next_loc s))
  end.

Section Reach.
Context `{JsonParser} `{ColorStyle}.

Inductive reachable : AppState -> Prop :=
| reach_init : reachable init
| reach_step e s s' : reachable s -> step e s = Some s' -> reachable s'.

End Reach.

(** ** The invariant of reachable states *)

Record app_inv (s : AppState) : Prop := {
  inv_loading : isLoading s = true <-> pending s <> nil;
  inv_single : (length (pending s) <= 1)%nat;
  inv_mounted : material (mesh s) <> None;
  inv_live_loc : frequency (currentConfig (mesh s)) = initial_loc;
  inv_initial_alloc : heap s !! initial_loc <> None;
  inv_target_alloc : heap s !! frequency (waveConfig s) <> None;
  inv_fresh : forall l, heap s !! l <> None -> (l < next_loc s)%positive
}.

Lemma init_inv : app_inv init.
Proof.
  split; cbn; try discriminate.
  - split; [discriminate | intros []; reflexivity].
  - lia.
  - reflexivity.
  - intros l Hl. destruct (decide (l = initial_loc)) as [->|Hne]; [unfold initial_loc; lia|].
    rewrite lookup_insert_ne, lookup_empty in Hl by (unfold initial_loc in Hne; congruence).
    congruence.
Qed.

Lemma submit_inv s : app_inv s -> app_inv (submit s).
Proof.
  intros [HL H1 HM HLive HA HT HF]. unfold submit.
  destruct (String.eqb _ _ || isLoading s) eqn:Hg; [split; assumption|].
  apply orb_false_iff in Hg as [_ Hl].
  assert (pending s = nil) as Hp.
  { destruct (pending s); [reflexivity|]. rewrite Hl in HL.
    assert (false = true) by (apply HL; discriminate). discriminate. }
  split; cbn; try assumption; rewrite ?Hp; cbn.
  - split; [intros _; discriminate | reflexivity].
  - lia.
Qed.

Lemma store_visualization_inv v h next wc h' next' :
  store_visualization v h next = Some (wc, h', next') ->
  h !! initial_loc <> None -> (forall l, h !! l <> None -> (l < next)%positive) ->
  h' !! initial_loc <> None /\ h' !! frequency wc <> None /\
  (forall l, h' !! l <> None -> (l < next')%positive).
Proof.
  intros Hs HA HF. destruct v as [c|]; cbn in Hs.
  - destruct (typed_config c) as [w|]; [|discriminate]. injection Hs as <- <- <-.
    assert (Hne : next <> initial_loc) by (intros ->; specialize (HF _ HA); lia).
    split; [rewrite lookup_insert_ne by congruence; exact HA|].
    split; [cbn; rewrite lookup_insert_eq; discriminate|].
    intros l Hl. destruct (decide (l = next)) as [->|Hl']; [lia|].
    rewrite lookup_insert_ne in Hl by congruence. specialize (HF _ Hl). lia.
  - injection Hs as <- <- <-. auto.
Qed.

Lemma complete_inv `{JsonParser} result input rest s s' :
  app_inv s -> pending s = input :: rest -> complete result input rest s = Some s' -> app_inv s'.
Proof.
  intros [HL H1 HM HLive HA HT HF] Hp Hc.
  assert (rest = nil) as -> by (rewrite Hp in H1; destruct rest; [reflexivity | cbn in H1; lia]).
  unfold complete in Hc.
  destruct (analyzeThought input) as [r|e].
  - destruct (store_visualization (visualization r) (heap s) (next_loc s))
      as [[[wc h'] next']|] eqn:Hs; [|discriminate].
    destruct (reply r); try discriminate. injection Hc as <-.
    destruct (store_visualization_inv _ _ _ _ _ _ Hs HA HF) as (? & ? & ?).
    split; cbn; try assumption; try lia.
    split; [discriminate | intros []; reflexivity].
  - injection Hc as <-. split; cbn; try assumption; try lia.
    split; [discriminate | intros []; reflexivity].
Qed.

Lemma frame_inv `{ColorStyle} t d s :
  app_inv s ->
  app_inv (mkApp (waveConfig s) (isLoading s) (latestResponse s) (inputText s) (expanded s)
                 (pending s) (fst (frame t d (waveConfig s) (mesh s) (heap s)))
                 (snd (frame t d (waveConfig s) (mesh s) (heap s))) (next_loc s)).
Proof.
  intros [HL H1 HM HLive HA HT HF].
  destruct (material (mesh s)) as [u|] eqn:Hm; [|congruence].
  pose proof (frame_heap t d (waveConfig s) (mesh s) (heap s) u Hm) as Hh.
  pose proof (frame_currentConfig t d (waveConfig s) (mesh s) (heap s) u Hm) as Hc.
  pose proof (frame_material t d (waveConfig s) (mesh s) (heap s) u Hm) as Hu.
  cbv zeta in Hh, Hc. rewrite HLive in Hh.
  assert (Hdom : forall l, snd (frame t d (waveConfig s) (mesh s) (heap s)) !! l <> None <->
                           heap s !! l <> None).
  { intros l. rewrite Hh. destruct (decide (l = initial_loc)) as [->|Hne].
    - rewrite lookup_insert_eq. split; [intros _; exact HA | discriminate].
    - rewrite lookup_insert_ne by congruence. reflexivity. }
  split; cbn; try assumption.
  - rewrite Hu. discriminate.
  - rewrite Hc. exact HLive.
  - apply Hdom. exact HA.
  - apply Hdom. exact HT.
  - intros l Hl. apply HF, Hdom, Hl.
Qed.

Lemma step_inv `{JsonParser} `{ColorStyle} e s s' :
  app_inv s -> step e s = Some s' -> app_inv s'.
Proof.
  intros Hi Hs. destruct e as [t| |result|t d]; cbn in Hs.
  - destruct (isLoading s) eqn:Hl; [discriminate|]. injection Hs as <-.
    destruct Hi as [HL ? ? ? ? ? ?]. rewrite Hl in HL.
    split; cbn [isLoading pending mesh heap waveConfig next_loc]; assumption.
  - injection Hs as <-. apply submit_inv, Hi.
  - destruct (pending s) as [|input rest] eqn:Hp; [discriminate|].
    exact (complete_inv _ _ _ _ _ Hi Hp Hs).
  - injection Hs as <-. apply frame_inv, Hi.
Qed.

Lemma reachable_inv `{JsonParser} `{ColorStyle} s : reachable s -> app_inv s.
Proof. induction 1; [apply init_inv | eapply step_inv; eassumption]. Qed.


(** ** Runs of events *)

Fixpoint run_events `{JsonParser} `{ColorStyle} (es : list Event) (s : AppState) : option AppState :=
  match es with
  | nil => Some s
  | e :: rest => match step e s with Some s' => run_events rest s' | None => None end
  end.

Lemma run_events_reachable `{JsonParser} `{ColorStyle} es s s' :
  reachable s -> run_events es s = Some s' -> reachable s'.
Proof.
  revert s. induction es as [|e es IH]; intros s Hr Hrun; cbn in Hrun.
  - injection Hrun as <-. exact Hr.
  - destruct (step e s) as [s1|] eqn:Hs; [|discriminate].
    exact (IH s1 (reach_step e s s1 Hr Hs) Hrun).
Qed.

(** A joyful reply: a fresh configuration with frequency (10, 10). *)
Definition joy_response : ThoughtResponse :=
  mkThoughtResponse "Light dances on every crest."%string
    (mkWaveConfig 2 (3 # 2) (mkFrequency 10 10) "#facc15"%string (1 # 2) (1 # 2)).
Definition joy_text : string := "{joy}"%string.

#[local] Instance joy_parser : JsonParser :=
  fun s => if String.eqb s joy_text then Some (encode_response joy_response) else None.

(** Type, submit, receive the joyful reply, one half-second frame (the
    factor is 1, the live state jumps to the target), type again, submit,
    and the model call fails. *)
Definition joy_then_failure : list Event :=
  [TypeText "joy"; Submit; Complete (GenResolved (Some joy_text)); Frame 1 (1 # 2);
   TypeText "again"; Submit; Complete (GenRejected JNull)]%string.

Definition after_joy : list Event :=
  [TypeText "joy"; Submit; Complete (GenResolved (Some joy_text))]%string.

Definition state_after_joy : AppState :=
  match run_events after_joy init with Some s => s | None => init end.

Lemma state_after_joy_reachable : reachable state_after_joy.
Proof. apply (run_events_reachable after_joy init); [apply reach_init | vm_compute; reflexivity]. Qed.

(** C5: the submit protocol.  In every reachable state [isLoading] is set
    exactly when a request is outstanding, and at most one is. *)
Theorem reachable_one_request `{JsonParser} `{ColorStyle} (s : AppState) :
  reachable s -> (isLoading s = true <-> pending s <> nil) /\ (length (pending s) <= 1)%nat.
Proof. intros Hr. destruct (reachable_inv s Hr). auto. Qed.

Lemma reachable_one_request_witness :
  reachable state_after_joy /\
  (isLoading state_after_joy = true <-> pending state_after_joy <> nil) /\
  (length (pending state_after_joy) <= 1)%nat.
Proof.
  split; [apply state_after_joy_reachable|].
  apply reachable_one_request, state_after_joy_reachable.
Defined.

(** C18: the render loop's live [frequency] is the object of
    [INITIAL_WAVE_CONFIG] in every reachable state: the shallow copy
    [{ ...config }] shares it, and every frame writes into it. *)
Theorem reachable_live_frequency_is_initial `{JsonParser} `{ColorStyle} (s : AppState) :
  reachable s -> frequency (currentConfig (mesh s)) = initial_loc.
Proof. intros Hr. apply (reachable_inv s Hr). Qed.

Lemma reachable_live_frequency_is_initial_witness :
  reachable state_after_joy /\ frequency (currentConfig (mesh state_after_joy)) = initial_loc.
Proof.
  split; [apply state_after_joy_reachable|].
  apply reachable_live_frequency_is_initial, state_after_joy_reachable.
Defined.


Definition state_after_failure : AppState :=
  match run_events joy_then_failure init with Some s => s | None => init end.

Lemma state_after_failure_reachable : reachable state_after_failure.
Proof. apply (run_events_reachable joy_then_failure init); [apply reach_init | vm_compute; reflexivity]. Qed.


(** C2: the fallback does not restore the default.  After a successful
    reply, one frame and a failed call, the App's configuration is the
    fallback object [INITIAL_WAVE_CONFIG] and the fallback reply is shown,
    but its [frequency] is the reply's (10, 10), not the default
    (2, 1.5): the render loop wrote its live state into it. *)
Theorem stale_default_after_fallback :
  run_events joy_then_failure init = Some state_after_failure /\
  waveConfig state_after_failure = initial_ref /\
  latestResponse state_after_failure = Some fallback_reply /\
  freq_equiv (read_freq (heap state_after_failure) initial_loc) (mkFrequency 10 10) /\
  ~ freq_equiv (read_freq (heap state_after_failure) initial_loc) (frequency INITIAL_WAVE_CONFIG).
Proof.
  split; [vm_compute; reflexivity|]. split; [vm_compute; reflexivity|].
  split; [vm_compute; reflexivity|].
  split; [split; vm_compute; reflexivity|].
  intros [Hx _]. vm_compute in Hx. discriminate Hx.
Qed.


(** ** The submit guard *)

Lemma ltrim_empty_iff s :
  ltrim s = EmptyString <-> forallb is_js_space (list_ascii_of_string s) = true.
Proof.
  induction s as [|c s IH]; cbn; [split; reflexivity|].
  destruct (is_js_space c); cbn; [exact IH | split; discriminate].
Qed.

(** What [ltrim] leaves is empty or starts with a non-space. *)
Lemma ltrim_head s :
  ltrim s = EmptyString \/ exists c rest, ltrim s = String c rest /\ is_js_space c = false.
Proof.
  induction s as [|c s IH]; cbn; [left; reflexivity|].
  destruct (is_js_space c) eqn:Hc; [exact IH | right; eauto].
Qed.

Lemma js_trim_empty_iff s :
  js_trim s = EmptyString <-> forallb is_js_space (list_ascii_of_string s) = true.
Proof.
  rewrite <- ltrim_empty_iff. unfold js_trim. split.
  - intros H.
    assert (Hl : rev (list_ascii_of_string (ltrim (string_of_list_ascii
                   (rev (list_ascii_of_string (ltrim s)))))) = nil).
    { rewrite <- (list_ascii_of_string_of_list_ascii (rev _)), H. reflexivity. }
    apply (f_equal (@rev ascii)) in Hl. rewrite rev_involutive in Hl. cbn in Hl.
    assert (He : ltrim (string_of_list_ascii (rev (list_ascii_of_string (ltrim s)))) = EmptyString)
      by (rewrite <- (string_of_list_ascii_of_string (ltrim _)), Hl; reflexivity).
    rewrite ltrim_empty_iff, list_ascii_of_string_of_list_ascii, forallb_rev in He.
    destruct (ltrim_head s) as [E | (c & rest & E & Hc)]; [exact E|].
    rewrite E in He. cbn in He. rewrite Hc in He. discriminate.
  - intros ->. reflexivity.
Qed.

(** C33: [handleSubmit]'s guard.  A submit does nothing exactly when a
    request is outstanding or the input is only whitespace. *)
Theorem submit_refused_iff `{JsonParser} `{ColorStyle} (s : AppState) :
  step Submit s = Some s <->
  isLoading s = true \/ forallb is_js_space (list_ascii_of_string (inputText s)) = true.
Proof.
  cbn [step]. unfold submit. rewrite <- js_trim_empty_iff.
  destruct (String.eqb (js_trim (inputText s)) EmptyString) eqn:Ht;
    [apply String.eqb_eq in Ht | apply String.eqb_neq in Ht];
    destruct (isLoading s) eqn:Hl; cbn; try (split; auto; fail).
  split; [intros Hs; injection Hs as Hs; apply (f_equal isLoading) in Hs; cbn in Hs; congruence|].
  intros [? | ?]; congruence.
Qed.

(** C32: the completion replaces the configuration wholesale: a typed
    reply's configuration becomes the App's target field for field, the
    request is no longer outstanding, [isLoading] is reset and the input
    cleared. *)
Theorem complete_replaces_wholesale `{JsonParser} `{ColorStyle} (s s' : AppState)
    (result : GenerateResult) (input : string) (rest : list string) (r : AnalyzeResponse)
    (c : JsWaveConfig) (w : WaveConfig) :
  pending s = input :: rest ->
  @analyzeThought (fun _ => result) _ input = Fulfilled r ->
  visualization r = NewVisualization c -> typed_config c = Some w ->
  step (Complete result) s = Some s' ->
  deref (heap s') (waveConfig s') = w /\ isLoading s' = false /\
  inputText s' = EmptyString /\ pending s' = rest.
Proof.
  intros Hp Ha Hv Ht Hs. cbn [step] in Hs. rewrite Hp in Hs. unfold complete in Hs.
  rewrite Ha, Hv in Hs. cbn [store_visualization] in Hs. rewrite Ht in Hs.
  destruct (reply r); try discriminate. injection Hs as <-.
  unfold deref. cbn [waveConfig heap isLoading inputText pending with_frequency frequency].
  rewrite read_freq_insert_eq. destruct w; repeat split.
Qed.

Definition state_submitted : AppState :=
  match run_events [TypeText "joy"; Submit]%string init with Some s => s | None => init end.

Definition joy_result : GenerateResult := GenResolved (Some joy_text).

Definition joy_analyzed : AnalyzeResponse :=
  match @analyzeThought (fun _ => joy_result) _ "joy"%string with
  | Fulfilled r => r
  | Rejected _ => fallback_response
  end.

Definition joy_visualization : JsWaveConfig :=
  match visualization joy_analyzed with NewVisualization c => c | InitialConfigObject => mkWaveConfig JNull JNull (mkFrequency JNull JNull) JNull JNull JNull end.

Lemma complete_replaces_wholesale_witness :
  pending state_submitted = ("joy"%string :: nil) /\
  @analyzeThought (fun _ => joy_result) _ "joy"%string = Fulfilled joy_analyzed /\
  visualization joy_analyzed = NewVisualization joy_visualization /\
  typed_config joy_visualization = Some (visualization joy_response) /\
  step (Complete joy_result) state_submitted =
    Some (match step (Complete joy_result) state_submitted with Some s => s | None => init end) /\
  deref (heap (match step (Complete joy_result) state_submitted with Some s => s | None => init end))
        (waveConfig (match step (Complete joy_result) state_submitted with Some s => s | None => init end))
    = visualization joy_response /\
  isLoading (match step (Complete joy_result) state_submitted with Some s => s | None => init end) = false /\
  inputText (match step (Complete joy_result) state_submitted with Some s => s | None => init end) = EmptyString /\
  pending (match step (Complete joy_result) state_submitted with Some s => s | None => init end) = nil.
Proof.
  do 5 (split; [vm_compute; reflexivity|]).
  apply (complete_replaces_wholesale state_submitted _ joy_result "joy"%string nil
           joy_analyzed joy_visualization); vm_compute; reflexivity.
Defined.

End AppShell.
