(* ===== verification/Shader.v ===== *)
(** * Shader: the GLSL of [src/components/WaveScene.tsx]

    The vertex shader (lines 10-95) displaces each vertex of the plane by a
    product of sines and by [cnoise], a 3D gradient noise "simplified" from
    stegu's [classicnoise3D]; the fragment shader (lines 97-120) blends a
    darkened and a brightened base colour by a [smoothstep] of the
    displacement and adds a grid.  Everything but [sin] is rational:
    [floor], [fract], [mod289], [permute], [taylorInvSqrt], [step], [abs],
    [dot], [mix], [fade] and [smoothstep] are modelled exactly on [Q]
    (float32 rounding is not modelled); [sin] is an interface ([Sine]).

    [cnoise] is written in the phases of its code: the lattice hashes
    ([hashes], lines 27-39), the gradient block for four hashes at once
    ([grad4], lines 40-53), the corner gradients and their normalisation
    ([corner_grads], lines 54-65), the corner values ([corner_values],
    lines 66-73, parametric in the offset vector each corner gradient is
    dotted with: [repo_offsets] are the code's, [stegu_offsets] the
    original's) and the interpolation ([interp], lines 74-78).  [cell]
    is the noise of one lattice cell as a function of the fraction, so
    that [cnoise P] is [cell] at [floor P] and [fract P].

    Theorems: with the original offsets two neighbouring cells agree on
    their shared face (the noise is continuous); with the code's offsets
    they do not (a seam, visible as a step in the surface); the noise is
    zero at lattice points; the fragment colour stays within
    [[c/2, 3c/2 + 0.3]] of its base colour [c]. *)

From Stdlib Require Import ZArith Lia QArith Qabs Qminmax Qround Lqa.
From S2P Require Import Prelude.

Local Open Scope Q_scope.

Module GLSL.

(** [vec3], [vec4] and their componentwise operations. *)
Record vec3 : Type := mkVec3 { vx : Q; vy : Q; vz : Q }.
Record vec4 : Type := mkVec4 { wx : Q; wy : Q; wz : Q; ww : Q }.

Definition map3 (f : Q -> Q) (v : vec3) : vec3 := mkVec3 (f (vx v)) (f (vy v)) (f (vz v)).
Definition map4 (f : Q -> Q) (v : vec4) : vec4 :=
  mkVec4 (f (wx v)) (f (wy v)) (f (wz v)) (f (ww v)).
Definition zip4 (f : Q -> Q -> Q) (a b : vec4) : vec4 :=
  mkVec4 (f (wx a) (wx b)) (f (wy a) (wy b)) (f (wz a) (wz b)) (f (ww a) (ww b)).
Definition splat4 (q : Q) : vec4 := mkVec4 q q q q.
Definition scale3 (k : Q) (v : vec3) : vec3 := map3 (fun a => a * k) v.

Definition dot3 (a b : vec3) : Q := vx a * vx b + vy a * vy b + vz a * vz b.

(** [floor] and [fract] *)
Definition floorQ (q : Q) : Q := inject_Z (Qfloor q).
Definition fract (q : Q) : Q := q - floorQ q.

(** [step(edge, x)]: [x < edge ? 0.0 : 1.0] *)
Definition stepQ (edge x : Q) : Q := if Qlt_le_dec x edge then 0 else 1.

(** [mix(a, b, t)]: [a * (1 - t) + b * t] *)
Definition mixQ (a b t : Q) : Q := a * (1 - t) + b * t.

Definition clampQ (q lo hi : Q) : Q := Qmin (Qmax q lo) hi.

(** [smoothstep(e0, e1, x)] *)
Definition smoothstep (e0 e1 q : Q) : Q :=
  let t := clampQ ((q - e0) / (e1 - e0)) 0 1 in t * t * (3 - 2 * t).

(** Vectors with equal components as rationals. *)
Definition vec3_equiv (a b : vec3) : Prop := vx a == vx b /\ vy a == vy b /\ vz a == vz b.

#[export] Instance vec3_equiv_Equivalence : Equivalence vec3_equiv.
Proof.
  unfold vec3_equiv. split; red; intros;
    repeat match goal with H : _ /\ _ |- _ => destruct H end;
    repeat split; first [reflexivity | symmetry; assumption | etransitivity; eassumption].
Qed.

#[export] Instance mixQ_Proper : Proper (Qeq ==> Qeq ==> Qeq ==> Qeq) mixQ.
Proof. intros a a' Ha c c' Hc t t' Ht. unfold mixQ. rewrite Ha, Hc, Ht. reflexivity. Qed.

#[export] Instance dot3_Proper : Proper (vec3_equiv ==> vec3_equiv ==> Qeq) dot3.
Proof.
  intros [a1 a2 a3] [a1' a2' a3'] (E1 & E2 & E3) [b1 b2 b3] [b1' b2' b3'] (F1 & F2 & F3).
  unfold dot3; cbn in *. rewrite E1, E2, E3, F1, F2, F3. reflexivity.
Qed.

Lemma mixQ_0 a c : mixQ a c 0 == a.
Proof. unfold mixQ. ring. Qed.

Lemma mixQ_1 a c : mixQ a c 1 == c.
Proof. unfold mixQ. ring. Qed.

End GLSL.

Import GLSL.

Module Noise.

(** Lines 21-24. *)
Definition mod289 (q : Q) : Q := q - floorQ (q * (1 # 289)) * 289.
Definition permute (q : Q) : Q := mod289 ((q * 34 + 1) * q).
Definition taylorInvSqrt (r : Q) : Q :=
  (179284291400159 # 100000000000000) - (85373472095314 # 100000000000000) * r.

(** Line 74, one component. *)
Definition fade (t : Q) : Q := t * t * t * (t * (t * 6 - 15) + 10).

#[export] Instance fade_Proper : Proper (Qeq ==> Qeq) fade.
Proof. intros a b E. unfold fade. rewrite E. reflexivity. Qed.

Lemma fade_0 : fade 0 == 0.
Proof. reflexivity. Qed.

Lemma fade_1 : fade 1 == 1.
Proof. reflexivity. Qed.

(** Lines 27-39 from the integer part: the hashes [ixy0] (corners at
    [z0]) and [ixy1] (corners at [z1]), each in the order
    [(x0,y0), (x1,y0), (x0,y1), (x1,y1)]. *)
Definition hashes (Pi : vec3) : vec4 * vec4 :=
  let Pi0 := Pi in
  let Pi1 := map3 (fun a => a + 1) Pi0 in
  let Pi0 := map3 mod289 Pi0 in
  let Pi1 := map3 mod289 Pi1 in
  let ix := mkVec4 (vx Pi0) (vx Pi1) (vx Pi0) (vx Pi1) in
  let iy := mkVec4 (vy Pi0) (vy Pi0) (vy Pi1) (vy Pi1) in
  let iz0 := splat4 (vz Pi0) in
  let iz1 := splat4 (vz Pi1) in
  let ixy := map4 permute (zip4 Qplus (map4 permute ix) iy) in
  (map4 permute (zip4 Qplus ixy iz0), map4 permute (zip4 Qplus ixy iz1)).

(** Lines 40-46 (and 47-53): the gradients of four hashes, as the
    three vectors [gx], [gy], [gz]. *)
Definition grad4 (ixy : vec4) : vec4 * vec4 * vec4 :=
  let gx := map4 (fun a => a * (1 # 7)) ixy in
  let gy := map4 (fun a => fract (floorQ a * (1 # 7)) - (1 # 2)) gx in
  let gx := map4 fract gx in
  let gz := zip4 (fun a c => (1 # 2) - Qabs a - Qabs c) gx gy in
  let sz := map4 (fun c => stepQ c 0) gz in
  let gx := zip4 (fun a s => a - s * (stepQ 0 a - (1 # 2))) gx sz in
  let gy := zip4 (fun a s => a - s * (stepQ 0 a - (1 # 2))) gy sz in
  (gx, gy, gz).

(** The eight corner gradients, [g000 g100 g010 g110 g001 g101 g011 g111]. *)
Record Corners (A : Type) : Type := mkCorners {
  c000 : A; c100 : A; c010 : A; c110 : A; c001 : A; c101 : A; c011 : A; c111 : A
}.
Arguments mkCorners {A} _ _ _ _ _ _ _ _.
Arguments c000 {A} _. Arguments c100 {A} _. Arguments c010 {A} _. Arguments c110 {A} _.
Arguments c001 {A} _. Arguments c101 {A} _. Arguments c011 {A} _. Arguments c111 {A} _.

(** Lines 54-65: unpack the gradients and normalise each by
    [taylorInvSqrt] of its squared length. *)
Definition corner_grads (Pi : vec3) : Corners vec3 :=
  let '(ixy0, ixy1) := hashes Pi in
  let '(gx0, gy0, gz0) := grad4 ixy0 in
  let '(gx1, gy1, gz1) := grad4 ixy1 in
  let g000 := mkVec3 (wx gx0) (wx gy0) (wx gz0) in
  let g100 := mkVec3 (wy gx0) (wy gy0) (wy gz0) in
  let g010 := mkVec3 (wz gx0) (wz gy0) (wz gz0) in
  let g110 := mkVec3 (ww gx0) (ww gy0) (ww gz0) in
  let g001 := mkVec3 (wx gx1) (wx gy1) (wx gz1) in
  let g101 := mkVec3 (wy gx1) (wy gy1) (wy gz1) in
  let g011 := mkVec3 (wz gx1) (wz gy1) (wz gz1) in
  let g111 := mkVec3 (ww gx1) (ww gy1) (ww gz1) in
  let norm0 := map4 taylorInvSqrt
                 (mkVec4 (dot3 g000 g000) (dot3 g010 g010) (dot3 g100 g100) (dot3 g110 g110)) in
  let norm1 := map4 taylorInvSqrt
                 (mkVec4 (dot3 g001 g001) (dot3 g011 g011) (dot3 g101 g101) (dot3 g111 g111)) in
  mkCorners (scale3 (wx norm0) g000) (scale3 (wz norm0) g100)
            (scale3 (wy norm0) g010) (scale3 (ww norm0) g110)
            (scale3 (wx norm1) g001) (scale3 (wz norm1) g101)
            (scale3 (wy norm1) g011) (scale3 (ww norm1) g111).

(** The vector each corner gradient is dotted with, from [Pf0] and
    [Pf1 = Pf0 - 1]. *)
Definition Offsets : Type := vec3 -> vec3 -> Corners vec3.

(** Lines 66-73 as the code writes them. *)
Definition repo_offsets : Offsets := fun Pf0 Pf1 =>
  mkCorners Pf0
            (mkVec3 (vx Pf0) (vy Pf1) (vz Pf0))
            (mkVec3 (vx Pf0) (vy Pf0) (vz Pf1))
            (mkVec3 (vx Pf0) (vy Pf1) (vz Pf1))
            (mkVec3 (vx Pf1) (vy Pf0) (vz Pf0))
            (mkVec3 (vx Pf1) (vy Pf1) (vz Pf0))
            (mkVec3 (vx Pf1) (vy Pf0) (vz Pf1))
            Pf1.

(** The same lines in stegu's [classicnoise3D]: each gradient is dotted
    with the offset of its own corner. *)
Definition stegu_offsets : Offsets := fun Pf0 Pf1 =>
  mkCorners Pf0
            (mkVec3 (vx Pf1) (vy Pf0) (vz Pf0))
            (mkVec3 (vx Pf0) (vy Pf1) (vz Pf0))
            (mkVec3 (vx Pf1) (vy Pf1) (vz Pf0))
            (mkVec3 (vx Pf0) (vy Pf0) (vz Pf1))
            (mkVec3 (vx Pf1) (vy Pf0) (vz Pf1))
            (mkVec3 (vx Pf0) (vy Pf1) (vz Pf1))
            Pf1.

Definition corner_values (off : Offsets) (g : Corners vec3) (Pf0 : vec3) : Corners Q :=
  let o := off Pf0 (map3 (fun a => a - 1) Pf0) in
  mkCorners (dot3 (c000 g) (c000 o)) (dot3 (c100 g) (c100 o))
            (dot3 (c010 g) (c010 o)) (dot3 (c110 g) (c110 o))
            (dot3 (c001 g) (c001 o)) (dot3 (c101 g) (c101 o))
            (dot3 (c011 g) (c011 o)) (dot3 (c111 g) (c111 o)).

(** Lines 74-78: trilinear blend by the faded fraction, scaled by 2.2. *)
Definition interp (n : Corners Q) (Pf0 : vec3) : Q :=
  let fade_xyz := map3 fade Pf0 in
  let n_z := zip4 (fun a c => mixQ a c (vz fade_xyz))
                  (mkVec4 (c000 n) (c100 n) (c010 n) (c110 n))
                  (mkVec4 (c001 n) (c101 n) (c011 n) (c111 n)) in
  let n_yz_x := mixQ (wx n_z) (wz n_z) (vy fade_xyz) in
  let n_yz_y := mixQ (wy n_z) (ww n_z) (vy fade_xyz) in
  let n_xyz := mixQ n_yz_x n_yz_y (vx fade_xyz) in
  (22 # 10) * n_xyz.

(** The noise of the cell with integer corner [Pi] at fraction [Pf0]. *)
Definition cell (off : Offsets) (Pi Pf0 : vec3) : Q :=
  interp (corner_values off (corner_grads Pi) Pf0) Pf0.

(** [float cnoise(vec3 P)], lines 26-79. *)
Definition cnoise_with (off : Offsets) (P : vec3) : Q := cell off (map3 floorQ P) (map3 fract P).

Definition cnoise : vec3 -> Q := cnoise_with repo_offsets.


(** ** Setoid structure of a cell *)

Definition corners_rel {A} (R : A -> A -> Prop) (a b : Corners A) : Prop :=
  R (c000 a) (c000 b) /\ R (c100 a) (c100 b) /\ R (c010 a) (c010 b) /\ R (c110 a) (c110 b) /\
  R (c001 a) (c001 b) /\ R (c101 a) (c101 b) /\ R (c011 a) (c011 b) /\ R (c111 a) (c111 b).

Definition offsets_Proper (off : Offsets) : Prop :=
  forall a a' b b', vec3_equiv a a' -> vec3_equiv b b' -> corners_rel vec3_equiv (off a b) (off a' b').

Lemma repo_offsets_Proper : offsets_Proper repo_offsets.
Proof.
  intros a a' b b' (? & ? & ?) (? & ? & ?). unfold corners_rel, vec3_equiv; cbn. tauto.
Qed.

Lemma stegu_offsets_Proper : offsets_Proper stegu_offsets.
Proof.
  intros a a' b b' (? & ? & ?) (? & ? & ?). unfold corners_rel, vec3_equiv; cbn. tauto.
Qed.

#[export] Instance interp_Proper : Proper (corners_rel Qeq ==> vec3_equiv ==> Qeq) interp.
Proof.
  intros n n' (E1 & E2 & E3 & E4 & E5 & E6 & E7 & E8) a a' (F1 & F2 & F3).
  unfold interp; cbn. rewrite E1, E2, E3, E4, E5, E6, E7, E8, F1, F2, F3. reflexivity.
Qed.

Lemma corner_values_Proper off g a a' :
  offsets_Proper off -> vec3_equiv a a' ->
  corners_rel Qeq (corner_values off g a) (corner_values off g a').
Proof.
  intros Hoff Ha. unfold corner_values.
  assert (Hb : vec3_equiv (map3 (fun q => q - 1) a) (map3 (fun q => q - 1) a')).
  { destruct Ha as (E1 & E2 & E3). unfold vec3_equiv; cbn. rewrite E1, E2, E3. repeat split; reflexivity. }
  destruct (Hoff _ _ _ _ Ha Hb) as (O1 & O2 & O3 & O4 & O5 & O6 & O7 & O8).
  unfold corners_rel; cbn.
  repeat split; apply dot3_Proper; first [reflexivity | assumption].
Qed.

(** The noise of a cell depends on the fraction only up to [Qeq]. *)
Lemma cell_Proper off Pi a a' :
  offsets_Proper off -> vec3_equiv a a' -> cell off Pi a == cell off Pi a'.
Proof.
  intros Hoff Ha. unfold cell. apply interp_Proper; [apply corner_values_Proper|]; assumption.
Qed.

(** [floor] sends equal rationals to the same integer, so the noise of
    the code depends on its argument only up to [Qeq]. *)
Lemma cnoise_with_Proper off a a' :
  offsets_Proper off -> vec3_equiv a a' -> cnoise_with off a == cnoise_with off a'.
Proof.
  intros Hoff (E1 & E2 & E3). unfold cnoise_with, map3, fract, floorQ.
  rewrite (Qfloor_comp _ _ E1), (Qfloor_comp _ _ E2), (Qfloor_comp _ _ E3).
  apply cell_Proper; [assumption|].
  unfold vec3_equiv; cbn [vx vy vz]. rewrite E1, E2, E3. repeat split; reflexivity.
Qed.

#[export] Instance cnoise_Proper : Proper (vec3_equiv ==> Qeq) cnoise.
Proof. intros a a' E. apply cnoise_with_Proper; [apply repo_offsets_Proper | exact E]. Qed.

(** ** Each corner gradient is a function of its own hash

    [grad4] and the normalisation work componentwise, so the gradient of
    a corner depends only on the hash of that corner; [grad_of] is that
    function and [grads_of_hashes] applies it to the eight hashes. *)

Definition grad_of (h : Q) : vec3 :=
  let gx := h * (1 # 7) in
  let gy := fract (floorQ gx * (1 # 7)) - (1 # 2) in
  let gx := fract gx in
  let gz := (1 # 2) - Qabs gx - Qabs gy in
  let sz := stepQ gz 0 in
  let gx := gx - sz * (stepQ 0 gx - (1 # 2)) in
  let gy := gy - sz * (stepQ 0 gy - (1 # 2)) in
  let g := mkVec3 gx gy gz in
  scale3 (taylorInvSqrt (dot3 g g)) g.

Definition grads_of_hashes (h : vec4 * vec4) : Corners vec3 :=
  let '(a0, a1) := h in
  mkCorners (grad_of (wx a0)) (grad_of (wy a0)) (grad_of (wz a0)) (grad_of (ww a0))
            (grad_of (wx a1)) (grad_of (wy a1)) (grad_of (wz a1)) (grad_of (ww a1)).

Lemma corner_grads_hashes Pi : corner_grads Pi = grads_of_hashes (hashes Pi).
Proof.
  unfold corner_grads. destruct (hashes Pi) as [[? ? ? ?] [? ? ? ?]].
  cbv beta iota zeta delta [grads_of_hashes grad_of grad4 map4 zip4 scale3 map3
                            vx vy vz wx wy wz ww].
  reflexivity.
Qed.

(** The hashes of the [x1] corners of a cell are the hashes of the [x0]
    corners of its neighbour in [+x]. *)
Lemma hashes_shift_x (i j k : Q) :
  let '(a0, a1) := hashes (mkVec3 i j k) in
  let '(b0, b1) := hashes (mkVec3 (i + 1) j k) in
  wy a0 = wx b0 /\ ww a0 = wz b0 /\ wy a1 = wx b1 /\ ww a1 = wz b1.
Proof.
  cbv beta iota zeta delta [hashes map3 map4 zip4 splat4 vx vy vz wx wy wz ww].
  split; [|split; [|split]]; exact eq_refl.
Qed.

(** ** Lattice points *)

Lemma cell_at_corner off Pi :
  (forall a b, c000 (off a b) = a) -> cell off Pi (mkVec3 0 0 0) == 0.
Proof.
  intros Hoff. unfold cell, interp, corner_values. rewrite Hoff.
  unfold mixQ, dot3, fade; cbn [map3 zip4 vx vy vz wx wy wz ww c000]. ring.
Qed.


(** C35: the noise of the code is zero at every lattice point [(i, j, k)]
    of [Z^3], as gradient noise is. *)
Theorem cnoise_lattice_zero (i j k : Z) :
  cnoise (mkVec3 (inject_Z i) (inject_Z j) (inject_Z k)) == 0.
Proof.
  unfold cnoise, cnoise_with.
  transitivity (cell repo_offsets (map3 floorQ (mkVec3 (inject_Z i) (inject_Z j) (inject_Z k)))
                     (mkVec3 0 0 0)).
  - apply cell_Proper; [apply repo_offsets_Proper|].
    unfold vec3_equiv, map3, fract, floorQ; cbn [vx vy vz]. rewrite !Qfloor_Z.
    repeat split; ring.
  - apply cell_at_corner. reflexivity.
Qed.

End Noise.

(** ** The seam of the code's noise

    With the code's offsets the noise is not continuous.  Along the line
    [y = 0.3], [z = 0.7] it equals, for [0 <= x < 1], the polynomial of
    the cell at the origin, which tends to about [-0.837] as [x] tends to
    1; at [x = 1] the noise switches to the next cell and is about
    [-0.246].  The proof bounds the polynomial near [x = 1]: at fixed
    [y] and [z] a cell is [2.2 * mix(L(x), H(x), fade(x))] with [L] and
    [H] affine in [x] (its two [lanes]), and such a blend moves by at
    most a constant times [1 - x]. *)

Module Seam.
Import Noise.

(** The two [x]-lanes of the trilinear blend: the [x0] corners and the
    [x1] corners, each blended in [z] and then in [y]. *)
Definition lanes (n : Corners Q) (ty tz : Q) : Q * Q :=
  (mixQ (mixQ (c000 n) (c001 n) tz) (mixQ (c010 n) (c011 n) tz) ty,
   mixQ (mixQ (c100 n) (c101 n) tz) (mixQ (c110 n) (c111 n) tz) ty).

Definition cell_lanes (off : Offsets) (Pi : vec3) (x fy fz : Q) : Q * Q :=
  lanes (corner_values off (corner_grads Pi) (mkVec3 x fy fz)) (fade fy) (fade fz).

(** [f] is continuous at [x0] (on the rationals). *)
Definition continuous_at (f : Q -> Q) (x0 : Q) : Prop :=
  forall eps, 0 < eps ->
  exists delta, 0 < delta /\ forall x, Qabs (x - x0) < delta -> Qabs (f x - f x0) < eps.

Lemma cell_as_lanes off Pi x fy fz :
  cell off Pi (mkVec3 x fy fz) ==
  (22 # 10) * mixQ (fst (cell_lanes off Pi x fy fz)) (snd (cell_lanes off Pi x fy fz)) (fade x).
Proof. reflexivity. Qed.

Lemma cell_lanes_affine Pi x fy fz :
  let l := cell_lanes repo_offsets Pi in
  fst (l x fy fz) == fst (l 0 fy fz) + x * (fst (l 1 fy fz) - fst (l 0 fy fz)) /\
  snd (l x fy fz) == snd (l 0 fy fz) + x * (snd (l 1 fy fz) - snd (l 0 fy fz)).
Proof.
  cbv zeta. unfold cell_lanes, lanes, corner_values, repo_offsets.
  destruct (corner_grads Pi) as [[] [] [] [] [] [] [] []].
  generalize (fade fy) (fade fz); intros ty tz.
  cbn [fst snd map3 vx vy vz c000 c100 c010 c110 c001 c101 c011 c111].
  unfold mixQ, dot3; cbn [map3 vx vy vz]. split; ring.
Qed.

Lemma fade_sym t : fade (1 - t) == 1 - fade t.
Proof. unfold fade. ring. Qed.

Lemma fade_le_lin s : 0 <= s <= 1 -> 0 <= fade s <= 10 * s.
Proof.
  intros [H0 H1]. unfold fade.
  assert (0 <= s * s <= 1) by (split; nra).
  assert (1 <= s * (s * 6 - 15) + 10 <= 10) by (split; nra).
  split; nra.
Qed.

Lemma one_minus_fade_le t : 0 <= t <= 1 -> 0 <= 1 - fade t <= 10 * (1 - t).
Proof. intros Ht. rewrite <- fade_sym. apply fade_le_lin. lra. Qed.

Lemma affine_abs_le p q x : 0 <= x <= 1 -> Qabs (p + x * (q - p)) <= Qabs p + Qabs q.
Proof.
  intros Hx. setoid_replace (p + x * (q - p)) with ((1 - x) * p + x * q) by ring.
  eapply Qle_trans; [apply Qabs_triangle|].
  rewrite !Qabs_Qmult, (Qabs_pos (1 - x)), (Qabs_pos x) by lra.
  qabs_facts. nra.
Qed.

(** The blend of two affine lanes moves by at most [K * (1 - x)] from
    its value at [x = 1]. *)
Lemma mix_lanes_near_one l0 l1 h0 h1 x :
  0 <= x <= 1 ->
  Qabs (mixQ (l0 + x * (l1 - l0)) (h0 + x * (h1 - h0)) (fade x) - h1) <=
  (10 * (Qabs l0 + Qabs l1 + Qabs h0 + Qabs h1) + Qabs (h1 - h0)) * (1 - x).
Proof.
  intros Hx.
  pose proof (one_minus_fade_le x Hx) as Hf.
  pose proof (affine_abs_le l0 l1 x Hx) as HL. pose proof (affine_abs_le h0 h1 x Hx) as HH.
  set (L := l0 + x * (l1 - l0)) in *. set (H := h0 + x * (h1 - h0)) in *.
  setoid_replace (mixQ L H (fade x) - h1) with ((L - H) * (1 - fade x) + (x - 1) * (h1 - h0))
    by (unfold mixQ, L, H; ring).
  eapply Qle_trans; [apply Qabs_triangle|].
  rewrite !Qabs_Qmult, (Qabs_pos (1 - fade x)), (Qabs_neg (x - 1)) by lra.
  assert (Qabs (L - H) <= Qabs L + Qabs H).
  { unfold Qminus. eapply Qle_trans; [apply Qabs_triangle|]. rewrite Qabs_opp. lra. }
  qabs_facts. nra.
Qed.

Lemma Qfloor_unit x : 0 <= x < 1 -> Qfloor x = 0%Z.
Proof.
  intros Hx. pose proof (Qfloor_le x) as H1. pose proof (Qlt_floor x) as H2.
  rewrite inject_Z_plus in H2. change (inject_Z 1) with 1 in H2.
  assert (inject_Z (Qfloor x) < inject_Z 1) as L1 by (change (inject_Z 1) with 1; lra).
  assert (inject_Z (-1) < inject_Z (Qfloor x)) as L2 by (change (inject_Z (-1)) with (-1); lra).
  rewrite <- Zlt_Qlt in L1, L2. lia.
Qed.

(** In the unit cube the noise is the polynomial of the cell at the origin. *)
Lemma cnoise_unit_cell x fy fz :
  0 <= x < 1 -> 0 <= fy < 1 -> 0 <= fz < 1 ->
  cnoise (mkVec3 x fy fz) == cell repo_offsets (mkVec3 0 0 0) (mkVec3 x fy fz).
Proof.
  intros Hx Hy Hz. unfold cnoise, cnoise_with, map3, fract, floorQ; cbn [vx vy vz].
  rewrite (Qfloor_unit x), (Qfloor_unit fy), (Qfloor_unit fz) by assumption.
  apply cell_Proper; [apply repo_offsets_Proper|].
  cbv [vec3_equiv vx vy vz]. change (inject_Z 0) with 0. repeat split; ring.
Qed.

(** Left of the face [x = 1], within any distance [d], there is a point
    where the noise differs from the noise at [x = 1] by at least [0.47]. *)
Lemma cnoise_seam_gap d :
  0 < d ->
  exists x, 1 - d < x < 1 /\
  47 # 100 <= Qabs (cnoise (mkVec3 x (3 # 10) (7 # 10)) - cnoise (mkVec3 1 (3 # 10) (7 # 10))).
Proof.
  intros Hd. set (m := Qmin (d * (1 # 2)) (1 # 1000)).
  assert (0 < m /\ m <= 1 # 1000 /\ m < d) as (Hm0 & Hm1 & Hmd).
  { unfold m. pose proof (Q.le_min_l (d * (1 # 2)) (1 # 1000)).
    pose proof (Q.le_min_r (d * (1 # 2)) (1 # 1000)).
    repeat split; try lra. apply Q.min_glb_lt; lra. }
  exists (1 - m). split; [lra|].
  rewrite cnoise_unit_cell, cell_as_lanes by lra.
  destruct (cell_lanes_affine (mkVec3 0 0 0) (1 - m) (3 # 10) (7 # 10)) as [E1 E2].
  cbv zeta in E1, E2. rewrite E1, E2.
  set (l0 := fst (cell_lanes repo_offsets (mkVec3 0 0 0) 0 (3 # 10) (7 # 10))).
  set (l1 := fst (cell_lanes repo_offsets (mkVec3 0 0 0) 1 (3 # 10) (7 # 10))).
  set (h0 := snd (cell_lanes repo_offsets (mkVec3 0 0 0) 0 (3 # 10) (7 # 10))).
  set (h1 := snd (cell_lanes repo_offsets (mkVec3 0 0 0) 1 (3 # 10) (7 # 10))).
  set (c1 := cnoise (mkVec3 1 (3 # 10) (7 # 10))).
  pose proof (mix_lanes_near_one l0 l1 h0 h1 (1 - m) ltac:(lra)) as HL.
  set (M := mixQ (l0 + (1 - m) * (l1 - l0)) (h0 + (1 - m) * (h1 - h0)) (fade (1 - m))) in *.
  set (K := 10 * (Qabs l0 + Qabs l1 + Qabs h0 + Qabs h1) + Qabs (h1 - h0)) in *.
  assert (Hgap : 1 # 2 <= Qabs ((22 # 10) * h1 - c1))
    by (apply Qle_bool_imp_le; vm_compute; reflexivity).
  assert (HK : (22 # 10) * K <= 28) by (apply Qle_bool_imp_le; vm_compute; reflexivity).
  assert (HK0 : 0 <= K) by (unfold K; qabs_facts; lra).
  assert (Hm : (22 # 10) * (K * (1 - (1 - m))) <= 28 * (1 # 1000)) by nra.
  clearbody M K c1 h1. qabs_elim; lra.
Qed.

(** C3: the noise of the code has a seam.  Along [y = 0.3], [z = 0.7],
    [cnoise] is not continuous at [x = 1]: points [x < 1] arbitrarily
    close to 1 have noise at least [0.47] away from the noise at [x = 1].
    (The original [classicnoise3D] is continuous there, see
    [stegu_cells_agree_x].) *)
Theorem cnoise_discontinuous_x :
  ~ continuous_at (fun x => cnoise (mkVec3 x (3 # 10) (7 # 10))) 1.
Proof.
  intros Hc. destruct (Hc (1 # 4)) as (d & Hd & Hx); [lra|].
  destruct (cnoise_seam_gap d Hd) as (x & Hx1 & Hgap).
  specialize (Hx x ltac:(rewrite Qabs_neg; lra)). cbv beta in Hx. lra.
Qed.

End Seam.
