(* ===== verification/ShaderStage.v ===== *)
(** * ShaderStage: the two [main]s of the shaders of [src/components/WaveScene.tsx]

    The vertex shader's [main] (lines 81-94) and the fragment shader's
    [main] (lines 106-119) as functions of the [Uniforms] that the render
    loop ([RenderLoop.WaveMesh.frame]) writes, with [cnoise] from
    [Shader].  GLSL's [sin] is the interface [Sine]: any function bounded
    by 1 and 1-Lipschitz, as [sin] is; the theorems hold for every
    instance.  [clamp_sine] is one instance, used to evaluate the
    theorems at concrete inputs.

    Theorems: the fragment colour of a channel [c >= 0] stays within
    [[c/2, 3c/2 + 0.3]]; the noise time [uTime * uSpeed] is recomputed
    from the clock each frame, so while the speed is being smoothed its
    per-frame advance grows with the session time; and the seam of
    [cnoise] tears the surface the vertex shader draws for the initial
    configuration. *)

From Stdlib Require Import ZArith QArith Qabs Qminmax Lqa String.
From S2P Require Import Prelude Types Lerp RenderLoop Shader.

Local Open Scope Q_scope.

Import MathUtils ThreeColor WaveMesh GLSL Noise Seam.

(** GLSL's [sin]: bounded by 1 and 1-Lipschitz. *)
Class Sine : Type := {
  sin : Q -> Q;
  sin_bound : forall a, Qabs (sin a) <= 1;
  sin_lipschitz : forall a a', Qabs (sin a - sin a') <= Qabs (a - a')
}.

(** A rational instance: [sin] clamped to its range by the identity near 0. *)
Definition clamp_sin (a : Q) : Q := Qmax (-1) (Qmin a 1).

Lemma clamp_sin_cases a :
  (a <= -1 /\ clamp_sin a == -1) \/ (-1 <= a <= 1 /\ clamp_sin a == a) \/
  (1 <= a /\ clamp_sin a == 1).
Proof.
  unfold clamp_sin. destruct (Qlt_le_dec 1 a) as [H1|H1].
  - rewrite (Q.min_r a 1) by lra. rewrite Q.max_r by lra. right; right; split; [lra | reflexivity].
  - rewrite (Q.min_l a 1) by lra. destruct (Qlt_le_dec a (-1)) as [H2|H2].
    + rewrite Q.max_l by lra. left; split; [lra | reflexivity].
    + rewrite Q.max_r by lra. right; left; split; [lra | reflexivity].
Qed.

Lemma clamp_sin_bound a : Qabs (clamp_sin a) <= 1.
Proof.
  destruct (clamp_sin_cases a) as [[? E]|[[? E]|[? E]]]; rewrite E; qabs_elim; lra.
Qed.

Lemma clamp_sin_lipschitz a a' : Qabs (clamp_sin a - clamp_sin a') <= Qabs (a - a').
Proof.
  destruct (clamp_sin_cases a) as [[? E]|[[? E]|[? E]]], (clamp_sin_cases a') as [[? F]|[[? F]|[? F]]];
    rewrite E, F; qabs_elim; lra.
Qed.

#[export] Instance clamp_sine : Sine :=
  {| sin := clamp_sin; sin_bound := clamp_sin_bound; sin_lipschitz := clamp_sin_lipschitz |}.

Module Stage.

Section Shaders.
Context `{SN : Sine}.

(** [uTime * uSpeed], the phase of the waves (line 86) and, halved, the
    time coordinate of the noise (line 88). *)
Definition phase (u : Uniforms) : Q := uTime u * uSpeed u.

(** Vertex [main], lines 81-94: the elevation of the vertex whose model
    position has horizontal coordinates [px] and [pz]
    ([modelPosition.x] and [modelPosition.z]); [modelPosition.y] is
    raised by it and [vElevation] is set to it. *)
Definition vertex_elevation (u : Uniforms) (px pz : Q) : Q :=
  let fx := fst (uFrequency u) in
  let fy := snd (uFrequency u) in
  let elevation := sin (px * fx - phase u) * sin (pz * fy - phase u) * (2 # 10) in
  elevation + cnoise (mkVec3 (px * fx * (1 # 2)) (pz * fy * (1 # 2)) (phase u * (1 # 2)))
              * uElevation u.

(** Line 110: [mix(uColor * 0.5, uColor * 1.5, depth)], one channel,
    plus the grid of line 117. *)
Definition fragment_channel (c depth grid : Q) : Q :=
  mixQ (c * (1 # 2)) (c * (3 # 2)) depth + grid.

(** Fragment [main], lines 106-119, before [colorspace_fragment]: the
    colour at elevation [vElevation] and texture coordinates
    [(uvx, uvy)]. *)
Definition fragment_color (u : Uniforms) (vElevation uvx uvy : Q) : Color :=
  let depth := smoothstep (-1) 1 vElevation in
  let gridX := smoothstep (98 # 100) 1 (Qabs (sin (uvx * 100))) in
  let gridY := smoothstep (98 # 100) 1 (Qabs (sin (uvy * 100))) in
  let grid := Qmax gridX gridY * (3 # 10) in
  let c := uColor u in
  mkColor (fragment_channel (r c) depth grid) (fragment_channel (g c) depth grid)
          (fragment_channel (b c) depth grid).

(** ** Lemmas *)

Lemma sin_Proper : Proper (Qeq ==> Qeq) sin.
Proof.
  intros a a' E. pose proof (sin_lipschitz a a') as H.
  revert H. qabs_elim; intros; lra.
Qed.

(** A product of sines moves by at most the move of one argument. *)
Lemma sine_product_lipschitz a a' c :
  Qabs (sin a * sin c * (2 # 10) - sin a' * sin c * (2 # 10)) <= (2 # 10) * Qabs (a - a').
Proof.
  setoid_replace (sin a * sin c * (2 # 10) - sin a' * sin c * (2 # 10))
    with ((sin a - sin a') * sin c * (2 # 10)) using relation Qeq by ring.
  rewrite !Qabs_Qmult. pose proof (sin_lipschitz a a'). pose proof (sin_bound c).
  qabs_facts. change (Qabs (2 # 10)) with (2 # 10). nra.
Qed.

End Shaders.

Lemma smoothstep_unit e0 e1 q : 0 <= smoothstep e0 e1 q <= 1.
Proof.
  unfold smoothstep, clampQ.
  set (t := Qmin (Qmax ((q - e0) / (e1 - e0)) 0) 1).
  assert (0 <= t <= 1).
  { unfold t. split; [apply Q.min_glb; [apply Q.le_max_r | lra] | apply Q.le_min_r]. }
  assert (1 - t * t * (3 - 2 * t) == (1 - t) * (1 - t) * (1 + 2 * t)) by ring.
  assert (0 <= t * t * (3 - 2 * t))
    by (apply Qmult_le_0_compat; [apply Qmult_le_0_compat|]; lra).
  assert (0 <= (1 - t) * (1 - t) * (1 + 2 * t))
    by (apply Qmult_le_0_compat; [apply Qmult_le_0_compat|]; lra).
  split; lra.
Qed.

Lemma fragment_channel_bounds c depth grid :
  0 <= c -> 0 <= depth <= 1 -> 0 <= grid <= 3 # 10 ->
  c * (1 # 2) <= fragment_channel c depth grid <= c * (3 # 2) + (3 # 10).
Proof. intros. unfold fragment_channel, mixQ. split; nra. Qed.

Lemma grid_bounds a a' : 0 <= Qmax (smoothstep (98 # 100) 1 a) (smoothstep (98 # 100) 1 a') * (3 # 10) <= 3 # 10.
Proof.
  pose proof (smoothstep_unit (98 # 100) 1 a). pose proof (smoothstep_unit (98 # 100) 1 a').
  pose proof (Q.le_max_l (smoothstep (98 # 100) 1 a) (smoothstep (98 # 100) 1 a')).
  assert (Qmax (smoothstep (98 # 100) 1 a) (smoothstep (98 # 100) 1 a') <= 1) by (apply Q.max_lub; lra).
  lra.
Qed.


(** ** Fixtures *)

(** The uniforms the first frame writes for the initial configuration,
    at clock [2.8]: speed [1/2], elevation [0.6], frequency [(2, 1.5)]
    (the live configuration starts equal to its target). *)
Definition first_frame_uniforms : Uniforms :=
  match material (fst (frame (14 # 5) (1 # 60) initial_ref demo_mesh demo_heap)) with
  | Some u => u
  | None => initial_uniforms
  end.

(** The mesh ten minutes into a session, at rest on the initial configuration. *)
Definition late_uniforms : Uniforms :=
  mkUniforms 600 (1 # 2) (3 # 5) (2, 3 # 2) white (8 # 10) (2 # 10).

Definition late_mesh : Mesh := mkMesh (Some late_uniforms) initial_ref.

(** Its uniforms one frame after the storm configuration became the target. *)
Definition late_storm_uniforms : Uniforms :=
  match material (fst (frame (600 + (1 # 60)) (1 # 60) storm_ref late_mesh demo_heap)) with
  | Some u => u
  | None => late_uniforms
  end.

Definition indigo_uniforms : Uniforms :=
  mkUniforms 0 (1 # 2) (3 # 5) (2, 3 # 2) (mkColor (31 # 100) (27 # 100) (9 # 10)) (8 # 10) (2 # 10).

(** ** Theorems *)

(** C34: the fragment colour stays between the darkened and the
    brightened base colour plus the grid: each channel [c >= 0] of
    [uColor] gives an output channel in [[c/2, 3c/2 + 0.3]], whatever
    the elevation and the texture coordinates. *)
Theorem fragment_color_bounds `{SN : Sine} u vElevation uvx uvy :
  0 <= r (uColor u) -> 0 <= g (uColor u) -> 0 <= b (uColor u) ->
  let o := fragment_color u vElevation uvx uvy in
  r (uColor u) * (1 # 2) <= r o <= r (uColor u) * (3 # 2) + (3 # 10) /\
  g (uColor u) * (1 # 2) <= g o <= g (uColor u) * (3 # 2) + (3 # 10) /\
  b (uColor u) * (1 # 2) <= b o <= b (uColor u) * (3 # 2) + (3 # 10).
Proof.
  intros Hr Hg Hb. unfold fragment_color; cbn [r g b].
  pose proof (smoothstep_unit (-1) 1 vElevation).
  pose proof (grid_bounds (Qabs (sin (uvx * 100))) (Qabs (sin (uvy * 100)))).
  refine (conj _ (conj _ _)); apply fragment_channel_bounds; assumption.
Qed.

Lemma fragment_color_bounds_witness :
  let o := fragment_color indigo_uniforms 0 0 0 in
  (31 # 100) * (1 # 2) <= r o <= (31 # 100) * (3 # 2) + (3 # 10) /\
  (27 # 100) * (1 # 2) <= g o <= (27 # 100) * (3 # 2) + (3 # 10) /\
  (9 # 10) * (1 # 2) <= b o <= (9 # 10) * (3 # 2) + (3 # 10).
Proof.
  apply (fragment_color_bounds indigo_uniforms 0 0 0);
    apply Qle_bool_imp_le; vm_compute; reflexivity.
Defined.

(** C9: the noise time is recomputed, not integrated.  A frame at clock
    [T + delta] from uniforms at clock [T] whose speed is the live speed
    advances the phase [uTime * uSpeed] by [delta * uSpeed'] plus
    [T * 2 delta * (target speed - live speed)]: while the speed is
    being smoothed the per-frame advance grows linearly with the
    session time [T], and the surface races through the noise. *)
Theorem frame_phase_advance `{CS : ColorStyle} config m h u u' T delta :
  material m = Some u -> uTime u == T -> uSpeed u == speed (currentConfig m) ->
  material (fst (frame (T + delta) delta config m h)) = Some u' ->
  phase u' - phase u ==
  delta * uSpeed u' + T * (2 * delta) * (speed config - speed (currentConfig m)).
Proof.
  intros Hm HT HS Hu'. unfold frame in Hu'. rewrite Hm in Hu'. cbn [fst material] in Hu'.
  injection Hu' as <-. unfold phase; cbn [uTime uSpeed].
  rewrite HT, HS. unfold lerp, lerpFactor. ring.
Qed.

(** Ten minutes into a session, the first frame toward the storm
    configuration moves the phase by more than 70, against [1/120] per
    frame at rest. *)
Lemma frame_phase_advance_witness :
  70 <= phase late_storm_uniforms - phase late_uniforms.
Proof.
  rewrite (frame_phase_advance storm_ref late_mesh demo_heap late_uniforms late_storm_uniforms
             600 (1 # 60) eq_refl (Qeq_refl _) (Qeq_refl _) eq_refl).
  apply Qle_bool_imp_le; vm_compute; reflexivity.
Defined.

Section Tear.
Context `{SN : Sine}.

(** C12: the seam of [cnoise] tears the surface.  For the uniforms the
    first frame writes for the initial configuration (clock 2.8), the
    elevation the vertex shader gives along [pz = 0.4] is not continuous
    at [px = 1], whatever [sin] is. *)
Theorem vertex_tears :
  ~ continuous_at (fun px => vertex_elevation first_frame_uniforms px (2 # 5)) 1.
Proof.
  intros Hc. destruct (Hc (1 # 10)) as (d & Hd & Hx); [lra|].
  pose proof (Q.le_min_l d (1 # 100)). pose proof (Q.le_min_r d (1 # 100)).
  destruct (cnoise_seam_gap (Qmin d (1 # 100)) ltac:(apply Q.min_glb_lt; lra))
    as (x & Hx1 & Hgap).
  specialize (Hx x ltac:(rewrite Qabs_neg; lra)). cbv beta in Hx.
  unfold vertex_elevation in Hx.
  set (U := first_frame_uniforms) in Hx.
  assert (Hfx : fst (uFrequency U) == 2) by (apply Qeq_bool_iff; vm_compute; reflexivity).
  assert (Hfy : snd (uFrequency U) == 3 # 2) by (apply Qeq_bool_iff; vm_compute; reflexivity).
  assert (Hph : phase U == 7 # 5) by (apply Qeq_bool_iff; vm_compute; reflexivity).
  assert (He : uElevation U == 3 # 5) by (apply Qeq_bool_iff; vm_compute; reflexivity).
  set (fx := fst (uFrequency U)) in *. set (fy := snd (uFrequency U)) in *.
  set (ph := phase U) in *. set (e := uElevation U) in *.
  assert (N : forall p, cnoise (mkVec3 (p * fx * (1 # 2)) ((2 # 5) * fy * (1 # 2)) (ph * (1 # 2)))
                        == cnoise (mkVec3 p (3 # 10) (7 # 10))).
  { intros p. apply cnoise_Proper. unfold vec3_equiv; cbn [vx vy vz].
    rewrite Hfx, Hfy, Hph. repeat split; ring. }
  rewrite !N, He in Hx.
  pose proof (sine_product_lipschitz (x * fx - ph) (1 * fx - ph) ((2 # 5) * fy - ph)) as HS.
  setoid_replace (x * fx - ph - (1 * fx - ph)) with (2 * (x - 1)) using relation Qeq in HS
    by (rewrite Hfx; ring).
  rewrite (Qabs_neg (2 * (x - 1))) in HS by lra.
  apply Qabs_Qle_condition in HS. apply Qabs_Qlt_condition in Hx.
  clearbody fx fy ph e U. revert Hgap. apply Qabs_case; intros; lra.
Qed.

End Tear.

End Stage.
