(* ===== verification/JsNumber.v ===== *)
(** * JsNumber: JavaScript numbers, [ToNumber] and the colour of a value

    The render loop of [src/components/WaveScene.tsx] does arithmetic on
    the fields of the App's configuration with [THREE.MathUtils.lerp],
    whose body [(1 - t) * x + t * y] applies JavaScript's [*] and [+]
    to whatever the fields hold.  The service ([Gemini]) fills those
    fields with the values of the parsed reply, so a field the reply
    lacks is [undefined].  This file gives the JavaScript side:
    - [num]: a JavaScript number, a rational or [NaN] (no infinities:
      nothing the program computes overflows a double);
    - [to_number]: the language's [ToNumber] on the values [JSON.parse]
      builds, with [StringToNumber] for strings as an interface;
    - [jsv]: what a field of a live JavaScript object holds, a parsed
      value or a number computed by the program;
    - [num_add], [num_sub], [num_mul] and [lerp_js], the arithmetic with
      [NaN] absorbing;
    - [color_of_jsv]: [new THREE.Color(value)], which takes a string
      through [setStyle] ([ColorStyle]), a number through [setHex] (its
      32-bit [>>] and [&] written out on [Z]) and leaves anything else
      at the default white. *)

From Stdlib Require Import ZArith Lia QArith Qround String List.
From S2P Require Import Prelude Types Lerp Gemini.

Import ListNotations.
Import MathUtils ThreeColor GeminiService.

Module JsNum.

Local Open Scope Q_scope.

(** A JavaScript number. *)
Inductive num : Type :=
| Fin (q : Q)
| NaN.

(** [StringToNumber] of the language, for strings. *)
Class StringToNumber : Type := string_to_number : string -> num.

Section Coerce.
Context `{SN : StringToNumber}.

(** [ToNumber(v)].  An array goes through [ToPrimitive], i.e. [join]:
    [[]] is [""], so 0; [[w]] is [String(w)], which is [""] for [null]
    and [undefined], a non-numeric word for booleans and objects, and
    converts back to [w] for numbers, strings and arrays; two or more
    elements join with a comma, never numeric. *)
Fixpoint to_number (v : jsval) : num :=
  match v with
  | JUndefined => NaN
  | JNull => Fin 0
  | JBool b => Fin (if b then 1 else 0)
  | JNum q => Fin q
  | JStr s => string_to_number s
  | JArr [] => Fin 0
  | JArr [w] =>
      match w with
      | JUndefined | JNull => Fin 0
      | JBool _ | JObj _ => NaN
      | _ => to_number w
      end
  | JArr _ => NaN
  | JObj _ => NaN
  end.

End Coerce.

(** A field of a live object: a value [JSON.parse] produced, or a number
    the program computed. *)
Inductive jsv : Type :=
| JSVal (v : jsval)
| JSNum (n : num).

Definition jsv_number `{StringToNumber} (v : jsv) : num :=
  match v with
  | JSVal w => to_number w
  | JSNum n => n
  end.

(** The arithmetic operators on numbers. *)
Definition num_bin (f : Q -> Q -> Q) (a b : num) : num :=
  match a, b with
  | Fin p, Fin q => Fin (f p q)
  | _, _ => NaN
  end.

Definition num_add := num_bin Qplus.
Definition num_sub := num_bin Qminus.
Definition num_mul := num_bin Qmult.

(** [THREE.MathUtils.lerp(x, y, t)]: [(1 - t) * x + t * y]. *)
Definition lerp_js (x y t : num) : num :=
  num_add (num_mul (num_sub (Fin 1) t) x) (num_mul t y).

Definition is_nan (n : num) : bool := match n with NaN => true | Fin _ => false end.

(** ** [new THREE.Color(value)] *)

Local Open Scope Z_scope.

(** [ToInt32] on an integer. *)
Definition to_int32 (z : Z) : Z :=
  let m := z mod 2 ^ 32 in
  if m >=? 2 ^ 31 then m - 2 ^ 32 else m.

(** [(v >> s) & 255] *)
Definition byte_at (v : Z) (s : Z) : Z := Z.land (Z.shiftr (to_int32 v) s) 255.

(** [Color.setHex(hex)]: [hex = Math.floor(hex)], then each channel is a
    byte of it over 255 ([Math.floor(NaN)] is [NaN], and [ToInt32(NaN)]
    is 0). *)
Definition set_hex (n : num) : Color :=
  let h := match n with Fin q => Qfloor q | NaN => 0 end in
  mkColor (inject_Z (byte_at h 16) / inject_Z 255)
          (inject_Z (byte_at h 8) / inject_Z 255)
          (inject_Z (byte_at h 0) / inject_Z 255).

(** [new THREE.Color(value)]: [set(value)] on the default white. *)
Definition color_of_jsv `{ColorStyle} `{StringToNumber} (v : jsv) : Color :=
  match v with
  | JSVal (JStr s) => color_of_style s
  | JSVal (JNum q) => set_hex (Fin q)
  | JSNum n => set_hex n
  | JSVal _ => white
  end.

Local Close Scope Z_scope.

(** [StringToNumber] on the strings of the fixtures: colours such as
    ["#4f46e5"] and words, none of them a numeric literal, so [NaN] is the
    language's value on each. *)
Definition fixture_strings : StringToNumber := fun _ => NaN.

(** ** Lemmas *)

Lemma lerp_js_Fin x y t : lerp_js (Fin x) (Fin y) (Fin t) = Fin (lerp x y t).
Proof. reflexivity. Qed.

Lemma lerp_js_NaN_l y t : lerp_js NaN y t = NaN.
Proof. destruct y, t; reflexivity. Qed.

Lemma lerp_js_NaN_r x t : lerp_js x NaN t = NaN.
Proof. destruct x, t; reflexivity. Qed.

(** The result is a number exactly when both ends are (for a number [t]). *)
Lemma lerp_js_nan x y q : is_nan (lerp_js x y (Fin q)) = is_nan x || is_nan y.
Proof. destruct x, y; reflexivity. Qed.

Lemma to_number_JNum `{StringToNumber} q : to_number (JNum q) = Fin q.
Proof. reflexivity. Qed.

(** Adding a multiple of [2^32] does not change a byte of the low 32
    bits: [ToInt32]'s wrap-around is invisible to [setHex]. *)
Lemma byte_wrap (z k s : Z) :
  (0 <= s <= 16)%Z ->
  Z.land (Z.shiftr (z + k * 2 ^ 32) s) 255 = Z.land (Z.shiftr z s) 255.
Proof.
  intros Hs.
  change 255%Z with (Z.ones 8). rewrite !Z.land_ones by lia.
  rewrite !Z.shiftr_div_pow2 by lia.
  replace (k * 2 ^ 32)%Z with ((k * 2 ^ (32 - s - 8) * 2 ^ 8) * 2 ^ s)%Z
    by (rewrite <- !Z.mul_assoc, <- !Z.pow_add_r by lia; f_equal; f_equal; lia).
  rewrite Z.div_add by (apply Z.pow_nonzero; lia).
  apply Z.mod_add. apply Z.pow_nonzero; lia.
Qed.

Lemma to_int32_wrap z : exists k, to_int32 z = (z + k * 2 ^ 32)%Z.
Proof.
  unfold to_int32. pose proof (Z.div_mod z (2 ^ 32) ltac:(lia)) as E.
  destruct (_ mod _ >=? _)%Z.
  - exists (- (z / 2 ^ 32) - 1)%Z. lia.
  - exists (- (z / 2 ^ 32))%Z. lia.
Qed.

Lemma byte_at_wrap z s : (0 <= s <= 16)%Z -> byte_at z s = Z.land (Z.shiftr z s) 255.
Proof.
  intros Hs. unfold byte_at. destruct (to_int32_wrap z) as [k ->]. apply byte_wrap, Hs.
Qed.

End JsNum.
