(* ===== verification/JsFrame.v ===== *)
(** * JsFrame: the [useFrame] callback on JavaScript values

    [RenderLoop.WaveMesh.frame] runs the callback of
    [src/components/WaveScene.tsx] (lines 161-188) on a configuration whose
    fields have the types [types.ts] declares.  At run time the App's
    [waveConfig] is whatever [analyzeThought] returned: the parsed reply's
    values, [undefined] for a field the reply lacks.  [JsMesh.frame_js] is
    the same callback on [jsv] fields with [JsNum]'s arithmetic, so that
    [NaN] can appear; the live [currentConfig] and the uniforms hold
    [num]s.

    Theorems: a simulation ([frame_js_refines]): on fields that hold the
    numbers of a rational state, [frame_js] does what [WaveMesh.frame]
    does; [NaN] is absorbing ([frame_js_keeps_nan]): once a live field is
    [NaN] no later frame repairs it, whatever the target; a target field
    that is not numeric makes the live field [NaN] in one frame, whatever
    [delta]; numeric targets keep the live state numeric. *)

From Stdlib Require Import ZArith Lia QArith String List.
From stdpp Require Import gmap.
From S2P Require Import Prelude Types Lerp RenderLoop Gemini JsNumber.

Local Open Scope Q_scope.

Import MathUtils ThreeColor WaveMesh GeminiService JsNum.

Module JsMesh.

(** A configuration object on JavaScript values, [frequency] by reference. *)
Definition JsConfig : Type := WaveConfigT jsv jsv loc.

(** The [frequency] objects, with JavaScript fields. *)
Abbreviation JsHeap := (gmap positive (FrequencyT jsv)).

Definition undefined_freq : FrequencyT jsv := mkFrequency (JSVal JUndefined) (JSVal JUndefined).

(** [obj.frequency] (never missing in a state the App reaches). *)
Definition read_freq_js (h : JsHeap) (l : loc) : FrequencyT jsv :=
  match h !! l with Some f => f | None => undefined_freq end.

(** The uniforms as JavaScript holds them: [uMetalness] receives the raw
    field (line 186). *)
Record JsUniforms : Type := mkJsUniforms {
  ju_time : Q;
  ju_speed : num;
  ju_elevation : num;
  ju_frequency : num * num;
  ju_color : Color;
  ju_metalness : jsv;
  ju_roughness : num
}.

Record JsMeshState : Type := mkJsMesh {
  jmaterial : option JsUniforms;
  jcurrent : JsConfig
}.

Section Frame.
Context `{CS : ColorStyle} `{SN : StringToNumber}.

(** Lines 161-188 on JavaScript values, statement by statement. *)
Definition frame_js (elapsed delta : Q) (config : JsConfig) (m : JsMeshState) (h : JsHeap)
  : JsMeshState * JsHeap :=
  match jmaterial m with
  | None => (m, h)
  | Some u =>
      let k := lerpFactor delta in
      let cur := jcurrent m in
      let speed' := lerp_js (jsv_number (speed cur)) (jsv_number (speed config)) (Fin k) in
      let elevation' := lerp_js (jsv_number (elevation cur)) (jsv_number (elevation config)) (Fin k) in
      let roughness' := lerp_js (jsv_number (roughness cur)) (jsv_number (roughness config)) (Fin k) in
      let l := frequency cur in
      let f0 := read_freq_js h l in
      let h1 := <[l := mkFrequency
                         (JSNum (lerp_js (jsv_number (x f0))
                                         (jsv_number (x (read_freq_js h (frequency config)))) (Fin k)))
                         (y f0)]> h in
      let f1 := read_freq_js h1 l in
      let h2 := <[l := mkFrequency (x f1)
                         (JSNum (lerp_js (jsv_number (y f1))
                                         (jsv_number (y (read_freq_js h1 (frequency config)))) (Fin k)))]> h1 in
      let currentColor := color_lerp (ju_color u) (color_of_jsv (color config)) k in
      let f2 := read_freq_js h2 l in
      let u' := mkJsUniforms elapsed speed' elevation' (jsv_number (x f2), jsv_number (y f2))
                             currentColor (metalness config) roughness' in
      let cur' := mkWaveConfig (JSNum speed') (JSNum elevation') l (color cur)
                               (JSNum roughness') (metalness cur) in
      (mkJsMesh (Some u') cur', h2)
  end.

Fixpoint run_frames_js (ticks : list (Q * Q)) (config : JsConfig) (m : JsMeshState) (h : JsHeap)
  : JsMeshState * JsHeap :=
  match ticks with
  | nil => (m, h)
  | (t, d) :: rest =>
      let mh := frame_js t d config m h in
      run_frames_js rest config (fst mh) (snd mh)
  end.

(** ** The relation to the rational model *)

(** [v] holds the number [q]. *)
Definition holds (v : jsv) (q : Q) : Prop := jsv_number v = Fin q.

Definition freq_rel (f : Frequency) (jf : FrequencyT jsv) : Prop :=
  holds (x jf) (x f) /\ holds (y jf) (y f).

Definition heap_rel (h : Heap) (jh : JsHeap) : Prop :=
  forall l : loc, match h !! l, jh !! l with
            | Some f, Some jf => freq_rel f jf
            | None, None => True
            | _, _ => False
            end.

Definition config_rel (c : WaveConfigRef) (jc : JsConfig) : Prop :=
  holds (speed jc) (speed c) /\ holds (elevation jc) (elevation c) /\
  frequency jc = frequency c /\ color jc = JSVal (JStr (color c)) /\
  holds (roughness jc) (roughness c) /\ holds (metalness jc) (metalness c).

Definition uniforms_rel (u : Uniforms) (ju : JsUniforms) : Prop :=
  ju_time ju = uTime u /\ ju_speed ju = Fin (uSpeed u) /\ ju_elevation ju = Fin (uElevation u) /\
  ju_frequency ju = (Fin (fst (uFrequency u)), Fin (snd (uFrequency u))) /\
  ju_color ju = uColor u /\ holds (ju_metalness ju) (uMetalness u) /\
  ju_roughness ju = Fin (uRoughness u).

Definition mesh_rel (m : Mesh) (jm : JsMeshState) : Prop :=
  match material m, jmaterial jm with
  | Some u, Some ju => uniforms_rel u ju
  | None, None => True
  | _, _ => False
  end /\ config_rel (currentConfig m) (jcurrent jm).

Lemma read_freq_rel h jh l :
  heap_rel h jh -> h !! l <> None -> freq_rel (read_freq h l) (read_freq_js jh l).
Proof.
  intros Hr Hl. specialize (Hr l). unfold read_freq, read_freq_js.
  destruct (h !! l), (jh !! l); cbn in Hr; first [exact Hr | tauto | congruence].
Qed.

Lemma heap_rel_insert h jh l f jf :
  heap_rel h jh -> freq_rel f jf -> heap_rel (<[l := f]> h) (<[l := jf]> jh).
Proof.
  intros Hr Hf l'. destruct (decide (l = l')) as [<-|Hne].
  - rewrite !lookup_insert_eq. exact Hf.
  - rewrite !lookup_insert_ne by exact Hne. apply Hr.
Qed.

Lemma heap_rel_dom h jh (l : loc) : heap_rel h jh -> h !! l <> None -> jh !! l <> None.
Proof. intros Hr Hl. specialize (Hr l). destruct (h !! l), (jh !! l); cbn in Hr; first [tauto | congruence]. Qed.

Lemma lookup_insert_not_None (h : JsHeap) (l l' : loc) v :
  h !! l' <> None -> <[l := v]> h !! l' <> None.
Proof.
  intros Hl. destruct (decide (l = l')) as [<-|Hne].
  - rewrite lookup_insert_eq. discriminate.
  - rewrite lookup_insert_ne by exact Hne. exact Hl.
Qed.

Lemma heap_lookup_insert_not_None (h : Heap) (l l' : loc) v :
  h !! l' <> None -> <[l := v]> h !! l' <> None.
Proof.
  intros Hl. destruct (decide (l = l')) as [<-|Hne].
  - rewrite lookup_insert_eq. discriminate.
  - rewrite lookup_insert_ne by exact Hne. exact Hl.
Qed.

Lemma lerp_holds a b p q k :
  holds a p -> holds b q -> lerp_js (jsv_number a) (jsv_number b) (Fin k) = Fin (lerp p q k).
Proof. unfold holds. intros -> ->. reflexivity. Qed.

Lemma holds_JSNum q : holds (JSNum (Fin q)) q.
Proof. reflexivity. Qed.

(** Line 172 on both sides. *)
Lemma heap_rel_write_x h jh (l lc : loc) k :
  heap_rel h jh -> h !! l <> None -> h !! lc <> None ->
  heap_rel (<[l := mkFrequency (lerp (x (read_freq h l)) (x (read_freq h lc)) k)
                               (y (read_freq h l))]> h)
           (<[l := mkFrequency (JSNum (lerp_js (jsv_number (x (read_freq_js jh l)))
                                               (jsv_number (x (read_freq_js jh lc))) (Fin k)))
                               (y (read_freq_js jh l))]> jh).
Proof.
  intros Hh Hl Hlc.
  destruct (read_freq_rel h jh l Hh Hl) as [Hx Hy].
  destruct (read_freq_rel h jh lc Hh Hlc) as [Hx' _].
  apply heap_rel_insert; [exact Hh|]. split; [|exact Hy].
  unfold holds; cbn [x jsv_number]. rewrite (lerp_holds _ _ _ _ k Hx Hx'). reflexivity.
Qed.

(** Line 173 on both sides. *)
Lemma heap_rel_write_y h jh (l lc : loc) k :
  heap_rel h jh -> h !! l <> None -> h !! lc <> None ->
  heap_rel (<[l := mkFrequency (x (read_freq h l))
                               (lerp (y (read_freq h l)) (y (read_freq h lc)) k)]> h)
           (<[l := mkFrequency (x (read_freq_js jh l))
                               (JSNum (lerp_js (jsv_number (y (read_freq_js jh l)))
                                               (jsv_number (y (read_freq_js jh lc))) (Fin k)))]> jh).
Proof.
  intros Hh Hl Hlc.
  destruct (read_freq_rel h jh l Hh Hl) as [Hx Hy].
  destruct (read_freq_rel h jh lc Hh Hlc) as [_ Hy'].
  apply heap_rel_insert; [exact Hh|]. split; [exact Hx|].
  unfold holds; cbn [y jsv_number]. rewrite (lerp_holds _ _ _ _ k Hy Hy'). reflexivity.
Qed.

(** ** The frame, field by field *)

Lemma read_freq_js_insert (h : JsHeap) (l l' : loc) f :
  read_freq_js (<[l := f]> h) l' = if decide (l = l') then f else read_freq_js h l'.
Proof.
  unfold read_freq_js. case_decide as E.
  - subst. by rewrite lookup_insert_eq.
  - by rewrite lookup_insert_ne.
Qed.

(** The number a field of a [frequency] object holds. *)
Definition fx_num (f : FrequencyT jsv) : num := jsv_number (x f).
Definition fy_num (f : FrequencyT jsv) : num := jsv_number (y f).

Section FrameJsLemmas.
Variables (elapsed delta : Q) (config : JsConfig) (m : JsMeshState) (h : JsHeap) (u : JsUniforms).
Hypothesis Hmat : jmaterial m = Some u.

Let k := Fin (lerpFactor delta).
Let cur := jcurrent m.
Let l := frequency cur.
Let g := read_freq_js h (frequency config).

(** One write, at the object [currentConfig] points to, of both
    smoothed coordinates (the [y] of line 173 reads the target after the
    write of line 172, which changes only [x]). *)
Lemma frame_js_heap :
  snd (frame_js elapsed delta config m h) =
  <[l := mkFrequency (JSNum (lerp_js (fx_num (read_freq_js h l)) (fx_num g) k))
                     (JSNum (lerp_js (fy_num (read_freq_js h l)) (fy_num g) k))]> h.
Proof.
  unfold frame_js. rewrite Hmat. cbn -[lerp_js].
  rewrite (read_freq_js_insert h l l), decide_True by reflexivity. cbn [x y].
  rewrite insert_insert_eq. unfold fx_num, fy_num, g, l, cur.
  rewrite read_freq_js_insert. case_decide as E; [rewrite <- E|]; reflexivity.
Qed.

Lemma frame_js_current :
  jcurrent (fst (frame_js elapsed delta config m h)) =
  mkWaveConfig (JSNum (lerp_js (jsv_number (speed cur)) (jsv_number (speed config)) k))
               (JSNum (lerp_js (jsv_number (elevation cur)) (jsv_number (elevation config)) k))
               l (color cur)
               (JSNum (lerp_js (jsv_number (roughness cur)) (jsv_number (roughness config)) k))
               (metalness cur).
Proof. unfold frame_js. rewrite Hmat. reflexivity. Qed.

Lemma frame_js_material :
  jmaterial (fst (frame_js elapsed delta config m h)) =
  Some (mkJsUniforms elapsed
          (lerp_js (jsv_number (speed cur)) (jsv_number (speed config)) k)
          (lerp_js (jsv_number (elevation cur)) (jsv_number (elevation config)) k)
          (fx_num (read_freq_js (snd (frame_js elapsed delta config m h)) l),
           fy_num (read_freq_js (snd (frame_js elapsed delta config m h)) l))
          (color_lerp (ju_color u) (color_of_jsv (color config)) (lerpFactor delta))
          (metalness config)
          (lerp_js (jsv_number (roughness cur)) (jsv_number (roughness config)) k)).
Proof. unfold frame_js. rewrite Hmat. reflexivity. Qed.

End FrameJsLemmas.

Lemma frame_js_unmounted t d jc jm jh : jmaterial jm = None -> frame_js t d jc jm jh = (jm, jh).
Proof. intros Hm. unfold frame_js. rewrite Hm. reflexivity. Qed.

Lemma run_frames_js_cons t d rest jc jm jh :
  run_frames_js ((t, d) :: rest) jc jm jh =
  run_frames_js rest jc (fst (frame_js t d jc jm jh)) (snd (frame_js t d jc jm jh)).
Proof. reflexivity. Qed.

(** Cx: refinement.  On a JavaScript state whose fields hold the numbers
    of a rational state (and whose colours are the same strings), one
    [useFrame] callback on JavaScript values does what the rational
    [WaveMesh.frame] does: the two results are again related, uniforms
    included.  (Both [frequency] objects must exist, as they do in every
    state the App reaches.) *)
Theorem frame_js_refines elapsed delta c jc m jm h jh :
  config_rel c jc -> mesh_rel m jm -> heap_rel h jh ->
  h !! frequency (currentConfig m) <> None -> h !! frequency c <> None ->
  mesh_rel (fst (frame elapsed delta c m h)) (fst (frame_js elapsed delta jc jm jh)) /\
  heap_rel (snd (frame elapsed delta c m h)) (snd (frame_js elapsed delta jc jm jh)).
Proof.
  intros Hc Hm Hh Hl Hlc. pose proof Hm as [Hmat Hcur].
  destruct Hc as (Hs & He & Hf & Hcol & Hr & Hme).
  destruct Hcur as (Hs0 & He0 & Hf0 & Hcol0 & Hr0 & Hme0).
  unfold frame, frame_js.
  destruct (material m) as [u|], (jmaterial jm) as [ju|]; try contradiction; [|split; assumption].
  cbv zeta. rewrite Hf, Hf0.
  set (l := frequency (currentConfig m)) in *. set (lc := frequency c) in *.
  set (k := lerpFactor delta).
  pose proof (heap_rel_write_x h jh l lc k Hh Hl Hlc) as H1.
  set (h1 := <[l := mkFrequency (lerp (x (read_freq h l)) (x (read_freq h lc)) k)
                                (y (read_freq h l))]> h) in *.
  set (jh1 := <[l := mkFrequency (JSNum (lerp_js (jsv_number (x (read_freq_js jh l)))
                                                 (jsv_number (x (read_freq_js jh lc))) (Fin k)))
                                 (y (read_freq_js jh l))]> jh) in *.
  assert (Hl1 : h1 !! l <> None) by (apply heap_lookup_insert_not_None, Hl).
  assert (Hlc1 : h1 !! lc <> None) by (apply heap_lookup_insert_not_None, Hlc).
  pose proof (heap_rel_write_y h1 jh1 l lc k H1 Hl1 Hlc1) as H2.
  set (h2 := <[l := mkFrequency (x (read_freq h1 l))
                                (lerp (y (read_freq h1 l)) (y (read_freq h1 lc)) k)]> h1) in *.
  set (jh2 := <[l := mkFrequency (x (read_freq_js jh1 l))
                                 (JSNum (lerp_js (jsv_number (y (read_freq_js jh1 l)))
                                                 (jsv_number (y (read_freq_js jh1 lc))) (Fin k)))]> jh1) in *.
  assert (Hl2 : h2 !! l <> None) by (apply heap_lookup_insert_not_None, Hl1).
  destruct (read_freq_rel h2 jh2 l H2 Hl2) as [Fx Fy].
  destruct Hmat as (Ht & Hsp & Hel & Hfr & Hco & Hmt & Hro).
  split; [|exact H2]. split; cbn [material jmaterial currentConfig jcurrent].
  - unfold uniforms_rel; cbn [ju_time ju_speed ju_elevation ju_frequency ju_color ju_metalness
                              ju_roughness uTime uSpeed uElevation uFrequency uColor uMetalness
                              uRoughness fst snd].
    unfold holds in Fx, Fy. rewrite Fx, Fy, Hcol, Hco.
    rewrite (lerp_holds _ _ _ _ k Hs0 Hs), (lerp_holds _ _ _ _ k He0 He),
            (lerp_holds _ _ _ _ k Hr0 Hr).
    repeat split; exact Hme.
  - unfold config_rel, holds; cbn [speed elevation frequency color roughness metalness jsv_number].
    rewrite (lerp_holds _ _ _ _ k Hs0 Hs), (lerp_holds _ _ _ _ k He0 He),
            (lerp_holds _ _ _ _ k Hr0 Hr).
    repeat split; assumption.
Qed.

(** ** Runs of frames *)

Lemma frame_keeps_alloc t d c m h (l' : loc) :
  h !! l' <> None -> snd (frame t d c m h) !! l' <> None.
Proof.
  intros Hl. destruct (material m) as [u|] eqn:E.
  - rewrite (frame_heap t d c m h u E). apply heap_lookup_insert_not_None, Hl.
  - rewrite frame_unmounted by exact E. exact Hl.
Qed.

Lemma frame_current_frequency t d c m h :
  frequency (currentConfig (fst (frame t d c m h))) = frequency (currentConfig m).
Proof.
  destruct (material m) as [u|] eqn:E.
  - rewrite (frame_currentConfig t d c m h u E). reflexivity.
  - rewrite frame_unmounted by exact E. reflexivity.
Qed.


(** ** [NaN] *)

(** The live speed is [NaN] and so is the speed uniform. *)
Definition speed_poisoned (jm : JsMeshState) : Prop :=
  jsv_number (speed (jcurrent jm)) = NaN /\
  exists ju, jmaterial jm = Some ju /\ ju_speed ju = NaN.

Lemma frame_js_speed_poisoned t d jc jm jh :
  speed_poisoned jm -> speed_poisoned (fst (frame_js t d jc jm jh)).
Proof.
  intros [Hs (ju & Hju & _)]. split.
  - rewrite (frame_js_current t d jc jm jh ju Hju). cbn [speed jsv_number].
    rewrite Hs. apply lerp_js_NaN_l.
  - eexists. split; [apply (frame_js_material t d jc jm jh ju Hju)|].
    cbn [ju_speed]. rewrite Hs. apply lerp_js_NaN_l.
Qed.

Lemma run_frames_js_speed_poisoned ticks jc jm jh :
  speed_poisoned jm -> speed_poisoned (fst (run_frames_js ticks jc jm jh)).
Proof.
  revert jm jh. induction ticks as [|[t d] rest IH]; intros jm jh Hp; [exact Hp|].
  rewrite run_frames_js_cons. apply IH, frame_js_speed_poisoned, Hp.
Qed.

(** C16: a target speed that is not a number poisons the render loop for
    good.  One frame toward a configuration whose [speed] converts to
    [NaN] (a reply without [speed] gives [undefined]) makes the live
    speed and the [uSpeed] uniform [NaN], whatever [delta]; every later
    run of frames, toward any configuration, well-formed ones included,
    leaves them [NaN]. *)
Theorem speed_poisoned_forever t d jc jm jh ju ticks jc' :
  jmaterial jm = Some ju -> jsv_number (speed jc) = NaN ->
  speed_poisoned
    (fst (run_frames_js ticks jc' (fst (frame_js t d jc jm jh)) (snd (frame_js t d jc jm jh)))).
Proof.
  intros Hju Hs. apply run_frames_js_speed_poisoned. split.
  - rewrite (frame_js_current t d jc jm jh ju Hju). cbn [speed jsv_number].
    rewrite Hs. apply lerp_js_NaN_r.
  - eexists. split; [apply (frame_js_material t d jc jm jh ju Hju)|].
    cbn [ju_speed]. rewrite Hs. apply lerp_js_NaN_r.
Qed.

(** ** Numeric targets keep the state numeric *)

Definition numeric (v : jsv) : Prop := is_nan (jsv_number v) = false.

Definition heap_numeric (jh : JsHeap) : Prop :=
  forall (l : loc) f, jh !! l = Some f -> numeric (x f) /\ numeric (y f).

Definition config_numeric (jc : JsConfig) : Prop :=
  numeric (speed jc) /\ numeric (elevation jc) /\ numeric (roughness jc).

Definition uniforms_numeric (ju : JsUniforms) : Prop :=
  is_nan (ju_speed ju) = false /\ is_nan (ju_elevation ju) = false /\
  is_nan (fst (ju_frequency ju)) = false /\ is_nan (snd (ju_frequency ju)) = false /\
  is_nan (ju_roughness ju) = false.

Definition mesh_numeric (jm : JsMeshState) : Prop :=
  config_numeric (jcurrent jm) /\
  match jmaterial jm with Some ju => uniforms_numeric ju | None => True end.

Lemma read_freq_js_numeric jh (l : loc) :
  heap_numeric jh -> jh !! l <> None ->
  is_nan (fx_num (read_freq_js jh l)) = false /\ is_nan (fy_num (read_freq_js jh l)) = false.
Proof.
  intros Hn Hl. unfold read_freq_js. destruct (jh !! l) as [f|] eqn:E; [|congruence].
  exact (Hn l f E).
Qed.

Lemma lerp_js_numeric a b q :
  is_nan a = false -> is_nan b = false -> is_nan (lerp_js a b (Fin q)) = false.
Proof. intros Ha Hb. rewrite lerp_js_nan, Ha, Hb. reflexivity. Qed.

Lemma frame_js_numeric t d jc jm jh :
  config_numeric jc -> heap_numeric jh -> jh !! frequency jc <> None ->
  jh !! frequency (jcurrent jm) <> None -> mesh_numeric jm ->
  mesh_numeric (fst (frame_js t d jc jm jh)) /\ heap_numeric (snd (frame_js t d jc jm jh)).
Proof.
  intros Hc Hh Hlc Hl Hm.
  destruct (jmaterial jm) as [ju|] eqn:E; [|rewrite frame_js_unmounted by exact E; split; assumption].
  destruct Hc as (Cs & Ce & Cr), Hm as ((Ms & Me & Mr) & _).
  destruct (read_freq_js_numeric jh _ Hh Hl) as [X0 Y0].
  destruct (read_freq_js_numeric jh _ Hh Hlc) as [X1 Y1].
  assert (Hh' : heap_numeric (snd (frame_js t d jc jm jh))).
  { rewrite (frame_js_heap t d jc jm jh ju E). intros l' f Hf.
    destruct (decide (frequency (jcurrent jm) = l')) as [<-|Hne].
    - rewrite lookup_insert_eq in Hf. injection Hf as <-.
      split; apply lerp_js_numeric; assumption.
    - rewrite lookup_insert_ne in Hf by exact Hne. exact (Hh l' f Hf). }
  split; [|exact Hh']. split.
  - rewrite (frame_js_current t d jc jm jh ju E).
    repeat split; apply lerp_js_numeric; assumption.
  - rewrite (frame_js_material t d jc jm jh ju E).
    assert (Hl' : snd (frame_js t d jc jm jh) !! frequency (jcurrent jm) <> None).
    { rewrite (frame_js_heap t d jc jm jh ju E). apply lookup_insert_not_None, Hl. }
    destruct (read_freq_js_numeric _ _ Hh' Hl') as [X2 Y2].
    repeat split; first [apply lerp_js_numeric; assumption | assumption].
Qed.

Lemma frame_js_keeps_alloc t d jc jm jh (l' : loc) :
  jh !! l' <> None -> snd (frame_js t d jc jm jh) !! l' <> None.
Proof.
  intros Hl. destruct (jmaterial jm) as [ju|] eqn:E.
  - rewrite (frame_js_heap t d jc jm jh ju E). apply lookup_insert_not_None, Hl.
  - rewrite frame_js_unmounted by exact E. exact Hl.
Qed.

Lemma frame_js_current_frequency t d jc jm jh :
  frequency (jcurrent (fst (frame_js t d jc jm jh))) = frequency (jcurrent jm).
Proof.
  destruct (jmaterial jm) as [ju|] eqn:E.
  - rewrite (frame_js_current t d jc jm jh ju E). reflexivity.
  - rewrite frame_js_unmounted by exact E. reflexivity.
Qed.

(** C22: typing.  While the target's speed, elevation and roughness and
    every [frequency] object hold numbers, every run of frames keeps the
    live configuration, the [frequency] objects and all numeric uniforms
    numbers: [NaN] comes only from a non-numeric target field. *)
Theorem run_frames_js_numeric ticks jc jm jh :
  config_numeric jc -> heap_numeric jh -> jh !! frequency jc <> None ->
  jh !! frequency (jcurrent jm) <> None -> mesh_numeric jm ->
  mesh_numeric (fst (run_frames_js ticks jc jm jh)) /\
  heap_numeric (snd (run_frames_js ticks jc jm jh)).
Proof.
  revert jm jh. induction ticks as [|[t d] rest IH]; intros jm jh Hc Hh Hlc Hl Hm.
  - split; assumption.
  - rewrite run_frames_js_cons.
    destruct (frame_js_numeric t d jc jm jh Hc Hh Hlc Hl Hm) as [Hm' Hh'].
    apply IH; try assumption.
    + apply frame_js_keeps_alloc, Hlc.
    + rewrite frame_js_current_frequency. apply frame_js_keeps_alloc, Hl.
Qed.

End Frame.

(** ** Embedding the rational model, and fixtures *)

Definition js_of_q (q : Q) : jsv := JSNum (Fin q).

Definition js_of_ref (c : WaveConfigRef) : JsConfig :=
  mkWaveConfig (js_of_q (speed c)) (js_of_q (elevation c)) (frequency c) (JSVal (JStr (color c)))
               (js_of_q (roughness c)) (js_of_q (metalness c)).

Definition js_of_freq (f : Frequency) : FrequencyT jsv := mkFrequency (js_of_q (x f)) (js_of_q (y f)).

Definition js_of_heap (h : Heap) : JsHeap := fmap js_of_freq h.

Definition js_of_uniforms (u : Uniforms) : JsUniforms :=
  mkJsUniforms (uTime u) (Fin (uSpeed u)) (Fin (uElevation u))
               (Fin (fst (uFrequency u)), Fin (snd (uFrequency u))) (uColor u)
               (js_of_q (uMetalness u)) (Fin (uRoughness u)).

Definition js_of_mesh (m : Mesh) : JsMeshState :=
  mkJsMesh (option_map js_of_uniforms (material m)) (js_of_ref (currentConfig m)).

Lemma config_rel_js_of_ref `{StringToNumber} c : config_rel c (js_of_ref c).
Proof. repeat split. Qed.

Lemma heap_rel_js_of_heap `{StringToNumber} h : heap_rel h (js_of_heap h).
Proof.
  intros l. unfold js_of_heap. rewrite lookup_fmap.
  destruct (h !! l); cbn; [split; reflexivity | exact I].
Qed.

Lemma mesh_rel_js_of_mesh `{StringToNumber} m : mesh_rel m (js_of_mesh m).
Proof.
  split; [|apply config_rel_js_of_ref]. cbn.
  destruct (material m); cbn; [repeat split | exact I].
Qed.

Lemma heap_numeric_js_of_heap `{StringToNumber} h : heap_numeric (js_of_heap h).
Proof.
  intros l f Hf. unfold js_of_heap in Hf. rewrite lookup_fmap in Hf.
  destruct (h !! l); cbn in Hf; [injection Hf as <-; split; reflexivity | discriminate].
Qed.

#[local] Existing Instance fixture_strings.

(** The target after a reply without [speed]: [undefined] there, the
    storm's values elsewhere (as [JSON.parse] gives them). *)
Definition speedless_target : JsConfig :=
  mkWaveConfig (JSVal JUndefined) (JSVal (JNum 3)) 2%positive (JSVal (JStr "#ff0000"))
               (JSVal (JNum 1)) (JSVal (JNum 0)).

Definition two_ticks : list (Q * Q) := [(2, 1 # 60); (3, 1 # 60)].


Lemma speed_poisoned_forever_witness :
  speed_poisoned
    (fst (run_frames_js two_ticks (js_of_ref initial_ref)
            (fst (frame_js 1 (1 # 60) speedless_target (js_of_mesh demo_mesh) (js_of_heap demo_heap)))
            (snd (frame_js 1 (1 # 60) speedless_target (js_of_mesh demo_mesh) (js_of_heap demo_heap))))).
Proof.
  apply (speed_poisoned_forever 1 (1 # 60) speedless_target (js_of_mesh demo_mesh)
           (js_of_heap demo_heap) (js_of_uniforms initial_uniforms));
    reflexivity.
Defined.

Lemma run_frames_js_numeric_witness :
  mesh_numeric (fst (run_frames_js two_ticks (js_of_ref storm_ref) (js_of_mesh demo_mesh)
                                   (js_of_heap demo_heap))) /\
  heap_numeric (snd (run_frames_js two_ticks (js_of_ref storm_ref) (js_of_mesh demo_mesh)
                                   (js_of_heap demo_heap))).
Proof.
  apply run_frames_js_numeric;
    first [apply heap_numeric_js_of_heap | vm_compute; discriminate
          | split; [repeat split | cbn; repeat split]].
Defined.

End JsMesh.
