(* ===== verification/JsApp.v ===== *)
(** * JsApp: the page of [src/App.tsx] on JavaScript values

    [App.AppShell.step] follows the page while every reply has the types
    [types.ts] declares, and stops ([None]) on a reply that does not.
    [JsShell.step_js] is the same page on the values the program really
    holds: the App's [waveConfig] is the object [analyzeThought] returned
    ([store_visualization_js]: the parsed fields as they are, [undefined]
    for a missing one, in a fresh object with a fresh [frequency] object),
    [latestResponse] is the reply's value whatever its type, and the
    render loop is [JsFrame.JsMesh.frame_js].

    Theorems: the reachable states keep the invariant of the typed App
    (one outstanding request at most, the live [frequency] object is
    [INITIAL_WAVE_CONFIG]'s); every outstanding request ends on its
    completion whatever the reply; on typed replies the page on
    JavaScript values simulates the typed page ([step_js_refines]); and a
    reply without [speed] leaves the animation with a [NaN] speed in
    every state reachable after the next frame. *)

From Stdlib Require Import ZArith Lia QArith String Ascii List Bool.
From stdpp Require Import gmap.
From S2P Require Import Prelude Types Lerp RenderLoop Gemini App JsNumber JsFrame.

Local Open Scope Q_scope.
Import ListNotations.
Import MathUtils ThreeColor WaveMesh GeminiService AppShell JsNum JsMesh.

Module JsShell.

Record JsAppState : Type := mkJsApp {
  jwaveConfig : JsConfig;
  jisLoading : bool;
  jlatestResponse : option jsval;
  jinputText : string;
  jexpanded : bool;
  jpending : list string;
  jmesh : JsMeshState;
  jheap : JsHeap;
  jnext_loc : positive
}.

(** [INITIAL_WAVE_CONFIG] as an object: number literals and the colour
    string, [frequency] the object at [initial_loc]. *)
Definition js_initial_config : JsConfig := js_of_ref initial_ref.

Definition js_init : JsAppState :=
  mkJsApp js_initial_config false None EmptyString false nil
    (js_of_mesh (attach_material (mount initial_ref)))
    (js_of_heap {[initial_loc := frequency INITIAL_WAVE_CONFIG]}) 2%positive.

(** JavaScript truthiness of a parsed value. *)
Definition truthy (v : jsval) : bool :=
  match v with
  | JUndefined | JNull => false
  | JBool b => b
  | JNum q => negb (Qeq_bool q 0)
  | JStr s => negb (String.eqb s EmptyString)
  | JArr _ | JObj _ => true
  end.

(** The [useEffect] of Interface.tsx lines 23-28: the response box is
    rendered, and [expanded] set, when [latestResponse] is truthy. *)
Definition effect_expanded_js (resp : option jsval) (expanded : bool) : bool :=
  match resp with
  | Some v => if truthy v then true else expanded
  | None => expanded
  end.

(** [setWaveConfig(response.visualization)] (App.tsx line 20): the
    object the service built (geminiService.ts lines 61-70), with its
    fresh [frequency] object, or [INITIAL_WAVE_CONFIG] itself. *)
Definition store_visualization_js (v : Visualization) (h : JsHeap) (next : positive)
  : JsConfig * JsHeap * positive :=
  match v with
  | InitialConfigObject => (js_initial_config, h, next)
  | NewVisualization c =>
      (mkWaveConfig (JSVal (speed c)) (JSVal (elevation c)) next (JSVal (color c))
                    (JSVal (roughness c)) (JSVal (metalness c)),
       <[next := mkFrequency (JSVal (x (frequency c))) (JSVal (y (frequency c)))]> h,
       Pos.succ next)
  end.

(** App.tsx lines 18-27 after the [await], then Interface.tsx line 20. *)
Definition complete_js `{JsonParser} (result : GenerateResult) (input : string)
    (rest : list string) (s : JsAppState) : JsAppState :=
  let finish wc h next resp :=
    mkJsApp wc false resp EmptyString (effect_expanded_js resp (jexpanded s)) rest (jmesh s) h next in
  match @analyzeThought (fun _ => result) _ input with
  | Fulfilled r =>
      let '(wc, h, next) := store_visualization_js (visualization r) (jheap s) (jnext_loc s) in
      finish wc h next (Some (reply r))
  | Rejected _ => finish (jwaveConfig s) (jheap s) (jnext_loc s) (Some (JStr static_reply))
  end.

(** [handleSubmit] and [handleThoughtSubmit] up to its [await]. *)
Definition submit_js (s : JsAppState) : JsAppState :=
  if String.eqb (js_trim (jinputText s)) EmptyString || jisLoading s then s
  else mkJsApp (jwaveConfig s) true None (jinputText s) (jexpanded s)
               (jpending s ++ [jinputText s]) (jmesh s) (jheap s) (jnext_loc s).

Definition step_js `{JsonParser} `{ColorStyle} `{StringToNumber} (e : Event) (s : JsAppState)
  : option JsAppState :=
  match e with
  | TypeText t =>
      if jisLoading s then None
      else Some (mkJsApp (jwaveConfig s) (jisLoading s) (jlatestResponse s) t (jexpanded s)
                         (jpending s) (jmesh s) (jheap s) (jnext_loc s))
  | Submit => Some (submit_js s)
  | Complete result =>
      match jpending s with
      | nil => None
      | input :: rest => Some (complete_js result input rest s)
      end
  | Frame t d =>
      let mh := frame_js t d (jwaveConfig s) (jmesh s) (jheap s) in
      Some (mkJsApp (jwaveConfig s) (jisLoading s) (jlatestResponse s) (jinputText s)
                    (jexpanded s) (jpending s) (fst mh) (snd mh) (jnext_loc s))
  end.

Section Reach.
Context `{JsonParser} `{ColorStyle} `{StringToNumber}.

Inductive reachable_js : JsAppState -> Prop :=
| reach_js_init : reachable_js js_init
| reach_js_step e s s' : reachable_js s -> step_js e s = Some s' -> reachable_js s'.

End Reach.

Fixpoint run_events_js `{JsonParser} `{ColorStyle} `{StringToNumber} (es : list Event)
    (s : JsAppState) : option JsAppState :=
  match es with
  | nil => Some s
  | e :: rest => match step_js e s with Some s' => run_events_js rest s' | None => None end
  end.

Lemma run_events_js_reachable `{JsonParser} `{ColorStyle} `{StringToNumber} es s s' :
  reachable_js s -> run_events_js es s = Some s' -> reachable_js s'.
Proof.
  revert s. induction es as [|e es IH]; intros s Hr Hrun; cbn in Hrun.
  - injection Hrun as <-. exact Hr.
  - destruct (step_js e s) as [s1|] eqn:Hs; [|discriminate].
    exact (IH s1 (reach_js_step e s s1 Hr Hs) Hrun).
Qed.

(** ** The invariant of reachable states *)

Record js_inv (s : JsAppState) : Prop := {
  jinv_loading : jisLoading s = true <-> jpending s <> nil;
  jinv_single : (length (jpending s) <= 1)%nat;
  jinv_mounted : jmaterial (jmesh s) <> None;
  jinv_live_loc : frequency (jcurrent (jmesh s)) = initial_loc;
  jinv_initial_alloc : jheap s !! initial_loc <> None;
  jinv_target_alloc : jheap s !! frequency (jwaveConfig s) <> None;
  jinv_fresh : forall l, jheap s !! l <> None -> (l < jnext_loc s)%positive
}.

Lemma js_init_inv : js_inv js_init.
Proof.
  split; cbn; try discriminate.
  - split; [discriminate | intros []; reflexivity].
  - lia.
  - reflexivity.
  - intros l Hl. unfold js_of_heap in Hl. rewrite lookup_fmap in Hl.
    destruct (decide (l = initial_loc)) as [->|Hne]; [unfold initial_loc; lia|].
    rewrite lookup_insert_ne, lookup_empty in Hl by (unfold initial_loc in Hne; congruence).
    cbn in Hl. congruence.
Qed.

Lemma submit_js_inv s : js_inv s -> js_inv (submit_js s).
Proof.
  intros [HL H1 HM HLive HA HT HF]. unfold submit_js.
  destruct (String.eqb _ _ || jisLoading s) eqn:Hg; [split; assumption|].
  apply orb_false_iff in Hg as [_ Hl].
  assert (jpending s = nil) as Hp.
  { destruct (jpending s); [reflexivity|]. rewrite Hl in HL.
    assert (false = true) by (apply HL; discriminate). discriminate. }
  split; cbn; try assumption; rewrite ?Hp; cbn.
  - split; [intros _; discriminate | reflexivity].
  - lia.
Qed.

Lemma store_visualization_js_inv v h next :
  h !! initial_loc <> None -> (forall l, h !! l <> None -> (l < next)%positive) ->
  let '(wc, h', next') := store_visualization_js v h next in
  h' !! initial_loc <> None /\ h' !! frequency wc <> None /\
  (forall l, h' !! l <> None -> (l < next')%positive).
Proof.
  intros HA HF. destruct v as [c|]; cbn.
  - assert (Hne : next <> initial_loc) by (intros ->; specialize (HF _ HA); lia).
    split; [rewrite lookup_insert_ne by congruence; exact HA|].
    split; [rewrite lookup_insert_eq; discriminate|].
    intros l Hl. destruct (decide (l = next)) as [->|Hl']; [lia|].
    rewrite lookup_insert_ne in Hl by congruence. specialize (HF _ Hl). lia.
  - auto.
Qed.

Lemma complete_js_inv `{JsonParser} result input rest s :
  js_inv s -> jpending s = input :: rest -> js_inv (complete_js result input rest s).
Proof.
  intros [HL H1 HM HLive HA HT HF] Hp.
  assert (rest = nil) as -> by (rewrite Hp in H1; destruct rest; [reflexivity | cbn in H1; lia]).
  unfold complete_js.
  destruct (analyzeThought input) as [r|e].
  - pose proof (store_visualization_js_inv (visualization r) (jheap s) (jnext_loc s) HA HF) as Hs.
    destruct (store_visualization_js _ _ _) as [[wc h'] next'].
    destruct Hs as (? & ? & ?).
    split; cbn; try assumption; try lia.
    split; [discriminate | intros []; reflexivity].
  - split; cbn; try assumption; try lia.
    split; [discriminate | intros []; reflexivity].
Qed.

Lemma frame_js_inv `{ColorStyle} `{StringToNumber} t d s :
  js_inv s ->
  js_inv (mkJsApp (jwaveConfig s) (jisLoading s) (jlatestResponse s) (jinputText s) (jexpanded s)
                  (jpending s) (fst (frame_js t d (jwaveConfig s) (jmesh s) (jheap s)))
                  (snd (frame_js t d (jwaveConfig s) (jmesh s) (jheap s))) (jnext_loc s)).
Proof.
  intros [HL H1 HM HLive HA HT HF].
  destruct (jmaterial (jmesh s)) as [u|] eqn:Hm; [|congruence].
  pose proof (frame_js_heap t d (jwaveConfig s) (jmesh s) (jheap s) u Hm) as Hh.
  cbv zeta in Hh. rewrite HLive in Hh.
  assert (Hdom : forall l, snd (frame_js t d (jwaveConfig s) (jmesh s) (jheap s)) !! l <> None <->
                           jheap s !! l <> None).
  { intros l. rewrite Hh. destruct (decide (l = initial_loc)) as [->|Hne].
    - rewrite lookup_insert_eq. split; [intros _; exact HA | discriminate].
    - rewrite lookup_insert_ne by congruence. reflexivity. }
  split; cbn; try assumption.
  - rewrite (frame_js_material t d (jwaveConfig s) (jmesh s) (jheap s) u Hm). discriminate.
  - rewrite frame_js_current_frequency. exact HLive.
  - apply Hdom. exact HA.
  - apply Hdom. exact HT.
  - intros l Hl. apply HF, Hdom, Hl.
Qed.

Lemma step_js_inv `{JsonParser} `{ColorStyle} `{StringToNumber} e s s' :
  js_inv s -> step_js e s = Some s' -> js_inv s'.
Proof.
  intros Hi Hs. destruct e as [t| |result|t d]; cbn in Hs.
  - destruct (jisLoading s) eqn:Hl; [discriminate|]. injection Hs as <-.
    destruct Hi as [HL ? ? ? ? ? ?]. rewrite Hl in HL.
    split; cbn [jisLoading jpending jmesh jheap jwaveConfig jnext_loc]; assumption.
  - injection Hs as <-. apply submit_js_inv, Hi.
  - destruct (jpending s) as [|input rest] eqn:Hp; [discriminate|].
    injection Hs as <-. exact (complete_js_inv _ _ _ _ Hi Hp).
  - injection Hs as <-. apply frame_js_inv, Hi.
Qed.

Lemma reachable_js_inv `{JsonParser} `{ColorStyle} `{StringToNumber} s :
  reachable_js s -> js_inv s.
Proof. induction 1; [apply js_init_inv | eapply step_js_inv; eassumption]. Qed.

(** ** Simulation of the typed page *)

Record app_rel `{StringToNumber} (s : AppState) (js : JsAppState) : Prop := {
  rel_config : config_rel (waveConfig s) (jwaveConfig js);
  rel_loading : jisLoading js = isLoading s;
  rel_response : jlatestResponse js = option_map JStr (latestResponse s);
  rel_input : jinputText js = inputText s;
  rel_expanded : jexpanded js = expanded s;
  rel_pending : jpending js = pending s;
  rel_mesh : mesh_rel (mesh s) (jmesh js);
  rel_heap : heap_rel (heap s) (jheap js);
  rel_next : jnext_loc js = next_loc s
}.

Lemma app_rel_init `{StringToNumber} : app_rel init js_init.
Proof.
  split; try reflexivity; [apply config_rel_js_of_ref | apply mesh_rel_js_of_mesh
                          | apply heap_rel_js_of_heap].
Qed.

(** A configuration [typed_config] accepts holds numbers and a string. *)
Lemma typed_config_fields c w :
  typed_config c = Some w ->
  speed c = JNum (speed w) /\ elevation c = JNum (elevation w) /\
  x (frequency c) = JNum (x (frequency w)) /\ y (frequency c) = JNum (y (frequency w)) /\
  color c = JStr (color w) /\ roughness c = JNum (roughness w) /\ metalness c = JNum (metalness w).
Proof.
  unfold typed_config, num_of, str_of.
  destruct (speed c); try discriminate; destruct (elevation c); try discriminate;
  destruct (x (frequency c)); try discriminate; destruct (y (frequency c)); try discriminate;
  destruct (color c); try discriminate; destruct (roughness c); try discriminate;
  destruct (metalness c); try discriminate.
  intros E. injection E as <-. repeat split.
Qed.

Lemma store_visualization_rel `{StringToNumber} v h jh next wc h' next' :
  store_visualization v h next = Some (wc, h', next') -> heap_rel h jh ->
  let '(jwc, jh', jnext) := store_visualization_js v jh next in
  config_rel wc jwc /\ heap_rel h' jh' /\ jnext = next'.
Proof.
  intros Hs Hh. destruct v as [c|]; cbn in Hs |- *.
  - destruct (typed_config c) as [w|] eqn:Ht; [|discriminate]. injection Hs as <- <- <-.
    destruct (typed_config_fields c w Ht) as (Es & Ee & Ex & Ey & Ec & Er & Em).
    split; [|split; [|reflexivity]].
    + unfold config_rel, holds; cbn. rewrite Es, Ee, Ec, Er, Em. repeat split.
    + apply heap_rel_insert; [exact Hh|]. unfold freq_rel, holds; cbn. rewrite Ex, Ey. split; reflexivity.
  - injection Hs as <- <- <-. split; [apply config_rel_js_of_ref | split; [exact Hh | reflexivity]].
Qed.

(** Every step of the typed page is a step of the page on JavaScript
    values, from related states to related states. *)
Lemma step_js_refines `{JsonParser} `{ColorStyle} `{StringToNumber} e s s' js :
  app_inv s -> app_rel s js -> step e s = Some s' ->
  exists js', step_js e js = Some js' /\ app_rel s' js'.
Proof.
  intros Hi [Hc Hld Hresp Htxt Hexp Hpend Hm Hh Hn] Hs.
  destruct e as [t| |result|t d]; cbn in Hs |- *.
  - rewrite Hld. destruct (isLoading s); [discriminate|]. injection Hs as <-.
    eexists; split; [reflexivity|]. split; cbn; first [assumption | reflexivity].
  - injection Hs as <-. eexists; split; [reflexivity|].
    unfold submit, submit_js. rewrite Htxt, Hld.
    destruct (_ || _); [split; assumption|].
    split; cbn; first [assumption | reflexivity | rewrite Hpend; reflexivity].
  - rewrite Hpend. destruct (pending s) as [|input rest]; [discriminate|].
    eexists; split; [reflexivity|]. unfold complete in Hs. unfold complete_js. cbv zeta.
    destruct (analyzeThought input) as [r|err].
    + destruct (store_visualization (visualization r) (heap s) (next_loc s))
        as [[[wc h'] next']|] eqn:Hsv; [|discriminate].
      destruct (reply r) eqn:Hr; try discriminate. injection Hs as <-.
      pose proof (store_visualization_rel _ _ _ _ _ _ _ Hsv Hh) as Hrel. rewrite Hn.
      destruct (store_visualization_js _ _ _) as [[jwc jh'] jnext].
      destruct Hrel as (Hc' & Hh' & ->). rewrite Hexp.
      split; cbn; try assumption; try reflexivity. destruct v; reflexivity.
    + injection Hs as <-. rewrite Hexp.
      split; cbn; try assumption; reflexivity.
  - injection Hs as <-. eexists; split; [reflexivity|].
    destruct Hi as [_ _ _ HLive HA HT _].
    assert (Hcf : frequency (jwaveConfig js) = frequency (waveConfig s)) by apply Hc.
    destruct (frame_js_refines t d (waveConfig s) (jwaveConfig js) (mesh s) (jmesh js) (heap s) (jheap js)
                Hc Hm Hh ltac:(rewrite HLive; exact HA) HT) as [Hm' Hh'].
    split; cbn; assumption.
Qed.


(** ** Every request ends *)

Lemma complete_js_done `{JsonParser} result input rest s :
  jisLoading (complete_js result input rest s) = false /\
  jpending (complete_js result input rest s) = rest.
Proof.
  unfold complete_js. cbv zeta.
  destruct (analyzeThought input); [destruct (store_visualization_js _ _ _) as [[? ?] ?]|];
    split; reflexivity.
Qed.

(** C15: every outstanding request ends.  In every reachable state of the
    page that is loading, the completion of the request is accepted
    whatever the model answered (a malformed or partial reply included)
    and leaves the page not loading with nothing outstanding.  (The
    typed model [App.AppShell.step] has no successor on partial
    replies.) *)
Theorem reachable_js_request_ends `{JsonParser} `{ColorStyle} `{StringToNumber} s result :
  reachable_js s -> jisLoading s = true ->
  exists s', step_js (Complete result) s = Some s' /\ jisLoading s' = false /\ jpending s' = nil.
Proof.
  intros Hr Hl. destruct (reachable_js_inv s Hr) as [HL Hsingle _ _ _ _ _].
  apply HL in Hl. cbn. destruct (jpending s) as [|input rest]; [congruence|].
  assert (rest = nil) as -> by (destruct rest; [reflexivity | cbn in Hsingle; lia]).
  eexists; split; [reflexivity|]. apply complete_js_done.
Qed.

(** ** A reply without [speed] *)

Lemma step_js_speed_poisoned `{JsonParser} `{ColorStyle} `{StringToNumber} e s s' :
  speed_poisoned (jmesh s) -> step_js e s = Some s' -> speed_poisoned (jmesh s').
Proof.
  intros Hp Hs. destruct e as [t| |result|t d]; cbn in Hs.
  - destruct (jisLoading s); [discriminate|]. injection Hs as <-. exact Hp.
  - injection Hs as <-. unfold submit_js. destruct (_ || _); exact Hp.
  - destruct (jpending s); [discriminate|]. injection Hs as <-.
    unfold complete_js; cbv zeta.
    destruct (analyzeThought _); [destruct (store_visualization_js _ _ _) as [[? ?] ?]|]; exact Hp.
  - injection Hs as <-. apply frame_js_speed_poisoned, Hp.
Qed.

Lemma run_events_js_speed_poisoned `{JsonParser} `{ColorStyle} `{StringToNumber} es s s' :
  speed_poisoned (jmesh s) -> run_events_js es s = Some s' -> speed_poisoned (jmesh s').
Proof.
  revert s. induction es as [|e es IH]; intros s Hp Hrun; cbn in Hrun.
  - injection Hrun as <-. exact Hp.
  - destruct (step_js e s) as [s1|] eqn:Hs; [|discriminate].
    exact (IH s1 (step_js_speed_poisoned e s s1 Hp Hs) Hrun).
Qed.

Lemma run_events_js_app `{JsonParser} `{ColorStyle} `{StringToNumber} es1 es2 s :
  run_events_js (es1 ++ es2) s =
  match run_events_js es1 s with Some s1 => run_events_js es2 s1 | None => None end.
Proof.
  revert s. induction es1 as [|e es1 IH]; intros s; [reflexivity|].
  cbn. destruct (step_js e s); [apply IH | reflexivity].
Qed.

#[local] Existing Instance fixture_strings.

Definition speedless_text : string := "{speedless}"%string.
Definition calm_text : string := "{calm}"%string.

(** The reply of the session: no [speed] in the first, every field in
    the second. *)
Definition session_visualization (with_speed : bool) : list (string * jsval) :=
  (if with_speed then [("speed"%string, JNum (1 # 2))] else []) ++
  [("elevation"%string, JNum (3 # 10)); ("frequencyX"%string, JNum 1); ("frequencyY"%string, JNum 1);
   ("color"%string, JStr "#22d3ee"%string); ("roughness"%string, JNum (1 # 2)); ("metalness"%string, JNum (1 # 2))].

#[local] Instance session_parser : JsonParser :=
  fun s => if String.eqb s speedless_text
           then Some (JObj [("reply"%string, JStr "Drifting."%string); ("visualization"%string, JObj (session_visualization false))])
           else if String.eqb s calm_text
           then Some (JObj [("reply"%string, JStr "Still water."%string); ("visualization"%string, JObj (session_visualization true))])
           else None.

(** Type, submit, receive the reply without [speed], one frame. *)
Definition speedless_session : list Event :=
  [TypeText "restless"%string; Submit; Complete (GenResolved (Some speedless_text)); Frame 1 (1 # 60)].

(** C4: a reply without [speed] breaks the animation for the rest of the
    session.  After the page receives a reply whose visualization has no
    [speed] and draws one frame, every continuation of the session (more
    frames, new thoughts, complete well-formed replies, failures) ends in
    a state whose live speed and [uSpeed] uniform are [NaN]. *)
Theorem speedless_reply_poisons_session es s' :
  run_events_js (speedless_session ++ es) js_init = Some s' -> speed_poisoned (jmesh s').
Proof.
  rewrite run_events_js_app.
  destruct (run_events_js speedless_session js_init) as [s1|] eqn:E; [|discriminate].
  apply run_events_js_speed_poisoned.
  vm_compute in E. injection E as <-.
  split; [vm_compute; reflexivity | eexists; split; [reflexivity | vm_compute; reflexivity]].
Qed.

(** Then a complete reply and more frames: the speed stays [NaN]. *)
Definition calm_after : list Event :=
  [TypeText "calm"%string; Submit; Complete (GenResolved (Some calm_text)); Frame 2 (1 # 60);
   Frame 3 (1 # 60)].

Definition session_end : JsAppState :=
  match run_events_js (speedless_session ++ calm_after) js_init with Some s => s | None => js_init end.

Lemma speedless_reply_poisons_session_witness :
  run_events_js (speedless_session ++ calm_after) js_init = Some session_end /\
  speed_poisoned (jmesh session_end).
Proof.
  assert (E : run_events_js (speedless_session ++ calm_after) js_init = Some session_end)
    by (vm_compute; reflexivity).
  split; [exact E | apply (speedless_reply_poisons_session calm_after session_end E)].
Defined.

(** A session with a complete reply, for the typed page. *)
Definition calm_session : list Event :=
  [TypeText "calm"%string; Submit; Complete (GenResolved (Some calm_text)); Frame 1 (1 # 60)].

Definition calm_end : AppState :=
  match run_events calm_session init with Some s => s | None => init end.


Definition calm_loading : JsAppState :=
  match run_events_js [TypeText "calm"%string; Submit] js_init with Some s => s | None => js_init end.

Lemma reachable_js_request_ends_witness :
  reachable_js calm_loading /\ jisLoading calm_loading = true /\
  exists s', step_js (Complete (GenResolved (Some speedless_text))) calm_loading = Some s' /\
             jisLoading s' = false /\ jpending s' = nil.
Proof.
  assert (R : reachable_js calm_loading)
    by (apply (run_events_js_reachable [TypeText "calm"%string; Submit] js_init);
        [apply reach_js_init | vm_compute; reflexivity]).
  assert (L : jisLoading calm_loading = true) by (vm_compute; reflexivity).
  split; [exact R | split; [exact L | apply (reachable_js_request_ends calm_loading _ R L)]].
Defined.

End JsShell.
