(* ===== verification/View.v ===== *)
(** * View: what [src/components/Interface.tsx] renders

    The JSX of [Interface] (lines 30-103) as a function of the page's
    state on JavaScript values ([JsApp.JsShell.JsAppState]): the status
    pill (lines 43-49), the response box (lines 52-65), the text input
    (lines 72-79) and the submit button (lines 80-94).  Rendering the
    reply as a React child ([react_children]) renders strings and
    numbers, skips [null], [undefined] and booleans, flattens arrays and
    throws on an object ("Objects are not valid as a React child"), so
    [render] returns an exception value.

    Theorems: the button is enabled exactly when [handleSubmit] accepts
    a submit; the status reads PROCESSING exactly when a request is
    outstanding; a page whose reply has the declared type never fails to
    render; and a reply whose [reply] is an object makes the rendering of
    the page throw. *)

From Stdlib Require Import ZArith Lia QArith String Ascii List Bool.
From stdpp Require Import gmap.
From S2P Require Import Prelude Types Lerp RenderLoop Gemini App JsNumber JsFrame JsApp.

Local Open Scope nw_scope.
Import ListNotations.
Import MathUtils ThreeColor WaveMesh GeminiService AppShell JsNum JsMesh JsShell.

Module InterfaceView.

(** React's rendering of a value as children: the text nodes it shows. *)
Fixpoint react_children (v : jsval) : exc thrown (list jsval) :=
  match v with
  | JUndefined | JNull | JBool _ => Return []
  | JNum _ | JStr _ => Return [v]
  | JArr items =>
      (fix go (l : list jsval) : exc thrown (list jsval) :=
         match l with
         | [] => Return []
         | w :: rest => a <- react_children w ;; b <- go rest ;; Return (a ++ b)
         end) items
  | JObj _ => Throw (ErrorMessage "Objects are not valid as a React child")
  end.

Record View : Type := mkView {
  status_label : string;
  status_pulse : bool;
  response_box : option (list jsval);
  input_value : string;
  input_disabled : bool;
  button_disabled : bool;
  button_highlighted : bool;
  button_spinner : bool
}.

(** [!inputText.trim()] *)
Definition blank (s : string) : bool := String.eqb (js_trim s) EmptyString.

(** Lines 30-103. *)
Definition render (s : JsAppState) : exc thrown View :=
  let loading := jisLoading s in
  let resp := match jlatestResponse s with Some v => v | None => JNull end in
  box <- (if truthy resp
          then text <- react_children resp ;; Return (Some text)
          else Return None) ;;
  Return (mkView (if loading then "PROCESSING" else "ONLINE") loading box
                 (jinputText s) loading (loading || blank (jinputText s))
                 (negb (blank (jinputText s)) && negb loading) loading).

(** ** Theorems *)

(** C17: the button agrees with the handler.  Whenever the page renders,
    the submit button is enabled exactly when [handleSubmit] would start
    a request, and it is highlighted exactly when it is enabled. *)
Theorem button_enabled_iff_submit_accepted s v :
  render s = Return v ->
  (button_disabled v = false <-> jisLoading (submit_js s) = true /\ jisLoading s = false) /\
  button_highlighted v = negb (button_disabled v).
Proof.
  unfold render. intros Hr. exc_inv Hr. injection Hr as <-. cbn [button_disabled button_highlighted].
  unfold submit_js, blank.
  destruct (String.eqb (js_trim (jinputText s)) EmptyString), (jisLoading s) eqn:L; cbn;
    rewrite ?L; (split; [|reflexivity]); intuition congruence.
Qed.

Lemma render_ok s :
  (forall v, jlatestResponse s = Some v -> truthy v = true -> exists t, react_children v = Return t) ->
  exists v, render s = Return v /\ status_label v = (if jisLoading s then "PROCESSING" else "ONLINE")%string.
Proof.
  intros Hok. unfold render.
  destruct (jlatestResponse s) as [r|] eqn:E; cbn [truthy].
  - destruct (truthy r) eqn:T.
    + destruct (Hok r eq_refl T) as [t ->]. cbn. eexists; split; reflexivity.
    + cbn. eexists; split; reflexivity.
  - cbn. eexists; split; reflexivity.
Qed.

(** C27: the status pill tells the truth.  In every reachable state of the
    page the render succeeds or throws, and when it succeeds the status
    reads PROCESSING exactly when a request is outstanding. *)
Theorem reachable_status_processing `{JsonParser} `{ColorStyle} `{StringToNumber} s v :
  reachable_js s -> render s = Return v ->
  (status_label v = "PROCESSING"%string <-> jpending s <> nil).
Proof.
  intros Hr Hv. destruct (reachable_js_inv s Hr) as [HL _ _ _ _ _ _].
  unfold render in Hv. exc_inv Hv. injection Hv as <-. cbn [status_label].
  rewrite <- HL. destruct (jisLoading s); split; intros Hlab; try reflexivity; discriminate.
Qed.

(** C28: typed replies always render.  A page on JavaScript values related
    to a state of the typed page (whose reply, when there is one, is a
    string) renders without throwing. *)
Theorem typed_page_renders `{StringToNumber} s js :
  app_rel s js -> exists v, render js = Return v.
Proof.
  intros Hrel. destruct (render_ok js) as (v & Hv & _); [|eauto].
  intros r E _. rewrite (rel_response _ _ Hrel) in E.
  destruct (latestResponse s); cbn in E; [injection E as <-; eexists; reflexivity | discriminate].
Qed.

(** C10: an object as [reply] breaks the page.  [analyzeThought] passes
    [parsed.reply] on unchecked; when the model returns an object there,
    the completion stores it in [latestResponse] and rendering the
    interface throws, React's "Objects are not valid as a React child". *)
Theorem object_reply_breaks_render `{JsonParser} result input rest s r fields :
  @analyzeThought (fun _ => result) _ input = Fulfilled r -> reply r = JObj fields ->
  render (complete_js result input rest s) =
  Throw (ErrorMessage "Objects are not valid as a React child").
Proof.
  intros Ha Hr. unfold complete_js. cbv zeta. rewrite Ha.
  destruct (store_visualization_js _ _ _) as [[? ?] ?]. unfold render; cbn. rewrite Hr. reflexivity.
Qed.

(** ** Fixtures *)

#[local] Existing Instance fixture_strings.
Local Open Scope string_scope.

Definition object_text : string := "{object}".

(** A reply whose [reply] is an object. *)
#[local] Instance object_parser : JsonParser :=
  fun s => if String.eqb s object_text
           then Some (JObj [("reply", JObj [("text", JStr "Waves.")]);
                            ("visualization", JObj [("speed", JNum 1)])])
           else None.

Definition object_result : GenerateResult := GenResolved (Some object_text).

Definition object_response : AnalyzeResponse :=
  match @analyzeThought (fun _ => object_result) _ "storm" with
  | Fulfilled r => r
  | Rejected _ => fallback_response
  end.

Definition typing_events : list Event := [TypeText "hello"; Submit].

Definition typed_state : JsAppState :=
  match run_events_js [TypeText "hello"] js_init with Some s => s | None => js_init end.

Definition loading_state : JsAppState :=
  match run_events_js typing_events js_init with Some s => s | None => js_init end.

Definition view_of (s : JsAppState) : View :=
  match render s with
  | Return v => v
  | Throw _ => mkView EmptyString false None EmptyString false false false false
  end.

Lemma button_enabled_iff_submit_accepted_witness :
  render typed_state = Return (view_of typed_state) /\
  (button_disabled (view_of typed_state) = false <->
   jisLoading (submit_js typed_state) = true /\ jisLoading typed_state = false) /\
  button_highlighted (view_of typed_state) = negb (button_disabled (view_of typed_state)).
Proof.
  assert (E : render typed_state = Return (view_of typed_state)) by (vm_compute; reflexivity).
  split; [exact E | apply (button_enabled_iff_submit_accepted typed_state _ E)].
Defined.

Lemma reachable_status_processing_witness :
  reachable_js loading_state /\ render loading_state = Return (view_of loading_state) /\
  (status_label (view_of loading_state) = "PROCESSING" <-> jpending loading_state <> nil).
Proof.
  assert (R : reachable_js loading_state)
    by (apply (run_events_js_reachable typing_events js_init); [apply reach_js_init | vm_compute; reflexivity]).
  assert (E : render loading_state = Return (view_of loading_state)) by (vm_compute; reflexivity).
  split; [exact R | split; [exact E | apply (reachable_status_processing loading_state _ R E)]].
Defined.

Lemma typed_page_renders_witness : app_rel init js_init /\ exists v, render js_init = Return v.
Proof. split; [apply app_rel_init | apply (typed_page_renders init js_init app_rel_init)]. Defined.

Lemma object_reply_breaks_render_witness :
  @analyzeThought (fun _ => object_result) _ "storm" = Fulfilled object_response /\
  reply object_response = JObj [("text", JStr "Waves.")] /\
  render (complete_js object_result "storm" [] loading_state) =
  Throw (ErrorMessage "Objects are not valid as a React child").
Proof.
  assert (A : @analyzeThought (fun _ => object_result) _ "storm" = Fulfilled object_response)
    by (vm_compute; reflexivity).
  assert (R : reply object_response = JObj [("text", JStr "Waves.")]) by (vm_compute; reflexivity).
  split; [exact A | split; [exact R | apply (object_reply_breaks_render _ _ _ _ _ _ A R)]].
Defined.

End InterfaceView.
